(** * A model-aware API gateway (src/worker.js): catalog building and routing

    Shallow embedding of the Worker's core: the model-list normaliser and
    the catalog builder ([buildModelProviderMap]), the cached routing table
    ([MODEL_PROVIDER_MAP]), the two API handlers and the [fetch] entry
    point, run on an explicit event loop whose suspension points are the
    [await]s of the source. *)

From Stdlib Require Import String Ascii List ZArith Bool Lia Permutation.
From Stdlib Require Import DecimalString.
Import ListNotations.
Open Scope string_scope.

#[local] Set Warnings "-register-all".

(** ** The host environment

    What the script leaves to the JavaScript engine: the representation of
    numbers (IEEE doubles, kept abstract here) with the operations the
    script applies to them, and the texts of the messages of the engine's
    own exceptions. *)
Class Engine := {
  number : Type;
  (** [Boolean(n)] is false: [n] is [+0] or [-0] ([NaN] is not JSON) *)
  number_is_zero : number -> bool;
  (** SameValueZero, the key equality of [Map] *)
  number_same : number -> number -> bool;
  (** [String(n)], as a template literal computes it *)
  number_to_string : number -> string;
  (** [JSON.stringify(n)] read back: [None] when it prints [null] ([n] is
      not finite, as [1e999] is), else the number its text denotes ([+0]
      for [-0]) *)
  number_stringify : number -> option number;
  (** message of the TypeError of reading property [p] of [null] *)
  null_read_message : string -> string;
  (** message of the RangeError of [new Response] for a status outside 200..599 *)
  status_range_message : Z -> string;
  (** message of the TypeError of converting an object to a primitive *)
  conversion_message : string
}.

(** An engine for documents that hold no number literal; the messages are
    those of V8 and of the Workers runtime. *)
Definition text_engine : Engine := {|
  number := Empty_set;
  number_is_zero := fun n => match n with end;
  number_same := fun n _ => match n with end;
  number_to_string := fun n => match n with end;
  number_stringify := fun n => match n with end;
  null_read_message := fun p =>
    "Cannot read properties of null (reading '" ++ p ++ "')";
  status_range_message := fun _ =>
    "Responses may only be constructed with status codes in the range 200 to 599, inclusive.";
  conversion_message := "Cannot convert object to primitive value"
|}.

(** ** Exceptions and completions *)

Inductive js_error : Type :=
| NetworkError (message : string)      (* [fetch] rejects *)
| StatusError (status : Z)             (* line 104: [throw new Error(...)] *)
| BodyError (message : string)         (* [.json()] rejects: the body is not JSON *)
| NullReadError (property : string)    (* TypeError: property read on [null] *)
| StatusRangeError (status : Z)        (* RangeError of [new Response] *)
| ConversionError.                     (* TypeError: an object has no primitive value *)

(** The outcome of evaluating a piece of script: a value, or a throw. *)
Inductive completion (A : Type) : Type :=
| Normal (a : A)
| Throw (e : js_error).
Arguments Normal {A} a.
Arguments Throw {A} e.

Definition bind {A B} (c : completion A) (k : A -> completion B) : completion B :=
  match c with
  | Normal a => k a
  | Throw e => Throw e
  end.

Notation "x <- c ;; k" := (bind c (fun x => k))
  (at level 61, c at next level, right associativity).

Definition string_of_Z (z : Z) : string := NilZero.string_of_int (Z.to_int z).

(** ** 1. The static provider registry (lines 17-69) *)

Definition WORKER_API_KEY : string := "1".

(** A value of [PROVIDER_CONFIG]. [models] and [modelsPath] are [None] where
    the object literal has no such property. *)
Record ProviderConfig : Type := {
  name : string;
  upstreamHost : string;
  models : option (list string);
  modelsPath : option string;
  chatPath : string
}.

(** [Object.entries(PROVIDER_CONFIG)]: the keys of an object are distinct. *)
Definition PROVIDER_CONFIG : list (string * ProviderConfig) := [
  ("api.airforce",
   {| name := "Airforce API"; upstreamHost := "api.airforce";
      models := Some ["gpt-5-mini"; "gpt-4o-mini"]; modelsPath := None;
      chatPath := "/v1/chat/completions" |});
  ("anondrop.net",
   {| name := "AnonDrop"; upstreamHost := "anondrop.net";
      models := None; modelsPath := Some "/v1/models";
      chatPath := "/v1/chat/completions" |});
  ("gpt4free.pro",
   {| name := "GPT4Free.pro"; upstreamHost := "gpt4free.pro";
      models := None; modelsPath := Some "/v1/models";
      chatPath := "/v1/chat/completions" |});
  ("gemini",
   {| name := "Google Gemini (via g4f)"; upstreamHost := "g4f.dev";
      models := None; modelsPath := Some "/api/gemini/models";
      chatPath := "/api/gemini/chat/completions" |});
  ("grok",
   {| name := "Grok (via g4f)"; upstreamHost := "g4f.dev";
      models := None; modelsPath := Some "/api/grok/models";
      chatPath := "/api/grok/chat/completions" |});
  ("pollinations.ai",
   {| name := "Pollinations.ai (via g4f)"; upstreamHost := "g4f.dev";
      models := None; modelsPath := Some "/api/pollinations.ai/models";
      chatPath := "/api/pollinations.ai/chat/completions" |});
  ("ollama",
   {| name := "Ollama (via g4f)"; upstreamHost := "g4f.dev";
      models := None; modelsPath := Some "/api/ollama/models";
      chatPath := "/api/ollama/chat/completions" |});
  ("huggingface",
   {| name := "HuggingFace (via g4f)"; upstreamHost := "g4f.dev";
      models := None;
      modelsPath := Some "/api/huggingface/models?inference=warm&&expand[]=inferenceProviderMapping";
      chatPath := "/api/huggingface/chat/completions" |})
].

(** The value a [Map] entry holds (lines 91 and 119). *)
Record providerInfo : Type := {
  providerId : string;
  info_upstreamHost : string;
  info_chatPath : string
}.

(** ** Headers *)

Definition Headers : Type := list (string * string).

Definition lower_ascii (c : ascii) : ascii :=
  let n := nat_of_ascii c in
  if (65 <=? n)%nat && (n <=? 90)%nat then ascii_of_nat (n + 32) else c.

Fixpoint lower (s : string) : string :=
  match s with
  | EmptyString => EmptyString
  | String c r => String (lower_ascii c) (lower r)
  end.

(** [headers.get(name)]: names match without regard to case, the values of
    a repeated header are joined by a comma and a space, and an absent
    header gives [null]. *)
Definition headers_get (h : Headers) (field : string) : option string :=
  match List.filter (fun kv => lower (fst kv) =? lower field) h with
  | [] => None
  | found => Some (String.concat ", " (List.map snd found))
  end.

(** Truthiness of a string or [null]. *)
Definition truthy_string (s : option string) : bool :=
  match s with
  | Some s => negb (s =? EmptyString)
  | None => false
  end.

(** [`https://${upstreamHost}${path}`] *)
Definition https_url (host path : string) : string := "https://" ++ host ++ path.

(** The character U+0022, for the one message that quotes a word. *)
Definition double_quote : string := String (ascii_of_nat 34) EmptyString.

(** The entry of key [key] in an association list, and the list without it. *)
Fixpoint take_entry {K A} (eqb : K -> K -> bool) (key : K) (l : list (K * A))
    : option (A * list (K * A)) :=
  match l with
  | [] => None
  | (k, a) :: rest =>
      if eqb k key then Some (a, rest)
      else match take_entry eqb key rest with
           | Some (found, rest') => Some (found, (k, a) :: rest')
           | None => None
           end
  end.

(** ** The order of the keys of an object *)

Definition digit_value (c : ascii) : option N :=
  let n := N_of_ascii c in
  if ((48 <=? n) && (n <=? 57))%N then Some (n - 48)%N else None.

Fixpoint digits_value (s : string) (acc : N) : option N :=
  match s with
  | EmptyString => Some acc
  | String c rest =>
      match digit_value c with
      | Some d => digits_value rest (10 * acc + d)%N
      | None => None
      end
  end.

(** An array index: the decimal numeral, with no leading zero, of an
    integer below 2^32 - 1. *)
Definition array_index (k : string) : option N :=
  match k with
  | EmptyString => None
  | String c rest =>
      if (c =? "0")%char && negb (rest =? EmptyString) then None
      else match digits_value k 0 with
           | Some n => if (n <? 4294967295)%N then Some n else None
           | None => None
           end
  end.

Definition is_index (k : string) : bool :=
  match array_index k with
  | Some _ => true
  | None => false
  end.

Definition index_of (k : string) : N :=
  match array_index k with
  | Some n => n
  | None => 0%N
  end.

(** Each key once, where it first stands. *)
Fixpoint first_occurrences (keys : list string) : list string :=
  match keys with
  | [] => []
  | k :: rest => k :: List.filter (fun x => negb (x =? k)) (first_occurrences rest)
  end.

Fixpoint insert_index (k : string) (sorted : list string) : list string :=
  match sorted with
  | [] => [k]
  | x :: rest =>
      if (index_of k <? index_of x)%N then k :: x :: rest
      else x :: insert_index k rest
  end.

(** [[OwnPropertyKeys]] of an object whose members were created in the
    order of [keys]: the array indices in ascending order, then the other
    keys in the order of their creation. *)
Definition own_keys (keys : list string) : list string :=
  (fold_right insert_index [] (List.filter is_index (first_occurrences keys))
   ++ List.filter (fun k => negb (is_index k)) (first_occurrences keys))%list.

Section Gateway.
Context {E : Engine}.

(** ** JSON values, as [JSON.parse] delivers them *)

Inductive json : Type :=
| JNull
| JBool (b : bool)
| JNum (n : number)
| JStr (s : string)
| JArr (elements : list json)
| JObj (members : list (string * json)).

(** Induction on a value, through its elements and members. *)
Fixpoint json_nested (P : json -> Prop)
    (Hnull : P JNull) (Hbool : forall b, P (JBool b)) (Hnum : forall n, P (JNum n))
    (Hstr : forall s, P (JStr s)) (Harr : forall l, Forall P l -> P (JArr l))
    (Hobj : forall members, Forall (fun member => P (snd member)) members -> P (JObj members))
    (v : json) : P v :=
  match v with
  | JNull => Hnull
  | JBool b => Hbool b
  | JNum n => Hnum n
  | JStr s => Hstr s
  | JArr l =>
      Harr l ((fix all (l : list json) : Forall P l :=
                 match l with
                 | [] => Forall_nil P
                 | x :: rest =>
                     Forall_cons x (json_nested P Hnull Hbool Hnum Hstr Harr Hobj x) (all rest)
                 end) l)
  | JObj members =>
      Hobj members
        ((fix all (ms : list (string * json)) : Forall (fun member => P (snd member)) ms :=
            match ms with
            | [] => Forall_nil _
            | member :: rest =>
                Forall_cons member
                  (json_nested P Hnull Hbool Hnum Hstr Harr Hobj (snd member)) (all rest)
            end) members)
  end.

(** The own property [p] of a parsed object: of two members with one key the
    later one stays. *)
Fixpoint own_property (members : list (string * json)) (p : string) : option json :=
  match members with
  | [] => None
  | (k, v) :: rest =>
      match own_property rest p with
      | Some w => Some w
      | None => if k =? p then Some v else None
      end
  end.

(** [v.p] for the property names the script reads ([id], [name], [data],
    [models], [model]): [None] is [undefined]. Reading from [null] throws;
    booleans, numbers, strings and arrays have no such property. *)
Definition get_property (v : json) (p : string) : completion (option json) :=
  match v with
  | JNull => Throw (NullReadError p)
  | JObj members => Normal (own_property members p)
  | _ => Normal None
  end.

(** [Boolean(v)], [None] being [undefined]. *)
Definition truthy (v : option json) : bool :=
  match v with
  | None => false
  | Some JNull => false
  | Some (JBool b) => b
  | Some (JNum n) => negb (number_is_zero n)
  | Some (JStr s) => negb (s =? EmptyString)
  | Some (JArr _) => true
  | Some (JObj _) => true
  end.

Definition isArray (v : option json) : bool :=
  match v with
  | Some (JArr _) => true
  | _ => false
  end.

Definition elements_of (v : option json) : list json :=
  match v with
  | Some (JArr l) => l
  | _ => []
  end.

(** [String(v)], as a template literal computes it. An object is converted
    through its [toString]: a parsed object that has an own [toString]
    member hides the callable one of [Object.prototype] behind a value
    that cannot be called, its [valueOf] gives back the object, and the
    conversion throws a TypeError; any other parsed object prints as
    [[object Object]]. An array joins its elements with commas, a [null]
    element printing as nothing and any other being converted in turn. *)
Fixpoint js_to_string (v : json) : completion string :=
  match v with
  | JNull => Normal "null"
  | JBool true => Normal "true"
  | JBool false => Normal "false"
  | JNum n => Normal (number_to_string n)
  | JStr s => Normal s
  | JArr l =>
      let element x := match x with JNull => Normal EmptyString | _ => js_to_string x end in
      (fix join (l : list json) : completion string :=
         match l with
         | [] => Normal EmptyString
         | [x] => element x
         | x :: rest =>
             first <- element x ;;
             others <- join rest ;;
             Normal (first ++ "," ++ others)
         end) l
  | JObj members =>
      match own_property members "toString" with
      | Some _ => Throw ConversionError
      | None => Normal "[object Object]"
      end
  end.

(** The text of a value that converts. *)
Definition printed (v : json) : string :=
  match js_to_string v with
  | Normal text => text
  | Throw _ => EmptyString
  end.

(** ** [JSON.stringify] of a parsed value

    A document stands for its text. The text that [JSON.stringify] prints
    for the value parsed from a document is again a document: each object
    holds every key once, with the value of its last member of that key,
    the keys that are array indices first in ascending order and the
    others in the order of their first member ([[OwnPropertyKeys]]); a
    number that is not finite prints as [null]. [selected values keys] are
    the members that the keys [keys] take from [values]. *)
Definition selected (values : list (string * json)) (keys : list string) : list (string * json) :=
  flat_map (fun k => match own_property values k with
                     | Some x => [(k, x)]
                     | None => []
                     end) keys.

Fixpoint JSON_stringify (v : json) : json :=
  match v with
  | JNum n =>
      match number_stringify n with
      | Some n' => JNum n'
      | None => JNull
      end
  | JArr l => JArr (List.map JSON_stringify l)
  | JObj members =>
      let values :=
        (fix each (ms : list (string * json)) : list (string * json) :=
           match ms with
           | [] => []
           | (k, x) :: rest => (k, JSON_stringify x) :: each rest
           end) members in
      JObj (selected values (own_keys (List.map fst members)))
  | _ => v
  end.

Definition error_message (e : js_error) : string :=
  match e with
  | NetworkError m => m
  | StatusError s => "上游服务返回状态 " ++ string_of_Z s
  | BodyError m => m
  | NullReadError p => null_read_message p
  | StatusRangeError s => status_range_message s
  | ConversionError => conversion_message
  end.

(** ** The model-list normaliser (lines 109-116) *)

(** [array.map(f)] for a callback that may throw: the first throw ends it. *)
Fixpoint array_map {A B} (f : A -> completion B) (l : list A) : completion (list B) :=
  match l with
  | [] => Normal []
  | x :: rest => y <- f x ;; ys <- array_map f rest ;; Normal (y :: ys)
  end.

(** [array.filter(Boolean)] *)
Fixpoint filter_Boolean (l : list (option json)) : list json :=
  match l with
  | [] => []
  | Some v :: rest => if truthy (Some v) then v :: filter_Boolean rest else filter_Boolean rest
  | None :: rest => filter_Boolean rest
  end.

(** [m => m.id || m.name] *)
Definition id_or_name (m : json) : completion (option json) :=
  id <- get_property m "id" ;;
  if truthy id then Normal id else get_property m "name".

Definition normalizeModelList (data : json) : completion (list json) :=
  if isArray (Some data) then
    found <- array_map id_or_name (elements_of (Some data)) ;;
    Normal (filter_Boolean found)
  else
    d <- get_property data "data" ;;
    if truthy d && isArray d then
      found <- array_map (fun m => get_property m "id") (elements_of d) ;;
      Normal (filter_Boolean found)
    else
      ms <- get_property data "models" ;;
      if truthy ms && isArray ms then
        found <- array_map (fun m => get_property m "name") (elements_of ms) ;;
        Normal (filter_Boolean found)
      else Normal [].


(** ** The routing table: a [Map] (lines 76, 84) *)

(** SameValueZero. An array or object is equal to itself only; every one
    the script meets as a key comes fresh from a parse, so two of them are
    never one object and the comparison is false. *)
Definition same_value_zero (a b : json) : bool :=
  match a, b with
  | JNull, JNull => true
  | JBool x, JBool y => Bool.eqb x y
  | JNum x, JNum y => number_same x y
  | JStr x, JStr y => x =? y
  | _, _ => false
  end.

(** Entries in insertion order. *)
Definition Map : Type := list (json * providerInfo).

(** [map.set(k, v)]: an existing key keeps its place and takes the new
    value, a new key goes last. *)
Fixpoint Map_set (k : json) (v : providerInfo) (m : Map) : Map :=
  match m with
  | [] => [(k, v)]
  | (k', v') :: rest =>
      if same_value_zero k' k then (k', v) :: rest
      else (k', v') :: Map_set k v rest
  end.

(** [map.get(k)] *)
Fixpoint Map_get (m : Map) (k : json) : option providerInfo :=
  match m with
  | [] => None
  | (k', v) :: rest => if same_value_zero k' k then Some v else Map_get rest k
  end.

Definition Map_size (m : Map) : nat := List.length m.

(** ** The catalog builder (lines 82-130) *)

(** An outbound call: the argument of a [fetch]. *)
Record Fetch : Type := {
  fetch_url : string;
  fetch_method : string;
  fetch_headers : Headers;
  fetch_body : option json;     (* the document the body text is *)
  fetch_redirect : string
}.

(** How a discovery [fetch] ends: it rejects, or it gives a response with a
    status and a body that [response.json()] parses or rejects. *)
Inductive fetch_outcome : Type :=
| FetchRejected (message : string)
| FetchResponse (status : Z) (parsed : completion json).

(** [response.ok] *)
Definition response_ok (status : Z) : bool := (200 <=? status)%Z && (status <=? 299)%Z.

(** [{ providerId, upstreamHost: config.upstreamHost, chatPath: config.chatPath }] *)
Definition info_of (pid : string) (config : ProviderConfig) : providerInfo :=
  {| providerId := pid;
     info_upstreamHost := upstreamHost config;
     info_chatPath := chatPath config |}.

(** [ids.forEach(modelId => map.set(modelId, {...}))] (lines 90-92, 118-120) *)
Definition register (pid : string) (config : ProviderConfig) (ids : list json) (m : Map) : Map :=
  fold_left (fun acc modelId => Map_set modelId (info_of pid config) acc) ids m.

Definition discovery_request (config : ProviderConfig) (path : string) : Fetch :=
  {| fetch_url := https_url (upstreamHost config) path;
     fetch_method := "GET";
     fetch_headers := [("Accept", "application/json");
                       ("Origin", "https://g4f.dev");
                       ("Referer", "https://g4f.dev/")];
     fetch_body := None;
     fetch_redirect := "follow" |}.

(** One provider's callback up to its first [await] (lines 87-102): a
    static list is registered at once, a truthy [modelsPath] issues the
    discovery call and suspends, anything else finishes empty-handed. *)
Definition task_start (pid : string) (config : ProviderConfig) (m : Map) : Map * option Fetch :=
  match models config, truthy_string (modelsPath config) with
  | Some ids, false => (register pid config (List.map JStr ids) m, None)
  | _, true =>
      match modelsPath config with
      | Some path => (m, Some (discovery_request config path))
      | None => (m, None)
      end
  | None, false => (m, None)
  end.

(** From the settled call to the list of ids (lines 99-116): a rejected
    fetch and a non-success status throw, and so may the parse of the body
    and the normaliser. The two awaits, of the fetch and of the body, are
    one step: nothing shared is touched between them. *)
Definition discover (o : fetch_outcome) : completion (list json) :=
  match o with
  | FetchRejected message => Throw (NetworkError message)
  | FetchResponse status parsed =>
      if negb (response_ok status) then Throw (StatusError status)
      else data <- parsed ;; normalizeModelList data
  end.

(** The rest of the callback, inside its [try] (lines 99-120). *)
Definition task_body (pid : string) (config : ProviderConfig)
    (o : fetch_outcome) (m : Map) : completion Map :=
  found <- discover o ;;
  Normal (register pid config found m).

(** The [catch] (lines 122-124): the table as it was, and one console line. *)
Definition task_settle (pid : string) (config : ProviderConfig)
    (o : fetch_outcome) (m : Map) : Map * list string :=
  match task_body pid config o m with
  | Normal m' => (m', [])
  | Throw error =>
      (m, ["获取提供商 '" ++ pid ++ "' 的模型列表失败: " ++ error_message error])
  end.

(** A run of the builder: its local [map] and the providers whose discovery
    call has not settled. *)
Record Build : Type := {
  map : Map;
  pending : list (string * ProviderConfig)
}.

(** [Object.entries(PROVIDER_CONFIG).map(async ...)]: every callback runs to
    its first [await], in the order of the entries. *)
Fixpoint start_tasks (entries : list (string * ProviderConfig)) (b : Build) : Build * list Fetch :=
  match entries with
  | [] => (b, [])
  | (pid, config) :: rest =>
      match task_start pid config (map b) with
      | (m, Some call) =>
          let (b', calls) :=
            start_tasks rest {| map := m; pending := (pending b ++ [(pid, config)])%list |} in
          (b', call :: calls)
      | (m, None) => start_tasks rest {| map := m; pending := pending b |}
      end
  end.

Definition take_pending (pid : string) (p : list (string * ProviderConfig))
    : option (ProviderConfig * list (string * ProviderConfig)) :=
  take_entry String.eqb pid p.

(** The discovery call of provider [pid] settles and its callback runs to
    the end; a provider with no call in flight is no event of this build. *)
Definition build_settle (pid : string) (o : fetch_outcome) (b : Build) : Build * list string :=
  match take_pending pid (pending b) with
  | None => (b, [])
  | Some (config, rest) =>
      let (m, lines) := task_settle pid config o (map b) in
      ({| map := m; pending := rest |}, lines)
  end.

Fixpoint settle_in_order (schedule : list (string * fetch_outcome)) (b : Build) : Build * list string :=
  match schedule with
  | [] => (b, [])
  | (pid, o) :: rest =>
      let (b1, lines1) := build_settle pid o b in
      let (b2, lines2) := settle_in_order rest b1 in
      (b2, (lines1 ++ lines2)%list)
  end.

Definition new_build : Build := {| map := []; pending := [] |}.

(** The builder on its own: the calls settle in the order of [schedule].
    [Promise.allSettled] resolves once no call is pending, and the result
    is the map assigned to [MODEL_PROVIDER_MAP]; [None] when a call never
    settles and the builder never returns. *)
Definition buildModelProviderMap (registry : list (string * ProviderConfig))
    (schedule : list (string * fetch_outcome)) : option Map :=
  let b := fst (settle_in_order schedule (fst (start_tasks registry new_build))) in
  match pending b with
  | [] => Some (map b)
  | _ :: _ => None
  end.

(** The network calls of one run of the builder. *)
Definition discovery_calls (registry : list (string * ProviderConfig)) : list Fetch :=
  snd (start_tasks registry new_build).


(** ** Requests and responses *)

(** An inbound request: [pathname] is [new URL(request.url).pathname], and
    [body] is what [request.json()] settles to, the parsed value or the
    rejection for a text that is not JSON. *)
Record Request : Type := {
  method : string;
  pathname : string;
  headers : Headers;
  body : completion json
}.

Inductive Body : Type :=
| TextBody (text : string)                  (* a string *)
| JsonBody (value : json)                   (* [JSON.stringify(value)] *)
| StreamBody (chunks : option (list string)) (* the body of a fetched response, or [null] *)
| PageBody.                                 (* the console page of [handleGuiRequest] *)

Record Response : Type := {
  status : Z;
  statusText : string;
  response_headers : Headers;
  response_body : Body
}.

(** [new Response(body, { status, statusText, headers })]: the constructor
    throws a RangeError for a status outside 200..599. Its two other checks
    cannot fail on what the script passes: a fetched [statusText] is a
    reason phrase, and a fetched response with a null-body status has a
    [null] body. *)
Definition new_Response (b : Body) (st : Z) (text : string) (h : Headers) : completion Response :=
  if (200 <=? st)%Z && (st <=? 599)%Z then
    Normal {| status := st; statusText := text; response_headers := h; response_body := b |}
  else Throw (StatusRangeError st).

(** How the upstream chat [fetch] ends. *)
Inductive upstream_outcome : Type :=
| UpstreamRejected (message : string)
| UpstreamResponse (r : Response).

(** ** The model-catalog handler (lines 236-250) *)

Definition handleModelsRequest (MODEL_PROVIDER_MAP : option Map) : completion Response :=
  match MODEL_PROVIDER_MAP with
  | None => new_Response (TextBody "模型目录尚未准备就绪，请稍后再试。") 503 EmptyString []
  | Some m =>
      let modelsData :=
        List.map (fun entry : json * providerInfo =>
                    let (id, info) := entry in
                    JObj [("id", id); ("object", JStr "model");
                          ("owned_by", JStr (providerId info))]) m in
      new_Response (JsonBody (JObj [("object", JStr "list"); ("data", JArr modelsData)]))
                   200 EmptyString [("Content-Type", "application/json")]
  end.

(** ** The chat handler (lines 177-231), cut at its awaits *)

(** [authHeader !== `Bearer ${WORKER_API_KEY}`] *)
Definition differs (a : option string) (b : string) : bool :=
  match a with
  | Some s => negb (s =? b)
  | None => true
  end.

(** Lines 178-185: the checks before the body is read. *)
Definition chat_checks (request : Request) : option (completion Response) :=
  if negb (method request =? "POST") then
    Some (new_Response (TextBody "方法不允许") 405 EmptyString [])
  else
    let authHeader := headers_get (headers request) "Authorization" in
    if negb (truthy_string authHeader) || differs authHeader ("Bearer " ++ WORKER_API_KEY) then
      Some (new_Response (TextBody "未授权：无效的 API 密钥。") 401 EmptyString [])
    else None.

Definition upstream_headers : Headers := [
  ("Content-Type", "application/json");
  ("Accept", "*/*");
  ("Origin", "https://g4f.dev");
  ("Referer", "https://g4f.dev/");
  ("User-Agent", "Mozilla/5.0 (Windows NT 10.0; Win64; x64) AppleWebKit/537.36 (KHTML, like Gecko) Chrome/142.0.0.0 Safari/537.36")
].

(** Lines 200-215. The body is [JSON.stringify(requestBody)]. The hosts
    and paths of a registry form URLs, so that [new Request] takes them. *)
Definition upstream_request (info : providerInfo) (requestBody : json) : Fetch :=
  {| fetch_url := https_url (info_upstreamHost info) (info_chatPath info);
     fetch_method := "POST";
     fetch_headers := upstream_headers;
     fetch_body := Some (JSON_stringify requestBody);
     fetch_redirect := "follow" |}.

Definition missing_model : completion Response :=
  new_Response (TextBody ("请求体中缺少 " ++ double_quote ++ "model" ++ double_quote ++ " 字段。"))
               400 EmptyString [].

(** Lines 187-215, from the parsed body to the upstream request: a
    response, or the model id and the request to send. On a [null] value
    of [MODEL_PROVIDER_MAP] the call of [get] throws, and so does the
    template literal of line 197 on an id that does not convert. *)
Definition chat_resolve (MODEL_PROVIDER_MAP : option Map) (request : Request)
    : completion (Response + json * Fetch) :=
  requestBody <- body request ;;
  modelId <- get_property requestBody "model" ;;
  match modelId with
  | None => r <- missing_model ;; Normal (inl r)
  | Some id =>
      if negb (truthy modelId) then r <- missing_model ;; Normal (inl r)
      else
        match MODEL_PROVIDER_MAP with
        | None => Throw (NullReadError "get")
        | Some m =>
            match Map_get m id with
            | None =>
                named <- js_to_string id ;;
                r <- new_Response
                       (TextBody ("找不到模型: '" ++ named
                                  ++ "'。请在 /v1/models 检查可用模型列表。"))
                       404 EmptyString [] ;;
                Normal (inl r)
            | Some info => Normal (inr (id, upstream_request info requestBody))
            end
        end
  end.

(** [upstreamResponse.headers.get('Content-Type') || 'text/event-stream'] *)
Definition relayed_content_type (upstreamResponse : Response) : string :=
  let given := headers_get (response_headers upstreamResponse) "Content-Type" in
  match given with
  | Some s => if truthy_string given then s else "text/event-stream"
  | None => "text/event-stream"
  end.

(** Lines 217-230: the [try] around the upstream fetch and the relay, and
    its [catch], whose template literal converts the model id. *)
Definition chat_relay (modelId : json) (o : upstream_outcome) : completion Response :=
  let attempt :=
    match o with
    | UpstreamRejected message => Throw (NetworkError message)
    | UpstreamResponse upstreamResponse =>
        new_Response (response_body upstreamResponse)
                     (status upstreamResponse) (statusText upstreamResponse)
                     [("Content-Type", relayed_content_type upstreamResponse);
                      ("Access-Control-Allow-Origin", "*");
                      ("Cache-Control", "no-cache")]
    end in
  match attempt with
  | Normal r => Normal r
  | Throw error =>
      named <- js_to_string modelId ;;
      new_Response
        (TextBody ("上游 API 请求失败 (模型 '" ++ named ++ "'): " ++ error_message error))
        502 EmptyString []
  end.

(** The handler in one piece: the completion it ends with and the upstream
    calls it made, [upstream] telling how the upstream fetch ends if one
    is made. *)
Definition handleChatCompletionRequest (MODEL_PROVIDER_MAP : option Map)
    (request : Request) (upstream : upstream_outcome) : completion Response * list Fetch :=
  match chat_checks request with
  | Some r => (r, [])
  | None =>
      match chat_resolve MODEL_PROVIDER_MAP request with
      | Throw e => (Throw e, [])
      | Normal (inl r) => (Normal r, [])
      | Normal (inr (modelId, upstreamRequest)) =>
          (chat_relay modelId upstream, [upstreamRequest])
      end
  end.

(** Lines 257-474, the page itself left out. *)
Definition handleGuiRequest : completion Response :=
  new_Response PageBody 200 EmptyString [("Content-Type", "text/html; charset=utf-8")].


(** ** The Worker: one isolate, its global and its handlers in flight *)

(** [MODEL_PROVIDER_MAP] is the global of line 76. A handler is suspended at
    one of three awaits: of the builder it started (line 142), of its
    request's body (line 187), of the upstream fetch (line 218); each is
    filed under the number of its request. [network] lists every call
    issued, [console] the error lines, [replies] what each request got: a
    response, or the exception its handler let escape. *)
Record Worker : Type := {
  MODEL_PROVIDER_MAP : option Map;
  building : list (nat * (Request * Build));
  parsing : list (nat * Request);
  forwarding : list (nat * json);
  network : list Fetch;
  console : list string;
  replies : list (nat * completion Response)
}.

(** A fresh isolate (line 76: [let MODEL_PROVIDER_MAP = null]). *)
Definition cold_start : Worker :=
  {| MODEL_PROVIDER_MAP := None; building := []; parsing := []; forwarding := [];
     network := []; console := []; replies := [] |}.

Definition reply (rid : nat) (r : completion Response) (w : Worker) : Worker :=
  {| MODEL_PROVIDER_MAP := MODEL_PROVIDER_MAP w; building := building w;
     parsing := parsing w; forwarding := forwarding w; network := network w;
     console := console w; replies := (replies w ++ [(rid, r)])%list |}.

(** Lines 147-165: the routing of [fetch], after the builder was awaited. *)
Definition route (rid : nat) (request : Request) (w : Worker) : Worker :=
  if pathname request =? "/v1/models" then
    reply rid (handleModelsRequest (MODEL_PROVIDER_MAP w)) w
  else if pathname request =? "/v1/chat/completions" then
    match chat_checks request with
    | Some r => reply rid r w
    | None =>
        {| MODEL_PROVIDER_MAP := MODEL_PROVIDER_MAP w; building := building w;
           parsing := (rid, request) :: parsing w; forwarding := forwarding w;
           network := network w; console := console w; replies := replies w |}
    end
  else if pathname request =? "/" then reply rid handleGuiRequest w
  else
    reply rid
      (new_Response (TextBody "🚫 404 未找到。请访问根路径 `/` 以获取交互式界面。")
                    404 EmptyString []) w.

(** The builder returns (line 128) and the handler that awaited it goes on. *)
Definition build_done (rid : nat) (request : Request) (b : Build)
    (others : list (nat * (Request * Build))) (w : Worker) : Worker :=
  route rid request
    {| MODEL_PROVIDER_MAP := Some (map b); building := others;
       parsing := parsing w; forwarding := forwarding w; network := network w;
       console := console w; replies := replies w |}.

(** Lines 138-146: a request enters [fetch]. While the global is [null] the
    builder is started: its callbacks issue their calls, and the handler
    waits for it unless no call is pending. *)
Definition arrive (registry : list (string * ProviderConfig))
    (rid : nat) (request : Request) (w : Worker) : Worker :=
  match MODEL_PROVIDER_MAP w with
  | None =>
      let (b, calls) := start_tasks registry new_build in
      let w1 :=
        {| MODEL_PROVIDER_MAP := None; building := building w;
           parsing := parsing w; forwarding := forwarding w;
           network := (network w ++ calls)%list;
           console := console w; replies := replies w |} in
      match pending b with
      | [] => build_done rid request b (building w1) w1
      | _ :: _ =>
          {| MODEL_PROVIDER_MAP := None; building := (rid, (request, b)) :: building w1;
             parsing := parsing w1; forwarding := forwarding w1; network := network w1;
             console := console w1; replies := replies w1 |}
      end
  | Some _ => route rid request w
  end.

(** What the environment does to the isolate: it delivers request [rid];
    it settles the discovery call for provider [pid] of the build that
    request [rid] started; it settles the body read of request [rid]; it
    settles the upstream fetch of request [rid]. *)
Inductive event : Type :=
| Arrives (rid : nat) (request : Request)
| DiscoverySettles (rid : nat) (pid : string) (o : fetch_outcome)
| BodyParsed (rid : nat)
| UpstreamSettles (rid : nat) (o : upstream_outcome).

Definition step (registry : list (string * ProviderConfig)) (w : Worker) (e : event) : Worker :=
  match e with
  | Arrives rid request => arrive registry rid request w
  | DiscoverySettles rid pid o =>
      match take_entry Nat.eqb rid (building w) with
      | None => w
      | Some ((request, b), others) =>
          let (b', lines) := build_settle pid o b in
          let w1 :=
            {| MODEL_PROVIDER_MAP := MODEL_PROVIDER_MAP w; building := building w;
               parsing := parsing w; forwarding := forwarding w; network := network w;
               console := (console w ++ lines)%list; replies := replies w |} in
          match pending b' with
          | [] => build_done rid request b' others w1
          | _ :: _ =>
              {| MODEL_PROVIDER_MAP := MODEL_PROVIDER_MAP w1;
                 building := (rid, (request, b')) :: others;
                 parsing := parsing w1; forwarding := forwarding w1; network := network w1;
                 console := console w1; replies := replies w1 |}
          end
      end
  | BodyParsed rid =>
      match take_entry Nat.eqb rid (parsing w) with
      | None => w
      | Some (request, others) =>
          let w1 :=
            {| MODEL_PROVIDER_MAP := MODEL_PROVIDER_MAP w; building := building w;
               parsing := others; forwarding := forwarding w; network := network w;
               console := console w; replies := replies w |} in
          match chat_resolve (MODEL_PROVIDER_MAP w) request with
          | Throw e => reply rid (Throw e) w1
          | Normal (inl r) => reply rid (Normal r) w1
          | Normal (inr (modelId, upstreamRequest)) =>
              {| MODEL_PROVIDER_MAP := MODEL_PROVIDER_MAP w1; building := building w1;
                 parsing := parsing w1; forwarding := (rid, modelId) :: forwarding w1;
                 network := (network w1 ++ [upstreamRequest])%list;
                 console := console w1; replies := replies w1 |}
          end
      end
  | UpstreamSettles rid o =>
      match take_entry Nat.eqb rid (forwarding w) with
      | None => w
      | Some (modelId, others) =>
          reply rid (chat_relay modelId o)
            {| MODEL_PROVIDER_MAP := MODEL_PROVIDER_MAP w; building := building w;
               parsing := parsing w; forwarding := others; network := network w;
               console := console w; replies := replies w |}
      end
  end.

Definition run (registry : list (string * ProviderConfig)) (trace : list event) (w : Worker) : Worker :=
  fold_left (step registry) trace w.

(** The number of runs of the builder in flight. *)
Definition builds_in_flight (w : Worker) : nat := List.length (building w).


(** ** The normaliser as the specification describes it

    Three shapes in priority order: a bare array (the [id] of each entry,
    else its [name]), an object with a [data] array (the [id]), an object
    with a [models] array (the [name]); an entry without the field is
    dropped and any other shape gives the empty list. An entry has a field
    when its value there is truthy. *)

Definition field_of (entry : json) (p : string) : option json :=
  match entry with
  | JObj members => own_property members p
  | _ => None
  end.

Fixpoint first_present (fields : list string) (entry : json) : option json :=
  match fields with
  | [] => None
  | p :: rest =>
      if truthy (field_of entry p) then field_of entry p else first_present rest entry
  end.

Definition extract (fields : list string) (entries : list json) : list json :=
  flat_map (fun entry => match first_present fields entry with
                         | Some v => [v]
                         | None => []
                         end) entries.

Definition spec_models (data : json) : list json :=
  match data with
  | JArr entries => extract ["id"; "name"] entries
  | JObj members =>
      match own_property members "data" with
      | Some (JArr entries) => extract ["id"] entries
      | _ =>
          match own_property members "models" with
          | Some (JArr entries) => extract ["name"] entries
          | _ => []
          end
      end
  | _ => []
  end.

(** The entries the matching shape selects. *)
Definition selected_entries (data : json) : list json :=
  match data with
  | JArr entries => entries
  | JObj members =>
      match own_property members "data" with
      | Some (JArr entries) => entries
      | _ => elements_of (own_property members "models")
      end
  | _ => []
  end.

Definition is_null (v : json) : bool :=
  match v with
  | JNull => true
  | _ => false
  end.

(** The payload is [null], or one of the selected entries is. *)
Definition reads_null (data : json) : bool :=
  is_null data || existsb is_null (selected_entries data).


(** ** Static and dynamic providers *)

(** The first branch of the callback (line 89). *)
Definition is_static (config : ProviderConfig) : bool :=
  match models config with
  | Some _ => negb (truthy_string (modelsPath config))
  | None => false
  end.

(** The second branch (line 97). *)
Definition is_dynamic (config : ProviderConfig) : bool :=
  truthy_string (modelsPath config).

Definition static_ids (config : ProviderConfig) : list json :=
  if is_static config then List.map JStr (match models config with Some ids => ids | None => [] end)
  else [].

(** The registrations of the static providers, in the order of the entries. *)
Definition register_static (entries : list (string * ProviderConfig)) (m : Map) : Map :=
  fold_left (fun acc (entry : string * ProviderConfig) =>
               register (fst entry) (snd entry) (static_ids (snd entry)) acc) entries m.

Definition dynamic_entries (entries : list (string * ProviderConfig)) : list (string * ProviderConfig) :=
  List.filter (fun entry => is_dynamic (snd entry)) entries.

Definition calls_of (entries : list (string * ProviderConfig)) : list Fetch :=
  flat_map (fun entry : string * ProviderConfig =>
              match modelsPath (snd entry) with
              | Some path => [discovery_request (snd entry) path]
              | None => []
              end) entries.

(** The registry without provider [pid]. *)
Definition without (pid : string) (entries : list (string * ProviderConfig)) : list (string * ProviderConfig) :=
  List.filter (fun entry => negb (fst entry =? pid)) entries.

(** Every entry of the table is copied from the descriptor its [providerId] names. *)
Definition copied_from (registry : list (string * ProviderConfig)) (m : Map) : Prop :=
  forall id info, In (id, info) m ->
    exists config, In (providerId info, config) registry
                   /\ info = info_of (providerId info) config.


(** A run of the builder is sound for a registry: its table is copied from
    it and the calls it waits for are calls of its providers. *)
Definition build_ok (registry : list (string * ProviderConfig)) (b : Build) : Prop :=
  copied_from registry (map b) /\ incl (pending b) registry.


(** The discovery call itself fails: the fetch rejects or the status is no
    success. *)
Definition fetch_fails (o : fetch_outcome) : bool :=
  match o with
  | FetchRejected _ => true
  | FetchResponse status _ => negb (response_ok status)
  end.


(** The bearer credential is presented: [Authorization] is exactly
    [Bearer] and the key. *)
Definition authorized (request : Request) : Prop :=
  headers_get (headers request) "Authorization" = Some ("Bearer " ++ WORKER_API_KEY).

(** A plain-text response of the gateway. *)
Definition plain (st : Z) (text : string) : Response :=
  {| status := st; statusText := EmptyString; response_headers := [];
     response_body := TextBody text |}.


(** ** The tables an isolate installs *)

(** Every answer of [schedule] is a discovery event of [trace]. *)
Definition settled_by (trace : list event) (schedule : list (string * fetch_outcome)) : Prop :=
  forall pid o, In (pid, o) schedule -> exists rid, In (DiscoverySettles rid pid o) trace.

(** [b] is a run of the builder that the answers of [schedule] have
    reached, each call answered once and none of the answered still
    pending. *)
Definition run_of (registry : list (string * ProviderConfig))
    (schedule : list (string * fetch_outcome)) (b : Build) : Prop :=
  NoDup (List.map fst schedule)
  /\ fst (settle_in_order schedule (fst (start_tasks registry new_build))) = b
  /\ NoDup (List.map fst (pending b))
  /\ forall pid, In pid (List.map fst schedule) -> ~ In pid (List.map fst (pending b)).

(** The invariant of the isolate after [trace]: its table, once set, is
    what the builder alone returns for answers drawn from the trace, and
    each run in flight is such a run with a call still pending. *)
Definition worker_ok (registry : list (string * ProviderConfig)) (trace : list event)
    (w : Worker) : Prop :=
  (forall m, MODEL_PROVIDER_MAP w = Some m ->
     exists schedule,
       NoDup (List.map fst schedule) /\ settled_by trace schedule
       /\ buildModelProviderMap registry schedule = Some m)
  /\ (forall rid request b, In (rid, (request, b)) (building w) ->
        pending b <> []
        /\ exists schedule, settled_by trace schedule /\ run_of registry schedule b).


(** The request passes the four checks of the dispatcher against table
    [m]: [v] is its parsed body, [id] its model and [info] the entry of
    [id]. *)
Definition dispatched (m : Map) (request : Request) (v id : json) (info : providerInfo) : Prop :=
  method request = "POST" /\ authorized request
  /\ body request = Normal v /\ field_of v "model" = Some id /\ truthy (Some id) = true
  /\ Map_get m id = Some info.

(** The 502 of the gateway for model [id] and error [e] (line 229), [id]
    being one that converts to text, as every key of the table does. *)
Definition bad_gateway (id : json) (e : js_error) : Response :=
  plain 502 ("上游 API 请求失败 (模型 '" ++ printed id ++ "'): " ++ error_message e).

(** The status is one that [new Response] takes. *)
Definition relayable (st : Z) : Prop := (200 <= st <= 599)%Z.


(** ** Requests and their replies *)

(** Who waits and who was answered after [trace]: every handler in flight
    belongs to a request that arrived, the handlers suspended in the chat
    handler to chat requests; every reply belongs to a request that
    arrived, is not the 503 of the catalog handler, and is the catalog of
    some table when the request asked for the catalog. *)
Definition trace_ok (trace : list event) (w : Worker) : Prop :=
  (forall rid request b, In (rid, (request, b)) (building w) ->
     In (Arrives rid request) trace)
  /\ (forall rid request, In (rid, request) (parsing w) ->
        In (Arrives rid request) trace /\ pathname request = "/v1/chat/completions")
  /\ (forall rid id, In (rid, id) (forwarding w) ->
        exists request, In (Arrives rid request) trace
                        /\ pathname request = "/v1/chat/completions")
  /\ (forall rid r, In (rid, r) (replies w) ->
        r <> handleModelsRequest None
        /\ exists request, In (Arrives rid request) trace
             /\ (pathname request = "/v1/models" ->
                 exists m, r = handleModelsRequest (Some m))).


(** ** Further notions of the table and the builder *)

(** No key of the table is the key of a later entry. *)
Fixpoint keys_distinct (m : Map) : Prop :=
  match m with
  | [] => True
  | (k, _) :: rest =>
      (forall k' v, In (k', v) rest -> same_value_zero k k' = false) /\ keys_distinct rest
  end.

(** Provider [pid] emits [id]: its static list holds it, or its discovery
    call settled with a list that holds it. *)
Definition lists (registry : list (string * ProviderConfig))
    (schedule : list (string * fetch_outcome)) (pid : string) (id : json) : Prop :=
  exists config,
    In (pid, config) registry
    /\ (In id (static_ids config)
        \/ (is_dynamic config = true
            /\ exists o found, In (pid, o) schedule /\ discover o = Normal found
                               /\ In id found)).

(** The console of a run of the builder on its own. *)
Definition build_console (registry : list (string * ProviderConfig))
    (schedule : list (string * fetch_outcome)) : list string :=
  snd (settle_in_order schedule (fst (start_tasks registry new_build))).

(** The line of the [catch] for a settled call: none when the discovery
    gave a list. *)
Definition error_line (answer : string * fetch_outcome) : list string :=
  match discover (snd answer) with
  | Normal _ => []
  | Throw error =>
      ["获取提供商 '" ++ fst answer ++ "' 的模型列表失败: " ++ error_message error]
  end.


(** ** Further notions of the isolate *)

(** The discovery calls of the build of request [rid] settle in the order
    of [schedule]. *)
Definition settles (rid : nat) (schedule : list (string * fetch_outcome)) : list event :=
  List.map (fun answer : string * fetch_outcome =>
              DiscoverySettles rid (fst answer) (snd answer)) schedule.

(** [call] is the upstream request of a chat for an entry of table [m]. *)
Definition upstream_call_of (m : Map) (call : Fetch) : Prop :=
  exists id info v, Map_get m id = Some info /\ call = upstream_request info v.

(** The exception [e] that a chat request lets escape: that of its body
    read, the TypeError of reading [model] of its [null] body, or the
    TypeError of converting to text its [model], an array or an object. *)
Definition escape_of (request : Request) (e : js_error) : Prop :=
  body request = Throw e
  \/ (body request = Normal JNull /\ e = NullReadError "model")
  \/ (exists v id,
        body request = Normal v /\ field_of v "model" = Some id
        /\ (isArray (Some id) = true \/ exists members, id = JObj members)
        /\ js_to_string id = Throw e /\ e = ConversionError).

(** The model ids of the handlers that wait for their upstream call convert
    to text. *)
Definition converts (waiting : list (nat * json)) : Prop :=
  forall rid id, In (rid, id) waiting -> js_to_string id = Normal (printed id).

(** What is known of the handlers suspended in the chat handler and of the
    exceptions that escaped: a handler reads a body only once the table is
    set and its request passed the first two checks; the model of a
    handler that waits for its upstream call converts to text; an
    exception that escaped is one of an authorized POST to the chat
    route. *)
Definition escapes_ok (trace : list event) (w : Worker) : Prop :=
  (MODEL_PROVIDER_MAP w = None -> parsing w = [])
  /\ (forall rid request, In (rid, request) (parsing w) -> chat_checks request = None)
  /\ converts (forwarding w)
  /\ (forall rid e, In (rid, Throw e) (replies w) ->
        exists request,
          In (Arrives rid request) trace
          /\ pathname request = "/v1/chat/completions"
          /\ method request = "POST" /\ authorized request
          /\ escape_of request e).

End Gateway.

(** * Sample inputs *)

Section Samples.
#[local] Existing Instance text_engine.

(** One answer for each of the seven discovery calls of the script's
    registry: three lists of models, the three known shapes, and four
    failures (a 503, a rejected fetch, a body that is no JSON, the payload
    [null]). *)
Definition sample_schedule : list (string * fetch_outcome) := [
  ("gemini",
   FetchResponse 200 (Normal (JObj [("data", JArr [JObj [("id", JStr "gemini-pro")]])])));
  ("anondrop.net", FetchResponse 503 (Normal (JObj [])));
  ("gpt4free.pro", FetchRejected "connection refused");
  ("grok", FetchResponse 200 (Throw (BodyError "Unexpected token < in JSON")));
  ("pollinations.ai",
   FetchResponse 200 (Normal (JArr [JObj [("id", JStr "openai")];
                                    JObj [("name", JStr "mistral")]])));
  ("ollama",
   FetchResponse 200 (Normal (JObj [("models", JArr [JObj [("name", JStr "llama3")]])])));
  ("huggingface", FetchResponse 200 (Normal JNull))
].

(** The table the sample answers give. *)
Definition sample_table : Map := [
  (JStr "gpt-5-mini",
   {| providerId := "api.airforce"; info_upstreamHost := "api.airforce";
      info_chatPath := "/v1/chat/completions" |});
  (JStr "gpt-4o-mini",
   {| providerId := "api.airforce"; info_upstreamHost := "api.airforce";
      info_chatPath := "/v1/chat/completions" |});
  (JStr "gemini-pro",
   {| providerId := "gemini"; info_upstreamHost := "g4f.dev";
      info_chatPath := "/api/gemini/chat/completions" |});
  (JStr "openai",
   {| providerId := "pollinations.ai"; info_upstreamHost := "g4f.dev";
      info_chatPath := "/api/pollinations.ai/chat/completions" |});
  (JStr "mistral",
   {| providerId := "pollinations.ai"; info_upstreamHost := "g4f.dev";
      info_chatPath := "/api/pollinations.ai/chat/completions" |});
  (JStr "llama3",
   {| providerId := "ollama"; info_upstreamHost := "g4f.dev";
      info_chatPath := "/api/ollama/chat/completions" |})
].

(** Answers in which [anondrop.net] lists a model that the static list of
    [api.airforce] holds too; every other call is rejected. *)
Definition collision_schedule : list (string * fetch_outcome) := [
  ("anondrop.net",
   FetchResponse 200 (Normal (JObj [("data", JArr [JObj [("id", JStr "gpt-4o-mini")]])])));
  ("gpt4free.pro", FetchRejected "connection refused");
  ("gemini", FetchRejected "connection refused");
  ("grok", FetchRejected "connection refused");
  ("pollinations.ai", FetchRejected "connection refused");
  ("ollama", FetchRejected "connection refused");
  ("huggingface", FetchRejected "connection refused")
].

(** A request for the catalog, with no body to parse. *)
Definition models_request : Request :=
  {| method := "GET"; pathname := "/v1/models"; headers := [("accept", "*/*")];
     body := Throw (BodyError "Unexpected end of JSON input") |}.

(** An authorized chat request with body [body]. *)
Definition chat_request (body : completion json) : Request :=
  {| method := "POST"; pathname := "/v1/chat/completions";
     headers := [("content-type", "application/json"); ("authorization", "Bearer 1");
                 ("cookie", "session=42")];
     body := body |}.

Definition llama_body : json :=
  JObj [("model", JStr "llama3");
        ("messages", JArr [JObj [("role", JStr "user"); ("content", JStr "hi")]]);
        ("stream", JBool true)].

(** A body that has a member twice, one whose second key is an array
    index, and one whose [model] is an object with a [toString] member. *)
Definition repeated_body : json :=
  JObj [("model", JStr "llama3"); ("stream", JBool false); ("stream", JBool true)].

Definition indexed_body : json :=
  JObj [("model", JStr "llama3"); ("7", JBool true)].

Definition unprintable_body : json :=
  JObj [("model", JObj [("toString", JStr "x")])].

(** A cold start: a first request, then the seven sample answers. *)
Definition sample_trace : list event :=
  Arrives 1 models_request
  :: List.map (fun answer : string * fetch_outcome =>
                 DiscoverySettles 1 (fst answer) (snd answer)) sample_schedule.

(** A registry of one dynamic provider. *)
Definition lonely_registry : list (string * ProviderConfig) := [
  ("anondrop.net",
   {| name := "AnonDrop"; upstreamHost := "anondrop.net";
      models := None; modelsPath := Some "/v1/models";
      chatPath := "/v1/chat/completions" |})
].

(** An upstream answer with an event stream. *)
Definition upstream_stream (st : Z) : Response :=
  {| status := st; statusText := "OK";
     response_headers := [("content-type", "text/event-stream; charset=utf-8");
                          ("set-cookie", "id=1")];
     response_body := StreamBody (Some ["data: {}"; "data: [DONE]"]) |}.


(** The table the colliding answers give: the second static id has gone
    over to [anondrop.net]. *)
Definition collision_table : Map := [
  (JStr "gpt-5-mini",
   {| providerId := "api.airforce"; info_upstreamHost := "api.airforce";
      info_chatPath := "/v1/chat/completions" |});
  (JStr "gpt-4o-mini",
   {| providerId := "anondrop.net"; info_upstreamHost := "anondrop.net";
      info_chatPath := "/v1/chat/completions" |})
].

(** Two static providers that share a model. *)
Definition first_static : ProviderConfig :=
  {| name := "First"; upstreamHost := "first.example"; models := Some ["shared"];
     modelsPath := None; chatPath := "/chat" |}.

Definition second_static : ProviderConfig :=
  {| name := "Second"; upstreamHost := "second.example"; models := Some ["shared"; "own"];
     modelsPath := None; chatPath := "/v1/chat" |}.

Definition ollama_config : ProviderConfig :=
  {| name := "Ollama (via g4f)"; upstreamHost := "g4f.dev";
     models := None; modelsPath := Some "/api/ollama/models";
     chatPath := "/api/ollama/chat/completions" |}.

Definition anondrop_config : ProviderConfig :=
  {| name := "AnonDrop"; upstreamHost := "anondrop.net";
     models := None; modelsPath := Some "/v1/models";
     chatPath := "/v1/chat/completions" |}.

(** After the sample cold start: an authorized chat whose body is no JSON. *)
Definition broken_chat_trace : list event :=
  (sample_trace
   ++ [Arrives 2 (chat_request (Throw (BodyError "Unexpected token h in JSON")));
       BodyParsed 2])%list.

(** After the sample cold start: a chat for [llama3], answered upstream. *)
Definition chat_events : list event := [
  Arrives 2 (chat_request (Normal llama_body));
  BodyParsed 2;
  UpstreamSettles 2 (UpstreamResponse (upstream_stream 200))
].

End Samples.

(** * Properties *)

Section Properties.
Context {E : Engine}.

(** ** The normaliser *)

Lemma get_property_field (m : json) (p : string) :
  is_null m = false -> get_property m p = Normal (field_of m p).
Proof. destruct m; simpl; intros H; try reflexivity; discriminate H. Qed.

Lemma array_map_total {A B} (f : A -> completion B) (g : A -> B) (l : list A) :
  (forall x, In x l -> f x = Normal (g x)) ->
  array_map f l = Normal (List.map g l).
Proof.
  induction l as [|x l IH]; simpl; intros H; [reflexivity|].
  rewrite (H x (or_introl eq_refl)). simpl.
  rewrite IH by (intros y Hy; apply H; right; exact Hy). reflexivity.
Qed.

Lemma no_null_entry (l : list json) :
  existsb is_null l = false -> forall m, In m l -> is_null m = false.
Proof.
  intros H m Hm. destruct (is_null m) eqn:Hn; [|reflexivity].
  assert (existsb is_null l = true) by (apply existsb_exists; exists m; auto).
  congruence.
Qed.

Lemma filter_Boolean_flat_map {A} (g : A -> option json) (l : list A) :
  filter_Boolean (List.map g l) = flat_map (fun m => filter_Boolean [g m]) l.
Proof.
  induction l as [|m l IH]; [reflexivity|].
  cbn [List.map flat_map]. rewrite <- IH.
  destruct (g m) as [v|]; cbn [filter_Boolean]; [|reflexivity].
  destruct (truthy (Some v)); reflexivity.
Qed.

Lemma keep_one_field (p : string) (m : json) :
  filter_Boolean [field_of m p]
  = match first_present [p] m with Some v => [v] | None => [] end.
Proof.
  cbn [first_present].
  destruct (field_of m p) as [v|]; cbn [filter_Boolean]; [|reflexivity].
  destruct (truthy (Some v)); reflexivity.
Qed.

Lemma keep_id_or_name (m : json) :
  filter_Boolean [if truthy (field_of m "id") then field_of m "id" else field_of m "name"]
  = match first_present ["id"; "name"] m with Some v => [v] | None => [] end.
Proof.
  cbn [first_present].
  destruct (truthy (field_of m "id")) eqn:Hid.
  - destruct (field_of m "id") as [v|]; [|discriminate Hid].
    cbn [filter_Boolean]. rewrite Hid. reflexivity.
  - destruct (field_of m "name") as [v|]; [|reflexivity].
    cbn [filter_Boolean]. destruct (truthy (Some v)); reflexivity.
Qed.

Lemma id_or_name_field (m : json) :
  is_null m = false ->
  id_or_name m
  = Normal (if truthy (field_of m "id") then field_of m "id" else field_of m "name").
Proof.
  intros H. unfold id_or_name. rewrite (get_property_field m "id" H). cbn [bind].
  destruct (truthy (field_of m "id")); [reflexivity|].
  apply get_property_field, H.
Qed.

Lemma normalize_array (entries : list json) :
  existsb is_null entries = false ->
  normalizeModelList (JArr entries) = Normal (extract ["id"; "name"] entries).
Proof.
  intros H. unfold normalizeModelList. simpl.
  rewrite (array_map_total id_or_name
             (fun m => if truthy (field_of m "id") then field_of m "id" else field_of m "name")).
  - simpl. rewrite filter_Boolean_flat_map. unfold extract. f_equal.
    apply flat_map_ext. intros m. apply keep_id_or_name.
  - intros m Hm. apply id_or_name_field. eapply no_null_entry; eauto.
Qed.

Lemma normalize_field (p : string) (entries : list json) :
  existsb is_null entries = false ->
  (found <- array_map (fun m => get_property m p) entries ;; Normal (filter_Boolean found))
  = Normal (extract [p] entries).
Proof.
  intros H.
  rewrite (array_map_total (fun m => get_property m p) (fun m => field_of m p)).
  - simpl. rewrite filter_Boolean_flat_map. unfold extract. f_equal.
    apply flat_map_ext. intros m. apply keep_one_field.
  - intros m Hm. apply get_property_field. eapply no_null_entry; eauto.
Qed.

Lemma array_map_null {A} (f : json -> completion A) (p : string) (entries : list json) :
  (forall m, f m = Throw (NullReadError p) \/ (is_null m = false /\ exists a, f m = Normal a)) ->
  existsb is_null entries = true ->
  array_map f entries = Throw (NullReadError p).
Proof.
  intros Hf. induction entries as [|m l IH]; simpl; intros H; [discriminate H|].
  destruct (Hf m) as [Hm|[Hn [a Ha]]].
  - rewrite Hm. reflexivity.
  - rewrite Ha, Hn in *. simpl in *. rewrite (IH H). reflexivity.
Qed.

Lemma truthy_isArray (v : option json) : truthy v && isArray v = isArray v.
Proof. destruct v as [[]|]; cbn [isArray]; try apply andb_false_r; reflexivity. Qed.

(** With no [null] in sight the code computes what the specification says. *)
Lemma normalize_refines (data : json) :
  reads_null data = false -> normalizeModelList data = Normal (spec_models data).
Proof.
  unfold reads_null. intros H. apply orb_false_elim in H as [Hd Hl].
  destruct data as [| b | n | s | entries | members]; try discriminate Hd; try reflexivity.
  - apply normalize_array, Hl.
  - unfold normalizeModelList. cbn [isArray get_property bind].
    rewrite !truthy_isArray. cbn [selected_entries spec_models] in *.
    destruct (own_property members "data") as [[| | | | l |]|] eqn:Hdata;
      cbn [isArray elements_of];
      try (apply normalize_field; exact Hl);
      destruct (own_property members "models") as [[| | | | l' |]|] eqn:Hmodels;
      cbn [isArray elements_of bind]; try reflexivity;
      apply normalize_field; exact Hl.
Qed.

(** A [null] payload or a [null] entry makes the property read throw. *)
Lemma normalize_throws (data : json) :
  reads_null data = true -> exists p, normalizeModelList data = Throw (NullReadError p).
Proof.
  unfold reads_null. intros H.
  destruct data as [| b | n | s | entries | members]; try discriminate H.
  - exists "data". reflexivity.
  - exists "id". unfold normalizeModelList. cbn [isArray elements_of].
    rewrite (array_map_null id_or_name "id"); [reflexivity| |exact H].
    intros m. destruct m; try (right; split; [reflexivity|]); try (left; reflexivity);
      try (eexists; rewrite id_or_name_field by reflexivity; reflexivity).
  - cbn [is_null orb selected_entries] in H.
    unfold normalizeModelList. cbn [isArray get_property bind].
    rewrite !truthy_isArray.
    assert (Hfield : forall p m, get_property m p = Throw (NullReadError p)
                       \/ (is_null m = false /\ exists a, get_property m p = Normal a)).
    { intros p m. destruct m; try (left; reflexivity);
        right; split; try reflexivity; eexists; reflexivity. }
    destruct (own_property members "data") as [[| | | | l |]|] eqn:Hdata;
      cbn [isArray elements_of] in *;
      try (exists "id"; rewrite (array_map_null _ "id" l (Hfield "id") H); reflexivity);
      destruct (own_property members "models") as [[| | | | l' |]|] eqn:Hmodels;
      cbn [isArray elements_of bind existsb] in *; try discriminate H;
      exists "name"; rewrite (array_map_null _ "name" l' (Hfield "name") H); reflexivity.
Qed.



(** ** The routing table *)

Lemma Map_set_entries (k : json) (v : providerInfo) (m : Map) (id : json) (info : providerInfo) :
  In (id, info) (Map_set k v m) -> In (id, info) m \/ info = v.
Proof.
  induction m as [|[k' v'] rest IH]; simpl.
  - intros [H|[]]. right. congruence.
  - destruct (same_value_zero k' k).
    + intros [H|H]; [right; congruence|left; right; exact H].
    + intros [H|H]; [left; left; exact H|].
      destruct (IH H) as [H'|H']; [left; right; exact H'|right; exact H'].
Qed.

Lemma register_entries (pid : string) (config : ProviderConfig) (ids : list json) (m : Map)
    (id : json) (info : providerInfo) :
  In (id, info) (register pid config ids m) ->
  In (id, info) m \/ (ids <> [] /\ info = info_of pid config).
Proof.
  unfold register. revert m.
  induction ids as [|k ids IH]; simpl; intros m H; [left; exact H|].
  destruct (IH _ H) as [H'|[_ H']].
  - destruct (Map_set_entries _ _ _ _ _ H') as [H''|H''];
      [left; exact H''|right; split; [discriminate|exact H'']].
  - right. split; [discriminate|exact H'].
Qed.

(** ** The builder: how it starts *)

Lemma task_start_spec (pid : string) (config : ProviderConfig) (m : Map) :
  task_start pid config m
  = (register pid config (static_ids config) m,
     if is_dynamic config
     then match modelsPath config with
          | Some path => Some (discovery_request config path)
          | None => None
          end
     else None).
Proof.
  unfold task_start, static_ids, is_static, is_dynamic.
  destruct (models config) as [ids|]; destruct (modelsPath config) as [path|];
    cbn [truthy_string]; try destruct (negb (path =? EmptyString)); reflexivity.
Qed.

Lemma is_dynamic_path (config : ProviderConfig) :
  is_dynamic config = true -> exists path, modelsPath config = Some path.
Proof.
  unfold is_dynamic. destruct (modelsPath config) as [path|]; [eauto|discriminate].
Qed.

Lemma start_tasks_spec (entries : list (string * ProviderConfig)) (b : Build) :
  start_tasks entries b
  = ({| map := register_static entries (map b);
        pending := (pending b ++ dynamic_entries entries)%list |},
     calls_of (dynamic_entries entries)).
Proof.
  revert b. induction entries as [|[pid config] rest IH]; intros b.
  - simpl. rewrite app_nil_r. destruct b; reflexivity.
  - cbn [start_tasks]. rewrite task_start_spec.
    unfold dynamic_entries, register_static in *. cbn [List.filter fold_left fst snd].
    destruct (is_dynamic config) eqn:Hd.
    + destruct (is_dynamic_path config Hd) as [path Hp]. rewrite Hp.
      rewrite IH. cbn [map pending calls_of flat_map snd app]. rewrite Hp.
      rewrite <- app_assoc. reflexivity.
    + rewrite IH. reflexivity.
Qed.


(** ** Association lists *)

Lemma take_entry_split {K A} (eqb : K -> K -> bool) (key : K) (l : list (K * A))
    (a : A) (rest : list (K * A)) :
  take_entry eqb key l = Some (a, rest) ->
  exists l1 k l2,
    l = (l1 ++ (k, a) :: l2)%list /\ rest = (l1 ++ l2)%list /\ eqb k key = true
    /\ forall k' a', In (k', a') l1 -> eqb k' key = false.
Proof.
  revert rest. induction l as [|[k x] l IH]; simpl; intros rest H; [discriminate|].
  destruct (eqb k key) eqn:Hk.
  - inversion H; subst. exists [], k, rest. repeat split; auto. intros ? ? [].
  - destruct (take_entry eqb key l) as [[found rest']|]; [|discriminate].
    inversion H; subst.
    destruct (IH rest' eq_refl) as [l1 [k0 [l2 [-> [-> [Hk0 Hl1]]]]]].
    exists ((k, x) :: l1), k0, l2. repeat split; auto.
    intros k' a' [Heq|Hin]; [inversion Heq; subst; exact Hk|eauto].
Qed.

Lemma take_entry_none {K A} (eqb : K -> K -> bool) (key : K) (l : list (K * A)) :
  take_entry eqb key l = None <-> forall k a, In (k, a) l -> eqb k key = false.
Proof.
  induction l as [|[k x] l IH]; simpl.
  - split; [intros _ ? ? []|reflexivity].
  - destruct (eqb k key) eqn:Hk.
    + split; [discriminate|]. intros H. specialize (H k x (or_introl eq_refl)). congruence.
    + destruct (take_entry eqb key l) as [[found rest']|].
      * split; [discriminate|]. intros H.
        assert (Hn : Some (found, rest') = None)
          by (apply IH; intros k0 a Hin; apply (H k0 a); right; exact Hin).
        discriminate Hn.
      * split; [|reflexivity]. intros _ k0 a [Heq|Hin].
        -- inversion Heq; subst; exact Hk.
        -- apply (proj1 IH eq_refl k0 a Hin).
Qed.

Lemma take_pending_in (pid : string) (p : list (string * ProviderConfig))
    (config : ProviderConfig) (rest : list (string * ProviderConfig)) :
  take_pending pid p = Some (config, rest) ->
  In (pid, config) p /\ incl rest p.
Proof.
  intros H. destruct (take_entry_split _ _ _ _ _ H) as [l1 [k [l2 [-> [-> [Hk _]]]]]].
  apply String.eqb_eq in Hk. subst k. split.
  - apply in_or_app. right. left. reflexivity.
  - intros x Hx. apply in_app_or in Hx as [Hx|Hx]; apply in_or_app; [left|right; right]; exact Hx.
Qed.

(** ** The builder: soundness for the registry *)

Lemma register_copied (registry : list (string * ProviderConfig)) (pid : string)
    (config : ProviderConfig) (ids : list json) (m : Map) :
  In (pid, config) registry -> copied_from registry m ->
  copied_from registry (register pid config ids m).
Proof.
  intros Hin Hm id info H.
  destruct (register_entries _ _ _ _ _ _ H) as [H'|[_ ->]]; [eauto|].
  exists config. split; [exact Hin|reflexivity].
Qed.

Lemma register_static_copied (registry entries : list (string * ProviderConfig)) (m : Map) :
  incl entries registry -> copied_from registry m ->
  copied_from registry (register_static entries m).
Proof.
  unfold register_static. revert m.
  induction entries as [|[pid config] rest IH]; simpl; intros m Hincl Hm; [exact Hm|].
  apply IH.
  - intros x Hx. apply Hincl. right. exact Hx.
  - apply register_copied; [apply Hincl; left; reflexivity|exact Hm].
Qed.

Lemma start_tasks_ok (registry : list (string * ProviderConfig)) :
  build_ok registry (fst (start_tasks registry new_build)).
Proof.
  rewrite start_tasks_spec. split; cbn [fst map pending new_build app].
  - apply register_static_copied; [apply incl_refl|intros ? ? []].
  - unfold dynamic_entries. intros x Hx. apply filter_In in Hx. tauto.
Qed.

Lemma task_settle_copied (registry : list (string * ProviderConfig)) (pid : string)
    (config : ProviderConfig) (o : fetch_outcome) (m : Map) :
  In (pid, config) registry -> copied_from registry m ->
  copied_from registry (fst (task_settle pid config o m)).
Proof.
  intros Hin Hm. unfold task_settle, task_body.
  destruct (discover o) as [found|e]; cbn [bind fst]; [|exact Hm].
  apply register_copied; assumption.
Qed.

Lemma build_settle_ok (registry : list (string * ProviderConfig)) (pid : string)
    (o : fetch_outcome) (b : Build) :
  build_ok registry b -> build_ok registry (fst (build_settle pid o b)).
Proof.
  intros [Hm Hp]. unfold build_settle.
  destruct (take_pending pid (pending b)) as [[config rest]|] eqn:Ht; [|split; assumption].
  destruct (take_pending_in _ _ _ _ Ht) as [Hin Hrest].
  pose proof (task_settle_copied registry pid config o (map b) (Hp _ Hin) Hm) as Hc.
  destruct (task_settle pid config o (map b)) as [m lines]. split; cbn [fst map pending] in *.
  - exact Hc.
  - intros x Hx. apply Hp, Hrest, Hx.
Qed.

Lemma settle_in_order_ok (registry : list (string * ProviderConfig))
    (schedule : list (string * fetch_outcome)) (b : Build) :
  build_ok registry b -> build_ok registry (fst (settle_in_order schedule b)).
Proof.
  revert b. induction schedule as [|[pid o] rest IH]; intros b Hb; [exact Hb|].
  cbn [settle_in_order].
  pose proof (build_settle_ok registry pid o b Hb) as H1.
  destruct (build_settle pid o b) as [b1 lines1]. cbn [fst] in H1.
  specialize (IH b1 H1). destruct (settle_in_order rest b1) as [b2 lines2]. exact IH.
Qed.

(** Whatever the outcomes and their order, a table the builder returns is
    copied from the registry. *)
Lemma built_copied (registry : list (string * ProviderConfig))
    (schedule : list (string * fetch_outcome)) (m : Map) :
  buildModelProviderMap registry schedule = Some m -> copied_from registry m.
Proof.
  unfold buildModelProviderMap. intros H.
  pose proof (settle_in_order_ok registry schedule _ (start_tasks_ok registry)) as [Hm _].
  destruct (pending _); [|discriminate]. inversion H; subst. exact Hm.
Qed.


(** ** The builder: it returns once every call has settled *)

Lemma NoDup_map_filter {A B} (f : A -> B) (p : A -> bool) (l : list A) :
  NoDup (List.map f l) -> NoDup (List.map f (List.filter p l)).
Proof.
  induction l as [|x l IH]; simpl; intros H; [constructor|].
  inversion H as [|? ? Hx Hl]; subst.
  destruct (p x); simpl; [constructor|]; auto.
  intros Hin. apply Hx. apply in_map_iff in Hin as [y [Hy Hin]].
  apply filter_In in Hin as [Hin _]. apply in_map_iff. eauto.
Qed.

Lemma NoDup_keys_unique {A} (l : list (string * A)) (k : string) (a a' : A) :
  NoDup (List.map fst l) -> In (k, a) l -> In (k, a') l -> a = a'.
Proof.
  induction l as [|[k0 a0] l IH]; simpl; intros Hnd H1 H2; [contradiction|].
  inversion Hnd as [|? ? Hk Hl]; subst.
  destruct H1 as [H1|H1], H2 as [H2|H2].
  - congruence.
  - inversion H1; subst. exfalso. apply Hk. apply in_map_iff. exists (k, a'). auto.
  - inversion H2; subst. exfalso. apply Hk. apply in_map_iff. exists (k, a). auto.
  - eauto.
Qed.

Lemma build_settle_pending (pid : string) (o : fetch_outcome) (b : Build) :
  pending (fst (build_settle pid o b))
  = match take_pending pid (pending b) with
    | Some (_, rest) => rest
    | None => pending b
    end.
Proof.
  unfold build_settle. destruct (take_pending pid (pending b)) as [[config rest]|]; [|reflexivity].
  destruct (task_settle pid config o (map b)); reflexivity.
Qed.

Lemma settle_all_pending (schedule : list (string * fetch_outcome)) (b : Build) :
  NoDup (List.map fst (pending b)) ->
  (forall pid config, In (pid, config) (pending b) -> In pid (List.map fst schedule)) ->
  pending (fst (settle_in_order schedule b)) = [].
Proof.
  revert b. induction schedule as [|[q o] rest IH]; intros b Hnd Hall.
  - cbn [settle_in_order fst]. destruct (pending b) as [|[pid config] p]; [reflexivity|].
    destruct (Hall pid config (or_introl eq_refl)).
  - cbn [settle_in_order].
    pose proof (build_settle_pending q o b) as Hp.
    destruct (build_settle q o b) as [b1 lines1]. cbn [fst] in Hp.
    assert (H1 : pending (fst (settle_in_order rest b1)) = []).
    { apply IH; rewrite Hp.
      - destruct (take_pending q (pending b)) as [[config p]|] eqn:Ht; [|exact Hnd].
        destruct (take_entry_split _ _ _ _ _ Ht) as [l1 [k [l2 [Hb [-> _]]]]].
        rewrite Hb, map_app in Hnd. cbn [List.map] in Hnd.
        apply NoDup_remove_1 in Hnd. rewrite map_app. exact Hnd.
      - intros pid config Hin.
        destruct (take_pending q (pending b)) as [[found p]|] eqn:Ht.
        + destruct (take_entry_split _ _ _ _ _ Ht) as [l1 [k [l2 [Hb [-> [Hk _]]]]]].
          apply String.eqb_eq in Hk. subst k.
          assert (Hpid : In (pid, config) (pending b)).
          { rewrite Hb. apply in_app_or in Hin as [Hin|Hin]; apply in_or_app;
              [left|right; right]; exact Hin. }
          destruct (Hall pid config Hpid) as [Heq|Hrest]; [|exact Hrest].
          cbn [fst] in Heq. subst pid. exfalso.
          rewrite Hb, map_app in Hnd. cbn [List.map fst] in Hnd.
          apply NoDup_remove_2 in Hnd. apply Hnd. rewrite <- map_app.
          apply in_map_iff. exists (q, config). auto.
        + destruct (Hall pid config Hin) as [Heq|Hrest]; [|exact Hrest].
          cbn [fst] in Heq. subst pid.
          pose proof (proj1 (take_entry_none _ _ _) Ht q config Hin) as Hq.
          rewrite String.eqb_refl in Hq. discriminate Hq. }
    destruct (settle_in_order rest b1) as [b2 lines2]. exact H1.
Qed.

(** The builder never fails: with distinct provider ids, and every call it
    issued settled one way or another, it returns a table. *)
Lemma build_returns (registry : list (string * ProviderConfig))
    (schedule : list (string * fetch_outcome)) :
  NoDup (List.map fst registry) ->
  (forall pid config, In (pid, config) registry -> is_dynamic config = true ->
     In pid (List.map fst schedule)) ->
  exists m, buildModelProviderMap registry schedule = Some m.
Proof.
  intros Hnd Hall. unfold buildModelProviderMap.
  rewrite settle_all_pending; [eauto| |]; rewrite start_tasks_spec; cbn [fst pending new_build app].
  - apply NoDup_map_filter. exact Hnd.
  - intros pid config Hin. apply filter_In in Hin as [Hin Hd]. eauto.
Qed.


(** ** The builder: where an entry comes from *)

Lemma static_ids_nonempty (config : ProviderConfig) :
  static_ids config <> [] -> is_static config = true.
Proof. unfold static_ids. destruct (is_static config); [reflexivity|congruence]. Qed.

Lemma static_not_dynamic (config : ProviderConfig) :
  is_static config = true -> is_dynamic config = false.
Proof.
  unfold is_static, is_dynamic. destruct (models config); [|discriminate].
  intros H. apply negb_true_iff in H. exact H.
Qed.

Lemma register_static_provenance (entries : list (string * ProviderConfig)) (m : Map)
    (id : json) (info : providerInfo) :
  In (id, info) (register_static entries m) ->
  In (id, info) m
  \/ exists config, In (providerId info, config) entries /\ is_static config = true
                    /\ info = info_of (providerId info) config.
Proof.
  unfold register_static. revert m.
  induction entries as [|[pid config] rest IH]; cbn [fold_left fst snd]; intros m H;
    [left; exact H|].
  destruct (IH _ H) as [H'|[c [Hin [Hs Hi]]]].
  - destruct (register_entries _ _ _ _ _ _ H') as [H''|[Hne ->]]; [left; exact H''|].
    right. exists config. cbn [info_of providerId]. repeat split.
    + left. reflexivity.
    + apply static_ids_nonempty, Hne.
  - right. exists c. repeat split; auto. right. exact Hin.
Qed.

Lemma settle_provenance (schedule : list (string * fetch_outcome)) (b : Build)
    (id : json) (info : providerInfo) :
  In (id, info) (map (fst (settle_in_order schedule b))) ->
  In (id, info) (map b)
  \/ exists config o found,
       In (providerId info, config) (pending b) /\ In (providerId info, o) schedule
       /\ discover o = Normal found /\ info = info_of (providerId info) config.
Proof.
  revert b. induction schedule as [|[q o] rest IH]; intros b; [left; assumption|].
  cbn [settle_in_order].
  destruct (build_settle q o b) as [b1 lines1] eqn:Hb1.
  specialize (IH b1). destruct (settle_in_order rest b1) as [b2 lines2]. cbn [fst] in *.
  intros H. unfold build_settle in Hb1.
  destruct (take_pending q (pending b)) as [[config p]|] eqn:Ht.
  - destruct (take_pending_in _ _ _ _ Ht) as [Hq Hp].
    unfold task_settle, task_body in Hb1.
    destruct (discover o) as [found|e] eqn:Ho; cbn [bind] in Hb1;
      inversion Hb1; subst b1; cbn [map pending] in IH;
      destruct (IH H) as [H'|[c [o' [f' [Hin [Hs [Hd Hi]]]]]]].
    + destruct (register_entries _ _ _ _ _ _ H') as [H''|[_ Hinfo]]; [left; exact H''|].
      right. exists config, o, found. subst info. cbn [info_of providerId].
      repeat split; auto. left. reflexivity.
    + right. exists c, o', f'. repeat split; auto. right. exact Hs.
    + left. exact H'.
    + right. exists c, o', f'. repeat split; auto. right. exact Hs.
  - inversion Hb1; subst b1.
    destruct (IH H) as [H'|[c [o' [f' [Hin [Hs [Hd Hi]]]]]]]; [left; exact H'|].
    right. exists c, o', f'. repeat split; auto. right. exact Hs.
Qed.

(** An entry of a built table belongs to a static provider, or to a
    provider whose discovery call settled with a list of models. *)
Lemma built_provenance (registry : list (string * ProviderConfig))
    (schedule : list (string * fetch_outcome)) (m : Map) (id : json) (info : providerInfo) :
  buildModelProviderMap registry schedule = Some m -> In (id, info) m ->
  exists config,
    In (providerId info, config) registry /\ info = info_of (providerId info) config
    /\ (is_static config = true
        \/ (is_dynamic config = true
            /\ exists o found, In (providerId info, o) schedule /\ discover o = Normal found)).
Proof.
  unfold buildModelProviderMap. intros Hb Hin.
  destruct (pending _); [|discriminate]. inversion Hb; subst m. clear Hb.
  apply settle_provenance in Hin. rewrite start_tasks_spec in Hin.
  cbn [fst map pending new_build app] in Hin.
  destruct Hin as [Hin|[config [o [found [Hp [Hs [Hd Hi]]]]]]].
  - apply register_static_provenance in Hin as [[]|[config [Hc [Hs Hi]]]].
    exists config. auto.
  - unfold dynamic_entries in Hp. apply filter_In in Hp as [Hp Hdyn]. cbn [snd] in Hdyn.
    exists config. repeat split; auto. right. split; [exact Hdyn|]. eauto.
Qed.

(** No entry names a provider whose discovery failed. *)
Lemma failed_provider_absent (registry : list (string * ProviderConfig))
    (schedule : list (string * fetch_outcome)) (m : Map)
    (pid : string) (config : ProviderConfig) (o : fetch_outcome) (e : js_error) :
  NoDup (List.map fst registry) -> NoDup (List.map fst schedule) ->
  In (pid, config) registry -> is_dynamic config = true ->
  In (pid, o) schedule -> discover o = Throw e ->
  buildModelProviderMap registry schedule = Some m ->
  forall id info, In (id, info) m -> providerId info <> pid.
Proof.
  intros Hr Hs Hin Hdyn Ho He Hb id info Hentry Heq.
  destruct (built_provenance _ _ _ _ _ Hb Hentry) as [c [Hc [_ Hkind]]].
  rewrite Heq in *.
  assert (c = config) by (eapply NoDup_keys_unique; eauto). subst c.
  destruct Hkind as [Hst|[_ [o' [found [Ho' Hd]]]]].
  - apply static_not_dynamic in Hst. congruence.
  - assert (o' = o) by (eapply NoDup_keys_unique; eauto). subst o'. congruence.
Qed.


(** ** The builder: a failed provider is an absent provider *)

Lemma take_pending_without_other (pid q : string) (p : list (string * ProviderConfig)) :
  q <> pid ->
  take_pending q (without pid p)
  = match take_pending q p with
    | Some (config, rest) => Some (config, without pid rest)
    | None => None
    end.
Proof.
  intros Hq. unfold take_pending, without.
  induction p as [|[k c] p IH]; [reflexivity|].
  cbn [List.filter take_entry fst].
  destruct (String.eqb_spec k pid) as [->|Hk]; cbn [negb].
  - apply String.eqb_neq in Hq. rewrite String.eqb_sym in Hq. rewrite Hq.
    rewrite IH. destruct (take_entry String.eqb q p) as [[found rest]|]; [|reflexivity].
    cbn [List.filter fst]. rewrite String.eqb_refl. reflexivity.
  - cbn [take_entry]. destruct (k =? q) eqn:Hkq; [reflexivity|].
    rewrite IH. destruct (take_entry String.eqb q p) as [[found rest]|]; [|reflexivity].
    cbn [List.filter fst]. apply String.eqb_neq in Hk. rewrite Hk. reflexivity.
Qed.

Lemma take_pending_without_self (pid : string) (p : list (string * ProviderConfig)) :
  take_pending pid (without pid p) = None.
Proof.
  apply take_entry_none. intros k a Hin. unfold without in Hin.
  apply filter_In in Hin as [_ Hk]. cbn [fst] in Hk. apply negb_true_iff in Hk. exact Hk.
Qed.

Lemma without_taken (pid : string) (p rest : list (string * ProviderConfig))
    (config : ProviderConfig) :
  take_pending pid p = Some (config, rest) -> without pid rest = without pid p.
Proof.
  intros H. destruct (take_entry_split _ _ _ _ _ H) as [l1 [k [l2 [-> [-> [Hk _]]]]]].
  unfold without. rewrite !filter_app. cbn [List.filter fst]. rewrite Hk. reflexivity.
Qed.

Lemma task_settle_fails (pid : string) (config : ProviderConfig) (o : fetch_outcome)
    (m : Map) (e : js_error) :
  discover o = Throw e -> fst (task_settle pid config o m) = m.
Proof. intros H. unfold task_settle, task_body. rewrite H. reflexivity. Qed.

(** C4 (amended). For every JSON value of a model-listing endpoint that is
    not [null] and whose selected array holds no [null] entry, the
    normaliser yields the list the three shapes determine in priority
    order: a bare array gives each entry's [id], else its [name]; an object
    with a [data] array gives each [id]; an object with a [models] array
    gives each [name]; an entry with no truthy value there is dropped, and
    any other shape, [{}] included, gives the empty list. On [null], or on
    a [null] entry, the property read throws a TypeError instead, which
    the [catch] of the provider's callback absorbs: the table stays as it
    was. The three sample payloads give [a, b], [c] and [d]. *)
Theorem normalizer_contract :
  (forall data, reads_null data = false ->
     normalizeModelList data = Normal (spec_models data))
  /\ (forall data, reads_null data = true ->
        (exists p, normalizeModelList data = Throw (NullReadError p))
        /\ forall pid config status m,
             fst (task_settle pid config (FetchResponse status (Normal data)) m) = m)
  /\ normalizeModelList (JArr [JObj [("id", JStr "a")]; JObj [("name", JStr "b")]])
     = Normal [JStr "a"; JStr "b"]
  /\ normalizeModelList (JObj [("data", JArr [JObj [("id", JStr "c")]])])
     = Normal [JStr "c"]
  /\ normalizeModelList (JObj [("models", JArr [JObj [("name", JStr "d")]])])
     = Normal [JStr "d"]
  /\ normalizeModelList (JObj []) = Normal [].
Proof.
  split; [exact normalize_refines|]. split; [|repeat split; reflexivity].
  intros data Hnull. destruct (normalize_throws data Hnull) as [p Hp].
  split; [exists p; exact Hp|]. intros pid config status m.
  assert (Hd : exists e, discover (FetchResponse status (Normal data)) = Throw e).
  { cbn [discover]. destruct (negb (response_ok status)); cbn [bind]; [eauto|].
    rewrite Hp. eauto. }
  destruct Hd as [e He]. exact (task_settle_fails pid config _ m e He).
Qed.

Lemma settle_without (pid : string) (schedule : list (string * fetch_outcome)) (b b' : Build) :
  (forall o, In (pid, o) schedule -> exists e, discover o = Throw e) ->
  map b' = map b -> pending b' = without pid (pending b) ->
  map (fst (settle_in_order schedule b')) = map (fst (settle_in_order schedule b))
  /\ pending (fst (settle_in_order schedule b'))
     = without pid (pending (fst (settle_in_order schedule b))).
Proof.
  revert b b'. induction schedule as [|[q o] rest IH]; intros b b' Hfail Hm Hp;
    [split; assumption|].
  cbn [settle_in_order].
  destruct (build_settle q o b) as [b1 lines1] eqn:H1.
  destruct (build_settle q o b') as [b1' lines1'] eqn:H1'.
  assert (Hstep : map b1' = map b1 /\ pending b1' = without pid (pending b1)).
  { unfold build_settle in H1, H1'. rewrite Hp, Hm in H1'.
    destruct (String.eqb_spec q pid) as [->|Hq].
    - rewrite take_pending_without_self in H1'. inversion H1'; subst b1'.
      destruct (take_pending pid (pending b)) as [[config p]|] eqn:Ht.
      + destruct (Hfail o (or_introl eq_refl)) as [e He].
        pose proof (task_settle_fails pid config o (map b) e He) as Hsame.
        destruct (task_settle pid config o (map b)) as [m lines].
        inversion H1; subst b1. cbn [fst map pending] in *.
        split; [congruence|]. rewrite Hp. symmetry. eapply without_taken; eauto.
      + inversion H1; subst b1. split; assumption.
    - rewrite (take_pending_without_other pid q _ Hq) in H1'.
      destruct (take_pending q (pending b)) as [[config p]|].
      + destruct (task_settle q config o (map b)) as [m lines].
        inversion H1; inversion H1'; subst. split; reflexivity.
      + inversion H1; inversion H1'; subst. split; assumption. }
  destruct Hstep as [Hm1 Hp1].
  assert (Hrest : forall o', In (pid, o') rest -> exists e, discover o' = Throw e)
    by (intros o' Ho'; apply Hfail; right; exact Ho').
  specialize (IH b1 b1' Hrest Hm1 Hp1).
  destruct (settle_in_order rest b1) as [b2 lines2].
  destruct (settle_in_order rest b1') as [b2' lines2']. exact IH.
Qed.

Lemma register_nothing (pid : string) (config : ProviderConfig) (m : Map) :
  register pid config [] m = m.
Proof. reflexivity. Qed.

Lemma register_static_without (pid : string) (entries : list (string * ProviderConfig)) (m : Map) :
  (forall config, In (pid, config) entries -> is_dynamic config = true) ->
  register_static (without pid entries) m = register_static entries m.
Proof.
  unfold register_static, without. revert m.
  induction entries as [|[q c] rest IH]; intros m H; [reflexivity|].
  cbn [List.filter fold_left fst snd].
  destruct (String.eqb_spec q pid) as [->|Hq]; cbn [negb fold_left fst snd].
  - assert (Hc : static_ids c = []).
    { unfold static_ids. destruct (is_static c) eqn:Hs; [|reflexivity].
      apply static_not_dynamic in Hs. rewrite (H c (or_introl eq_refl)) in Hs. discriminate. }
    rewrite Hc, register_nothing. apply IH. intros config Hin. apply H. right. exact Hin.
  - apply IH. intros config Hin. apply H. right. exact Hin.
Qed.

Lemma dynamic_entries_without (pid : string) (entries : list (string * ProviderConfig)) :
  dynamic_entries (without pid entries) = without pid (dynamic_entries entries).
Proof.
  unfold dynamic_entries, without.
  induction entries as [|[q c] rest IH]; [reflexivity|].
  cbn [List.filter fst snd].
  destruct (negb (q =? pid)) eqn:Hq; destruct (is_dynamic c) eqn:Hc;
    cbn [List.filter fst snd]; rewrite ?Hq, ?Hc, IH; reflexivity.
Qed.

(** The table built with a provider whose discovery fails is the table
    built from the registry without that provider. *)
Lemma failed_provider_is_absent (registry : list (string * ProviderConfig))
    (schedule : list (string * fetch_outcome)) (pid : string) (m : Map) :
  (forall config, In (pid, config) registry -> is_dynamic config = true) ->
  (forall o, In (pid, o) schedule -> exists e, discover o = Throw e) ->
  buildModelProviderMap registry schedule = Some m ->
  buildModelProviderMap (without pid registry) schedule = Some m.
Proof.
  intros Hdyn Hfail. unfold buildModelProviderMap.
  destruct (settle_without pid schedule
              (fst (start_tasks registry new_build))
              (fst (start_tasks (without pid registry) new_build)) Hfail) as [Hm Hp].
  - rewrite !start_tasks_spec. cbn [fst map new_build].
    apply register_static_without, Hdyn.
  - rewrite !start_tasks_spec. cbn [fst pending new_build app].
    apply dynamic_entries_without.
  - rewrite Hp, Hm.
    destruct (pending (fst (settle_in_order schedule (fst (start_tasks registry new_build)))));
      [intros H; exact H|discriminate].
Qed.


Lemma fetch_fails_discover (o : fetch_outcome) :
  fetch_fails o = true -> exists e, discover o = Throw e.
Proof.
  destruct o as [message|status parsed]; cbn [fetch_fails discover]; intros H.
  - eauto.
  - rewrite H. eauto.
Qed.

Lemma settle_keeps_unsettled (schedule : list (string * fetch_outcome)) (b : Build)
    (pid : string) (config : ProviderConfig) :
  In (pid, config) (pending b) -> ~ In pid (List.map fst schedule) ->
  In (pid, config) (pending (fst (settle_in_order schedule b))).
Proof.
  revert b. induction schedule as [|[q o] rest IH]; intros b Hin Hnot; [exact Hin|].
  cbn [settle_in_order].
  pose proof (build_settle_pending q o b) as Hp.
  destruct (build_settle q o b) as [b1 lines1]. cbn [fst] in Hp.
  assert (H1 : In (pid, config) (pending (fst (settle_in_order rest b1)))).
  { apply IH; [|intros H; apply Hnot; right; exact H].
    rewrite Hp. destruct (take_pending q (pending b)) as [[found p]|] eqn:Ht; [|exact Hin].
    destruct (take_entry_split _ _ _ _ _ Ht) as [l1 [k [l2 [Hb [-> [Hk _]]]]]].
    apply String.eqb_eq in Hk. subst k. rewrite Hb in Hin.
    apply in_app_or in Hin as [Hin|[Hin|Hin]]; apply in_or_app; [left; exact Hin| |right; exact Hin].
    inversion Hin; subst. exfalso. apply Hnot. left. reflexivity. }
  destruct (settle_in_order rest b1) as [b2 lines2]. exact H1.
Qed.

(** The builder waits: while a call it issued has not settled it does not
    return. *)
Lemma build_waits (registry : list (string * ProviderConfig))
    (schedule : list (string * fetch_outcome)) (pid : string) (config : ProviderConfig) :
  In (pid, config) registry -> is_dynamic config = true ->
  ~ In pid (List.map fst schedule) ->
  buildModelProviderMap registry schedule = None.
Proof.
  intros Hin Hdyn Hnot. unfold buildModelProviderMap.
  assert (H : In (pid, config)
                (pending (fst (settle_in_order schedule (fst (start_tasks registry new_build)))))).
  { apply settle_keeps_unsettled; [|exact Hnot].
    rewrite start_tasks_spec. cbn [fst pending new_build app].
    apply filter_In. split; assumption. }
  destruct (pending _); [destruct H|reflexivity].
Qed.

(** ** String keys of the table *)

Lemma same_value_zero_string (k : json) (s : string) :
  same_value_zero k (JStr s) = true <-> k = JStr s.
Proof.
  destruct k; cbn [same_value_zero]; split; intros H; try discriminate H.
  - apply String.eqb_eq in H. congruence.
  - inversion H. apply String.eqb_refl.
Qed.

Lemma string_same_value_zero (k : json) (s : string) :
  same_value_zero (JStr s) k = true <-> k = JStr s.
Proof.
  destruct k; cbn [same_value_zero]; split; intros H; try discriminate H.
  - apply String.eqb_eq in H. congruence.
  - inversion H. apply String.eqb_refl.
Qed.

Lemma Map_get_set_same (s : string) (v : providerInfo) (m : Map) :
  Map_get (Map_set (JStr s) v m) (JStr s) = Some v.
Proof.
  induction m as [|[k' v'] rest IH]; cbn [Map_set Map_get].
  - cbn [same_value_zero]. rewrite String.eqb_refl. reflexivity.
  - destruct (same_value_zero k' (JStr s)) eqn:Hk; cbn [Map_get]; rewrite Hk; auto.
Qed.

Lemma Map_get_set_other (k : json) (s : string) (v : providerInfo) (m : Map) :
  same_value_zero k (JStr s) = false ->
  Map_get (Map_set k v m) (JStr s) = Map_get m (JStr s).
Proof.
  intros Hk. induction m as [|[k' v'] rest IH]; cbn [Map_set Map_get].
  - rewrite Hk. reflexivity.
  - destruct (same_value_zero k' k) eqn:Hk'; cbn [Map_get].
    + destruct (same_value_zero k' (JStr s)) eqn:Hs; [|reflexivity].
      apply same_value_zero_string in Hs. subst k'.
      apply string_same_value_zero in Hk'. subst k.
      cbn [same_value_zero] in Hk. rewrite String.eqb_refl in Hk. discriminate Hk.
    + rewrite IH. reflexivity.
Qed.

Lemma register_get (pid : string) (config : ProviderConfig) (ids : list json) (s : string) (m : Map) :
  Map_get (register pid config ids m) (JStr s)
  = if existsb (fun k => same_value_zero k (JStr s)) ids
    then Some (info_of pid config) else Map_get m (JStr s).
Proof.
  unfold register. revert m. induction ids as [|k ids IH]; intros m; [reflexivity|].
  cbn [fold_left existsb]. rewrite IH.
  destruct (same_value_zero k (JStr s)) eqn:Hk; cbn [orb].
  - apply same_value_zero_string in Hk. subst k. rewrite Map_get_set_same.
    destruct (existsb _ ids); reflexivity.
  - rewrite Map_get_set_other by exact Hk. reflexivity.
Qed.

Lemma existsb_string (ids : list json) (s : string) :
  existsb (fun k => same_value_zero k (JStr s)) ids = true <-> In (JStr s) ids.
Proof.
  rewrite existsb_exists. split.
  - intros [k [Hin Hk]]. apply same_value_zero_string in Hk. subst k. exact Hin.
  - intros Hin. exists (JStr s). split; [exact Hin|]. apply same_value_zero_string. reflexivity.
Qed.

Lemma register_get_in (pid : string) (config : ProviderConfig) (ids : list json) (s : string) (m : Map) :
  In (JStr s) ids -> Map_get (register pid config ids m) (JStr s) = Some (info_of pid config).
Proof.
  intros H. rewrite register_get. apply existsb_string in H. rewrite H. reflexivity.
Qed.

Lemma register_get_notin (pid : string) (config : ProviderConfig) (ids : list json) (s : string) (m : Map) :
  ~ In (JStr s) ids -> Map_get (register pid config ids m) (JStr s) = Map_get m (JStr s).
Proof.
  intros H. rewrite register_get.
  destruct (existsb _ ids) eqn:He; [|reflexivity].
  apply existsb_string in He. contradiction.
Qed.

Lemma register_keeps_key (pid : string) (config : ProviderConfig) (ids : list json) (s : string) (m : Map) :
  Map_get m (JStr s) <> None -> Map_get (register pid config ids m) (JStr s) <> None.
Proof.
  intros H. rewrite register_get. destruct (existsb _ ids); [discriminate|exact H].
Qed.

(** ** The builder: static lists *)

Lemma register_static_keeps_key (entries : list (string * ProviderConfig)) (s : string) (m : Map) :
  Map_get m (JStr s) <> None -> Map_get (register_static entries m) (JStr s) <> None.
Proof.
  unfold register_static. revert m.
  induction entries as [|[q c] rest IH]; intros m H; [exact H|].
  cbn [fold_left fst snd]. apply IH, register_keeps_key, H.
Qed.

Lemma register_static_key (entries : list (string * ProviderConfig)) (pid : string)
    (config : ProviderConfig) (s : string) (m : Map) :
  In (pid, config) entries -> In (JStr s) (static_ids config) ->
  Map_get (register_static entries m) (JStr s) <> None.
Proof.
  revert m. induction entries as [|[q c] rest IH]; intros m Hin Hid; [destruct Hin|].
  destruct Hin as [Heq|Hin].
  - inversion Heq; subst. apply (register_static_keeps_key rest).
    rewrite register_get_in by exact Hid. discriminate.
  - apply (IH _ Hin Hid).
Qed.

Lemma settle_keeps_key (schedule : list (string * fetch_outcome)) (b : Build) (s : string) :
  Map_get (map b) (JStr s) <> None ->
  Map_get (map (fst (settle_in_order schedule b))) (JStr s) <> None.
Proof.
  revert b. induction schedule as [|[q o] rest IH]; intros b H; [exact H|].
  cbn [settle_in_order].
  destruct (build_settle q o b) as [b1 lines1] eqn:Hb1.
  assert (H1 : Map_get (map b1) (JStr s) <> None).
  { unfold build_settle in Hb1.
    destruct (take_pending q (pending b)) as [[config p]|]; [|inversion Hb1; subst; exact H].
    unfold task_settle, task_body in Hb1.
    destruct (discover o) as [found|e]; cbn [bind] in Hb1; inversion Hb1; subst b1; cbn [map].
    - apply register_keeps_key, H.
    - exact H. }
  specialize (IH b1 H1). destruct (settle_in_order rest b1) as [b2 lines2]. exact IH.
Qed.

Lemma register_static_owner (entries : list (string * ProviderConfig)) (pid : string)
    (config : ProviderConfig) (s : string) (m : Map) :
  (forall q c, In (q, c) entries -> In (JStr s) (static_ids c) -> (q, c) = (pid, config)) ->
  (In (pid, config) entries /\ In (JStr s) (static_ids config))
  \/ Map_get m (JStr s) = Some (info_of pid config) ->
  Map_get (register_static entries m) (JStr s) = Some (info_of pid config).
Proof.
  unfold register_static. revert m.
  induction entries as [|[q c] rest IH]; intros m Honly H.
  - destruct H as [[[] _]|H]. exact H.
  - cbn [fold_left fst snd]. apply IH.
    + intros q' c' Hin. apply Honly. right. exact Hin.
    + destruct (existsb (fun k => same_value_zero k (JStr s)) (static_ids c)) eqn:He.
      * right. apply existsb_string in He.
        pose proof (Honly q c (or_introl eq_refl) He) as Heq. inversion Heq; subst.
        apply register_get_in, He.
      * assert (Hnot : ~ In (JStr s) (static_ids c)).
        { intros Hin. apply existsb_string in Hin. congruence. }
        rewrite register_get_notin by exact Hnot.
        destruct H as [[[Heq|Hin] Hid]|H]; [|left; split; assumption|right; exact H].
        inversion Heq; subst. contradiction.
Qed.

Lemma settle_keeps_owner (schedule : list (string * fetch_outcome)) (b : Build)
    (s : string) (v : providerInfo) :
  (forall q o found, In (q, o) schedule -> discover o = Normal found -> ~ In (JStr s) found) ->
  Map_get (map b) (JStr s) = Some v ->
  Map_get (map (fst (settle_in_order schedule b))) (JStr s) = Some v.
Proof.
  revert b. induction schedule as [|[q o] rest IH]; intros b Hnone H; [exact H|].
  cbn [settle_in_order].
  destruct (build_settle q o b) as [b1 lines1] eqn:Hb1.
  assert (H1 : Map_get (map b1) (JStr s) = Some v).
  { unfold build_settle in Hb1.
    destruct (take_pending q (pending b)) as [[config p]|]; [|inversion Hb1; subst; exact H].
    unfold task_settle, task_body in Hb1.
    destruct (discover o) as [found|e] eqn:Ho; cbn [bind] in Hb1; inversion Hb1; subst b1; cbn [map].
    - rewrite register_get_notin; [exact H|]. apply (Hnone q o found); [left; reflexivity|exact Ho].
    - exact H. }
  assert (Hrest : forall q' o' found, In (q', o') rest -> discover o' = Normal found ->
                                      ~ In (JStr s) found)
    by (intros q' o' found Hin; apply (Hnone q' o' found); right; exact Hin).
  specialize (IH b1 Hrest H1). destruct (settle_in_order rest b1) as [b2 lines2]. exact IH.
Qed.

(** ** The builder: its network calls *)

Lemma discovery_calls_spec (registry : list (string * ProviderConfig)) :
  discovery_calls registry = calls_of (dynamic_entries registry).
Proof. unfold discovery_calls. rewrite start_tasks_spec. reflexivity. Qed.

Lemma dynamic_entries_without_static (pid : string) (entries : list (string * ProviderConfig)) :
  (forall config, In (pid, config) entries -> is_dynamic config = false) ->
  dynamic_entries (without pid entries) = dynamic_entries entries.
Proof.
  unfold dynamic_entries, without.
  induction entries as [|[q c] rest IH]; intros H; [reflexivity|].
  cbn [List.filter fst snd].
  assert (Hrest : forall config, In (pid, config) rest -> is_dynamic config = false)
    by (intros config Hin; apply H; right; exact Hin).
  destruct (String.eqb_spec q pid) as [->|Hq]; cbn [negb List.filter snd].
  - rewrite (H c (or_introl eq_refl)). apply IH, Hrest.
  - rewrite (IH Hrest). reflexivity.
Qed.


(** C8 (amended). For every provider that declares a static [models] list
    and no dynamic models path, every id of the list is a key of the built
    table, and it is mapped to that provider whenever no other static list
    and no discovered list holds the same id (a later registration of the
    same id takes the entry over); the provider's callback issues no
    network call, and the calls of a build are the same with the provider
    as without it. *)
Theorem static_models_registered (registry : list (string * ProviderConfig))
    (schedule : list (string * fetch_outcome)) (m : Map)
    (pid : string) (config : ProviderConfig) (ids : list string) (id : string) :
  NoDup (List.map fst registry) ->
  In (pid, config) registry ->
  models config = Some ids -> truthy_string (modelsPath config) = false ->
  In id ids ->
  buildModelProviderMap registry schedule = Some m ->
  Map_get m (JStr id) <> None
  /\ ((forall q c, In (q, c) registry -> In (JStr id) (static_ids c) -> q = pid) ->
      (forall q o found, In (q, o) schedule -> discover o = Normal found ->
         ~ In (JStr id) found) ->
      Map_get m (JStr id) = Some (info_of pid config))
  /\ (forall m0, snd (task_start pid config m0) = None)
  /\ discovery_calls (without pid registry) = discovery_calls registry.
Proof.
  intros Hnd Hin Hmodels Hpath Hid Hbuild.
  assert (Hstatic : is_static config = true)
    by (unfold is_static; rewrite Hmodels, Hpath; reflexivity).
  assert (Hids : In (JStr id) (static_ids config)).
  { unfold static_ids. rewrite Hstatic, Hmodels. apply in_map. exact Hid. }
  unfold buildModelProviderMap in Hbuild.
  destruct (pending _); [|discriminate]. inversion Hbuild; subst m. clear Hbuild.
  rewrite start_tasks_spec. cbn [fst]. repeat split.
  - apply settle_keeps_key. cbn [map new_build].
    eapply register_static_key; eauto.
  - intros Hstatic_only Hdiscovered. apply settle_keeps_owner; [exact Hdiscovered|].
    cbn [map new_build]. apply register_static_owner; [|left; split; assumption].
    intros q c Hq Hc. pose proof (Hstatic_only q c Hq Hc). subst q.
    f_equal. eapply NoDup_keys_unique; eauto.
  - intros m0. rewrite task_start_spec. cbn [snd].
    rewrite (static_not_dynamic config Hstatic). reflexivity.
  - rewrite !discovery_calls_spec. f_equal. apply dynamic_entries_without_static.
    intros c Hc. assert (c = config) by (eapply NoDup_keys_unique; eauto). subst c.
    apply static_not_dynamic, Hstatic.
Qed.


(** ** The conversion of a model id to text *)

Lemma join_throws (l : list json) (e : js_error) :
  Forall (fun x => forall e', js_to_string x = Throw e' -> e' = ConversionError) l ->
  js_to_string (JArr l) = Throw e -> e = ConversionError.
Proof.
  cbn [js_to_string]. induction 1 as [|x rest Hx Hrest IH]; [discriminate|].
  assert (Helement : forall e',
            match x with JNull => Normal EmptyString | _ => js_to_string x end = Throw e' ->
            e' = ConversionError).
  { intros e' H. destruct x; try discriminate H; apply Hx; exact H. }
  destruct rest as [|y rest'].
  - intros H. apply Helement. exact H.
  - destruct (match x with JNull => Normal EmptyString | _ => js_to_string x end) as [first|e1].
    + cbn [bind]. intros H. apply IH.
      match type of H with
      | bind ?c _ = _ => destruct c as [others|e2]; [discriminate H|]
      end.
      cbn [bind] in H. exact H.
    + cbn [bind]. intros H. inversion H; subst e1. apply Helement. reflexivity.
Qed.

Lemma js_to_string_error (v : json) (e : js_error) :
  js_to_string v = Throw e -> e = ConversionError.
Proof.
  revert e. induction v as [|b|n|s|l Hall|members Hall] using json_nested; intros e Hthrow.
  - discriminate Hthrow.
  - destruct b; discriminate Hthrow.
  - discriminate Hthrow.
  - discriminate Hthrow.
  - apply (join_throws l e); assumption.
  - cbn [js_to_string] in Hthrow.
    destruct (own_property members "toString");
      [inversion Hthrow; reflexivity|discriminate Hthrow].
Qed.

Lemma js_to_string_throws (id : json) (e : js_error) :
  js_to_string id = Throw e ->
  e = ConversionError /\ (isArray (Some id) = true \/ exists members, id = JObj members).
Proof.
  intros H. split; [exact (js_to_string_error id e H)|].
  destruct id as [|b|n|s|l|members]; try discriminate H.
  - destruct b; discriminate H.
  - left. reflexivity.
  - right. exists members. reflexivity.
Qed.

Lemma same_value_zero_compound (k id : json) :
  isArray (Some id) = true \/ (exists members, id = JObj members) ->
  same_value_zero k id = false.
Proof.
  intros [H|[members ->]].
  - destruct id; try discriminate H. destruct k; reflexivity.
  - destruct k; reflexivity.
Qed.

Lemma Map_get_converts (m : Map) (id : json) (info : providerInfo) :
  Map_get m id = Some info -> js_to_string id = Normal (printed id).
Proof.
  intros Hget. unfold printed. destruct (js_to_string id) as [text|e] eqn:He; [reflexivity|].
  exfalso. destruct (js_to_string_throws id e He) as [_ Hshape].
  pose proof (fun k => same_value_zero_compound k id Hshape) as Hnever.
  clear He Hshape. induction m as [|[k i] rest IH].
  - discriminate Hget.
  - cbn [Map_get] in Hget. rewrite Hnever in Hget. exact (IH Hget).
Qed.

(** ** The chat handler: its checks *)

Lemma chat_checks_method (request : Request) :
  method request <> "POST" ->
  chat_checks request = Some (Normal (plain 405 "方法不允许")).
Proof.
  intros H. unfold chat_checks. apply String.eqb_neq in H. rewrite H. reflexivity.
Qed.

Lemma chat_checks_unauthorized (request : Request) :
  method request = "POST" -> ~ authorized request ->
  chat_checks request = Some (Normal (plain 401 "未授权：无效的 API 密钥。")).
Proof.
  unfold authorized, chat_checks. intros Hm Ha. rewrite Hm, String.eqb_refl. cbn [negb].
  destruct (headers_get (headers request) "Authorization") as [s|]; [|reflexivity].
  cbn [truthy_string differs].
  destruct (String.eqb_spec s ("Bearer " ++ WORKER_API_KEY)) as [->|Hs]; [contradiction|].
  rewrite orb_true_r. reflexivity.
Qed.

Lemma chat_checks_pass (request : Request) :
  method request = "POST" -> authorized request -> chat_checks request = None.
Proof.
  unfold authorized, chat_checks. intros Hm Ha. rewrite Hm, String.eqb_refl, Ha. reflexivity.
Qed.

Lemma chat_checks_none (request : Request) :
  chat_checks request = None -> method request = "POST" /\ authorized request.
Proof.
  intros H. destruct (String.eqb_spec (method request) "POST") as [Hm|Hm].
  - split; [exact Hm|]. unfold authorized.
    destruct (headers_get (headers request) "Authorization") as [s|] eqn:Hs.
    + destruct (String.eqb_spec s ("Bearer " ++ WORKER_API_KEY)) as [->|Hne]; [reflexivity|].
      assert (~ authorized request) by (unfold authorized; rewrite Hs; congruence).
      rewrite (chat_checks_unauthorized request Hm) in H by assumption. discriminate H.
    + assert (~ authorized request) by (unfold authorized; rewrite Hs; discriminate).
      rewrite (chat_checks_unauthorized request Hm) in H by assumption. discriminate H.
  - rewrite (chat_checks_method request Hm) in H. discriminate H.
Qed.

(** C1 (amended). The dispatcher checks in this order, each check ending
    the request with its own status before any upstream call: a method
    other than POST gives 405; then an Authorization header not exactly the
    bearer credential gives 401; then a body that parses to a JSON value
    other than [null] with no truthy [model] gives 400; then a [model]
    that is no key of the routing table and that converts to text gives
    404, the text naming it. A body that does not parse, or that parses to
    [null], or whose [model] is no key and does not convert to text (an
    object with a [toString] member of its own, or an array that holds
    one), gives no response of the handler: the exception of the read or
    of the conversion escapes it, still before any upstream call. *)
Theorem chat_preconditions (m : Map) (request : Request) (upstream : upstream_outcome) :
  let outcome := handleChatCompletionRequest (Some m) request upstream in
  (method request <> "POST" ->
     outcome = (Normal (plain 405 "方法不允许"), []))
  /\ (method request = "POST" -> ~ authorized request ->
        outcome = (Normal (plain 401 "未授权：无效的 API 密钥。"), []))
  /\ (method request = "POST" -> authorized request ->
        forall v, body request = Normal v -> v <> JNull ->
                  truthy (field_of v "model") = false ->
        outcome = (Normal (plain 400 ("请求体中缺少 " ++ double_quote ++ "model"
                                      ++ double_quote ++ " 字段。")), []))
  /\ (method request = "POST" -> authorized request ->
        forall v id, body request = Normal v -> field_of v "model" = Some id ->
                     truthy (Some id) = true -> Map_get m id = None ->
        forall named, js_to_string id = Normal named ->
        outcome = (Normal (plain 404 ("找不到模型: '" ++ named
                                      ++ "'。请在 /v1/models 检查可用模型列表。")), []))
  /\ (method request = "POST" -> authorized request ->
        forall e, body request = Throw e -> outcome = (Throw e, []))
  /\ (method request = "POST" -> authorized request ->
        body request = Normal JNull -> outcome = (Throw (NullReadError "model"), []))
  /\ (method request = "POST" -> authorized request ->
        forall v id, body request = Normal v -> field_of v "model" = Some id ->
                     truthy (Some id) = true -> Map_get m id = None ->
        forall e, js_to_string id = Throw e ->
        outcome = (Throw ConversionError, [])
        /\ e = ConversionError /\ (isArray (Some id) = true \/ exists members, id = JObj members)).
Proof.
  cbv zeta. unfold handleChatCompletionRequest.
  refine (conj _ (conj _ (conj _ (conj _ (conj _ (conj _ _)))))).
  - intros Hm. rewrite (chat_checks_method request Hm). reflexivity.
  - intros Hm Ha. rewrite (chat_checks_unauthorized request Hm Ha). reflexivity.
  - intros Hm Ha v Hv Hnull Hmodel. rewrite (chat_checks_pass request Hm Ha).
    unfold chat_resolve. rewrite Hv. cbn [bind].
    rewrite get_property_field by (destruct v; [congruence|reflexivity..]). cbn [bind].
    destruct (field_of v "model") as [id|]; [rewrite Hmodel|]; reflexivity.
  - intros Hm Ha v id Hv Hmodel Htruthy Hget. rewrite (chat_checks_pass request Hm Ha).
    unfold chat_resolve. rewrite Hv. cbn [bind].
    assert (Hnull : is_null v = false) by (destruct v; [discriminate Hmodel|reflexivity..]).
    rewrite (get_property_field v "model" Hnull), Hmodel. cbn [bind].
    rewrite Htruthy, Hget. intros named ->. reflexivity.
  - intros Hm Ha e He. rewrite (chat_checks_pass request Hm Ha).
    unfold chat_resolve. rewrite He. reflexivity.
  - intros Hm Ha Hv. rewrite (chat_checks_pass request Hm Ha).
    unfold chat_resolve. rewrite Hv. reflexivity.
  - intros Hm Ha v id Hv Hmodel Htruthy Hget e He.
    destruct (js_to_string_throws id e He) as [-> Hshape].
    split; [|split; [reflexivity|exact Hshape]].
    rewrite (chat_checks_pass request Hm Ha).
    unfold chat_resolve. rewrite Hv. cbn [bind].
    assert (Hnull : is_null v = false) by (destruct v; [discriminate Hmodel|reflexivity..]).
    rewrite (get_property_field v "model" Hnull), Hmodel. cbn [bind].
    rewrite Htruthy, Hget, He. reflexivity.
Qed.


(** ** The isolate: what routing leaves alone *)

Lemma reply_global (rid : nat) (r : completion Response) (w : Worker) :
  MODEL_PROVIDER_MAP (reply rid r w) = MODEL_PROVIDER_MAP w
  /\ building (reply rid r w) = building w
  /\ network (reply rid r w) = network w.
Proof. repeat split. Qed.

Lemma route_global (rid : nat) (request : Request) (w : Worker) :
  MODEL_PROVIDER_MAP (route rid request w) = MODEL_PROVIDER_MAP w
  /\ building (route rid request w) = building w
  /\ network (route rid request w) = network w.
Proof.
  unfold route.
  destruct (pathname request =? "/v1/models"); [apply reply_global|].
  destruct (pathname request =? "/v1/chat/completions").
  - destruct (chat_checks request); [apply reply_global|repeat split].
  - destruct (pathname request =? "/"); apply reply_global.
Qed.

Lemma settle_in_order_snoc (schedule : list (string * fetch_outcome)) (pid : string)
    (o : fetch_outcome) (b : Build) :
  fst (settle_in_order (schedule ++ [(pid, o)]) b)
  = fst (build_settle pid o (fst (settle_in_order schedule b))).
Proof.
  revert b. induction schedule as [|[q o'] rest IH]; intros b.
  - cbn [app settle_in_order fst].
    destruct (build_settle pid o b) as [b1 lines1]. reflexivity.
  - cbn [app settle_in_order]. destruct (build_settle q o' b) as [b1 lines1].
    specialize (IH b1).
    destruct (settle_in_order (rest ++ [(pid, o)]) b1) as [b2 lines2].
    destruct (settle_in_order rest b1) as [b3 lines3]. exact IH.
Qed.

Lemma settled_by_more (trace : list event) (e : event) (schedule : list (string * fetch_outcome)) :
  settled_by trace schedule -> settled_by (trace ++ [e]) schedule.
Proof.
  intros H pid o Hin. destruct (H pid o Hin) as [rid Hrid].
  exists rid. apply in_or_app. left. exact Hrid.
Qed.

Lemma worker_ok_more (registry : list (string * ProviderConfig)) (trace : list event)
    (e : event) (w : Worker) :
  worker_ok registry trace w -> worker_ok registry (trace ++ [e]) w.
Proof.
  intros [Hmap Hbuilds]. split.
  - intros m Hm. destruct (Hmap m Hm) as [schedule [Hnd [Hs Hb]]].
    exists schedule. repeat split; auto using settled_by_more.
  - intros rid request b Hin. destruct (Hbuilds rid request b Hin) as [Hp [schedule [Hs Hrun]]].
    split; [exact Hp|]. exists schedule. split; auto using settled_by_more.
Qed.

Lemma worker_ok_route (registry : list (string * ProviderConfig)) (trace : list event)
    (rid : nat) (request : Request) (w : Worker) :
  worker_ok registry trace w -> worker_ok registry trace (route rid request w).
Proof.
  unfold worker_ok. destruct (route_global rid request w) as [-> [-> _]]. tauto.
Qed.

Lemma run_of_start (registry : list (string * ProviderConfig)) :
  NoDup (List.map fst registry) ->
  run_of registry [] (fst (start_tasks registry new_build)).
Proof.
  intros Hnd. unfold run_of. cbn [List.map settle_in_order fst]. repeat split.
  - constructor.
  - rewrite start_tasks_spec. cbn [fst pending new_build app].
    apply NoDup_map_filter. exact Hnd.
  - intros pid [].
Qed.

Lemma run_of_settle (registry : list (string * ProviderConfig))
    (schedule : list (string * fetch_outcome)) (b : Build) (pid : string) (o : fetch_outcome)
    (config : ProviderConfig) (rest : list (string * ProviderConfig)) :
  run_of registry schedule b ->
  take_pending pid (pending b) = Some (config, rest) ->
  run_of registry (schedule ++ [(pid, o)]) (fst (build_settle pid o b)).
Proof.
  intros [Hnd [Hb [Hp Hdisj]]] Ht.
  destruct (take_entry_split _ _ _ _ _ Ht) as [l1 [k [l2 [Hpend [Hrest [Hk _]]]]]].
  apply String.eqb_eq in Hk. subst k.
  assert (Hpid : In pid (List.map fst (pending b))).
  { rewrite Hpend, map_app. apply in_or_app. right. left. reflexivity. }
  assert (Hafter : pending (fst (build_settle pid o b)) = rest).
  { rewrite build_settle_pending, Ht. reflexivity. }
  unfold run_of. rewrite settle_in_order_snoc, Hb, Hafter. repeat split.
  - rewrite map_app. cbn [List.map fst].
    apply NoDup_app; [exact Hnd|constructor; [intros []|constructor]|].
    intros x Hx [Heq|[]]. subst x. exact (Hdisj pid Hx Hpid).
  - subst rest. rewrite Hpend, map_app in Hp. cbn [List.map] in Hp.
    apply NoDup_remove_1 in Hp. rewrite map_app. exact Hp.
  - intros q Hq Hin. rewrite map_app in Hq. apply in_app_or in Hq as [Hq|[Hq|[]]].
    + apply (Hdisj q Hq). rewrite Hpend, map_app. subst rest. rewrite map_app in Hin.
      apply in_app_or in Hin as [Hin|Hin]; apply in_or_app; [left|right; right]; exact Hin.
    + cbn [fst] in Hq. subst q. subst rest.
      rewrite Hpend, map_app in Hp. cbn [List.map fst] in Hp.
      apply NoDup_remove_2 in Hp. apply Hp. rewrite <- map_app. exact Hin.
Qed.


(** ** The isolate: every table it installs is a table of the builder *)

Lemma worker_ok_same (registry : list (string * ProviderConfig)) (trace : list event)
    (w w' : Worker) :
  MODEL_PROVIDER_MAP w' = MODEL_PROVIDER_MAP w -> building w' = building w ->
  worker_ok registry trace w -> worker_ok registry trace w'.
Proof. unfold worker_ok. intros -> ->. tauto. Qed.

Lemma take_entry_incl {A} (rid : nat) (l : list (nat * A)) (a : A) (rest : list (nat * A)) :
  take_entry Nat.eqb rid l = Some (a, rest) ->
  (exists k, In (k, a) l) /\ incl rest l.
Proof.
  intros H. destruct (take_entry_split _ _ _ _ _ H) as [l1 [k [l2 [-> [-> _]]]]]. split.
  - exists k. apply in_or_app. right. left. reflexivity.
  - intros x Hx. apply in_app_or in Hx as [Hx|Hx]; apply in_or_app; [left|right; right]; exact Hx.
Qed.

Lemma step_ok (registry : list (string * ProviderConfig)) (trace : list event)
    (w : Worker) (e : event) :
  NoDup (List.map fst registry) ->
  worker_ok registry trace w -> worker_ok registry (trace ++ [e]) (step registry w e).
Proof.
  intros Hnd Hw. pose proof (worker_ok_more registry trace e w Hw) as Hw'.
  destruct e as [rid request|rid pid o|rid|rid o]; cbn [step].
  - (* a request arrives *)
    unfold arrive. destruct (MODEL_PROVIDER_MAP w) as [m|] eqn:Hmap;
      [apply worker_ok_route; exact Hw'|].
    pose proof (run_of_start registry Hnd) as Hstart.
    destruct (start_tasks registry new_build) as [b calls] eqn:Hst. cbn [fst] in Hstart.
    destruct Hw' as [_ Hbuilds].
    destruct (pending b) as [|p ps] eqn:Hp.
    + unfold build_done. apply worker_ok_route. split; cbn [MODEL_PROVIDER_MAP building].
      * intros m Hm. inversion Hm; subst m. exists []. repeat split.
        -- constructor.
        -- intros pid o [].
        -- unfold buildModelProviderMap. cbn [settle_in_order fst]. rewrite Hst. cbn [fst].
           rewrite Hp. reflexivity.
      * exact Hbuilds.
    + split; cbn [MODEL_PROVIDER_MAP building].
      * discriminate.
      * intros rid' request' b' [Heq|Hin]; [|exact (Hbuilds rid' request' b' Hin)].
        inversion Heq; subst. split; [rewrite Hp; discriminate|].
        exists []. split; [intros pid o []|exact Hstart].
  - (* a discovery call settles *)
    destruct (take_entry Nat.eqb rid (building w)) as [[[request b] others]|] eqn:Ht;
      [|exact Hw'].
    destruct (take_entry_incl _ _ _ _ Ht) as [[k Hk] Hothers].
    destruct Hw' as [Hmap Hbuilds].
    destruct (Hbuilds k request b Hk) as [Hpending [schedule [Hsettled Hrun]]].
    assert (Hnext : exists schedule',
               settled_by (trace ++ [DiscoverySettles rid pid o]) schedule'
               /\ run_of registry schedule' (fst (build_settle pid o b))).
    { destruct (take_pending pid (pending b)) as [[config rest]|] eqn:Htp.
      - exists (schedule ++ [(pid, o)])%list. split; [|eapply run_of_settle; eauto].
        intros q o' Hin. apply in_app_or in Hin as [Hin|[Hin|[]]].
        + apply Hsettled, Hin.
        + inversion Hin; subst. exists rid. apply in_or_app. right. left. reflexivity.
      - exists schedule. split; [exact Hsettled|].
        unfold build_settle. rewrite Htp. exact Hrun. }
    destruct Hnext as [schedule' [Hsettled' Hrun']].
    destruct (build_settle pid o b) as [b' lines] eqn:Hb'. cbn [fst] in Hrun'.
    destruct (pending b') as [|p ps] eqn:Hp.
    + unfold build_done. apply worker_ok_route. split; cbn [MODEL_PROVIDER_MAP building].
      * intros m Hm. inversion Hm; subst m. exists schedule'.
        destruct Hrun' as [Hnd' [Hfinal _]]. repeat split; auto.
        unfold buildModelProviderMap. rewrite Hfinal, Hp. reflexivity.
      * intros rid' request' b0 Hin. apply (Hbuilds rid' request' b0), Hothers, Hin.
    + split; cbn [MODEL_PROVIDER_MAP building].
      * exact Hmap.
      * intros rid' request' b0 [Heq|Hin].
        -- inversion Heq; subst. split; [rewrite Hp; discriminate|]. eauto.
        -- apply (Hbuilds rid' request' b0), Hothers, Hin.
  - (* a body is read *)
    destruct (take_entry Nat.eqb rid (parsing w)) as [[request others]|]; [|exact Hw'].
    destruct (chat_resolve (MODEL_PROVIDER_MAP w) request) as [[r|[modelId call]]|err];
      (eapply worker_ok_same; [| |exact Hw']); reflexivity.
  - (* an upstream call settles *)
    destruct (take_entry Nat.eqb rid (forwarding w)) as [[modelId others]|]; [|exact Hw'].
    eapply worker_ok_same; [| |exact Hw']; reflexivity.
Qed.

Lemma run_snoc (registry : list (string * ProviderConfig)) (trace : list event) (e : event)
    (w : Worker) :
  run registry (trace ++ [e]) w = step registry (run registry trace w) e.
Proof. unfold run. rewrite fold_left_app. reflexivity. Qed.

Lemma run_ok (registry : list (string * ProviderConfig)) (trace : list event) :
  NoDup (List.map fst registry) ->
  worker_ok registry trace (run registry trace cold_start).
Proof.
  intros Hnd. induction trace as [|e trace IH] using rev_ind.
  - split; cbn; [discriminate|intros ? ? ? []].
  - rewrite run_snoc. apply step_ok; assumption.
Qed.

(** Whatever the requests and however the calls interleave, a table the
    isolate holds is one the builder returns for answers of the trace. *)
Lemma installed_table_built (registry : list (string * ProviderConfig)) (trace : list event)
    (m : Map) :
  NoDup (List.map fst registry) ->
  MODEL_PROVIDER_MAP (run registry trace cold_start) = Some m ->
  exists schedule,
    NoDup (List.map fst schedule) /\ settled_by trace schedule
    /\ buildModelProviderMap registry schedule = Some m.
Proof. intros Hnd Hm. exact (proj1 (run_ok registry trace Hnd) m Hm). Qed.


(** C9. Every entry of the table an isolate holds, whatever the requests
    and the interleaving that led there, has its [(upstreamHost, chatPath)]
    pair copied from exactly one descriptor of the registry, the one its
    [providerId] names; and the table is the builder's for answers of the
    trace among which no failed discovery belongs to a provider that an
    entry names. It is this table that the dispatch and the listing read. *)
Theorem entries_copied_from_registry (registry : list (string * ProviderConfig))
    (trace : list event) (m : Map) :
  NoDup (List.map fst registry) ->
  MODEL_PROVIDER_MAP (run registry trace cold_start) = Some m ->
  exists schedule,
    settled_by trace schedule
    /\ buildModelProviderMap registry schedule = Some m
    /\ forall id info, In (id, info) m ->
         (exists config,
            In (providerId info, config) registry
            /\ (forall config', In (providerId info, config') registry -> config' = config)
            /\ info_upstreamHost info = upstreamHost config
            /\ info_chatPath info = chatPath config)
         /\ (forall pid config o e,
               In (pid, config) registry -> is_dynamic config = true ->
               In (pid, o) schedule -> discover o = Throw e ->
               providerId info <> pid).
Proof.
  intros Hnd Hm.
  destruct (installed_table_built registry trace m Hnd Hm) as [schedule [Hs [Hsettled Hb]]].
  exists schedule. split; [exact Hsettled|]. split; [exact Hb|].
  intros id info Hin. split.
  - destruct (built_copied registry schedule m Hb id info Hin) as [config [Hc Hinfo]].
    exists config. split; [exact Hc|]. split.
    + intros config' Hc'. eapply NoDup_keys_unique; eauto.
    + rewrite Hinfo. split; reflexivity.
  - intros pid config o e Hc Hdyn Ho He.
    exact (failed_provider_absent registry schedule m pid config o e
             Hnd Hs Hc Hdyn Ho He Hb id info Hin).
Qed.

(** ** The model-catalog handler *)

Lemma handleModelsRequest_ready (m : Map) :
  handleModelsRequest (Some m)
  = Normal {| status := 200; statusText := EmptyString;
              response_headers := [("Content-Type", "application/json")];
              response_body :=
                JsonBody (JObj [("object", JStr "list");
                                ("data", JArr (List.map
                                   (fun entry : json * providerInfo =>
                                      JObj [("id", fst entry); ("object", JStr "model");
                                            ("owned_by", JStr (providerId (snd entry)))])
                                   m))]) |}.
Proof.
  unfold handleModelsRequest, new_Response. cbn [Z.leb Z.compare andb Pos.compare
    Pos.compare_cont].
  rewrite (map_ext _ (fun entry : json * providerInfo =>
                        JObj [("id", fst entry); ("object", JStr "model");
                              ("owned_by", JStr (providerId (snd entry)))]));
    [reflexivity|].
  intros [id info]. reflexivity.
Qed.



(** ** [JSON.stringify]: the members of the printed object *)

Lemma first_occurrences_in (keys : list string) (p : string) :
  In p (first_occurrences keys) <-> In p keys.
Proof.
  induction keys as [|k rest IH]; [reflexivity|].
  cbn [first_occurrences In]. rewrite filter_In, IH.
  destruct (String.eqb_spec p k) as [->|Hp]; cbn [negb].
  - split; intros _; left; reflexivity.
  - split; [intros [H|[H _]]|intros [H|H]]; auto.
Qed.

Lemma first_occurrences_distinct (keys : list string) : NoDup (first_occurrences keys).
Proof.
  induction keys as [|k rest IH]; [constructor|].
  cbn [first_occurrences]. constructor; [|apply NoDup_filter, IH].
  rewrite filter_In, String.eqb_refl. intros [_ H]. discriminate H.
Qed.

Lemma insert_index_permutation (k : string) (sorted : list string) :
  Permutation (insert_index k sorted) (k :: sorted).
Proof.
  induction sorted as [|x rest IH]; [reflexivity|].
  cbn [insert_index]. destruct (index_of k <? index_of x)%N; [reflexivity|].
  rewrite IH. apply perm_swap.
Qed.

Lemma partition_permutation (f : string -> bool) (l : list string) :
  Permutation (List.filter f l ++ List.filter (fun k => negb (f k)) l)%list l.
Proof.
  induction l as [|a rest IH]; [reflexivity|].
  cbn [List.filter]. destruct (f a); cbn [negb app].
  - apply perm_skip, IH.
  - symmetry. apply Permutation_cons_app. symmetry. exact IH.
Qed.

Lemma own_keys_permutation (keys : list string) :
  Permutation (own_keys keys) (first_occurrences keys).
Proof.
  unfold own_keys. rewrite <- (partition_permutation is_index (first_occurrences keys)) at 3.
  apply Permutation_app_tail.
  induction (List.filter is_index (first_occurrences keys)) as [|k rest IH]; [reflexivity|].
  cbn [fold_right]. rewrite insert_index_permutation. apply perm_skip, IH.
Qed.

Lemma own_keys_in (keys : list string) (p : string) : In p (own_keys keys) <-> In p keys.
Proof.
  split; intros H.
  - apply first_occurrences_in.
    apply (Permutation_in _ (own_keys_permutation keys)). exact H.
  - apply (Permutation_in _ (Permutation_sym (own_keys_permutation keys))).
    apply first_occurrences_in. exact H.
Qed.

Lemma own_keys_distinct (keys : list string) : NoDup (own_keys keys).
Proof.
  apply (Permutation_NoDup (l := first_occurrences keys)).
  - symmetry. apply own_keys_permutation.
  - apply first_occurrences_distinct.
Qed.

Lemma own_property_app (l1 l2 : list (string * json)) (p : string) :
  own_property (l1 ++ l2) p
  = match own_property l2 p with
    | Some w => Some w
    | None => own_property l1 p
    end.
Proof.
  induction l1 as [|[k x] rest IH]; cbn [app own_property].
  - destruct (own_property l2 p); reflexivity.
  - rewrite IH. destruct (own_property l2 p); reflexivity.
Qed.

Lemma own_property_absent (members : list (string * json)) (p : string) :
  ~ In p (List.map fst members) -> own_property members p = None.
Proof.
  induction members as [|[k x] rest IH]; [reflexivity|].
  cbn [List.map fst In own_property]. intros H.
  rewrite IH by tauto. destruct (String.eqb_spec k p); [tauto|reflexivity].
Qed.

Lemma selected_absent (values : list (string * json)) (keys : list string) (p : string) :
  ~ In p keys -> own_property (selected values keys) p = None.
Proof.
  intros H. apply own_property_absent. intros Hin. apply H.
  apply in_map_iff in Hin as [[k x] [Hk Hin]]. cbn [fst] in Hk. subst k.
  apply in_flat_map in Hin as [k [Hk Hin]].
  destruct (own_property values k); [|destruct Hin].
  destruct Hin as [Hin|[]]. inversion Hin; subst. exact Hk.
Qed.

Lemma selected_property (values : list (string * json)) (keys : list string) (p : string) :
  NoDup keys -> In p keys -> own_property (selected values keys) p = own_property values p.
Proof.
  unfold selected. induction 1 as [|k rest Hk Hrest IH]; [intros []|].
  cbn [flat_map]. rewrite own_property_app. intros [->|Hin].
  - fold (selected values rest). rewrite (selected_absent values rest p Hk).
    destruct (own_property values p) as [x|]; [|reflexivity].
    cbn [own_property]. rewrite String.eqb_refl. reflexivity.
  - rewrite (IH Hin). destruct (own_property values p) as [w|] eqn:Hp; [reflexivity|].
    destruct (own_property values k) as [x|]; [|reflexivity].
    cbn [own_property]. destruct (String.eqb_spec k p) as [->|Hne]; [|reflexivity].
    contradiction.
Qed.

Lemma selected_keys (values : list (string * json)) (keys : list string) :
  NoDup keys -> NoDup (List.map fst (selected values keys)).
Proof.
  unfold selected. induction 1 as [|k rest Hk Hrest IH]; [constructor|].
  cbn [flat_map]. destruct (own_property values k) as [x|]; [|exact IH].
  cbn [app List.map fst]. constructor; [|exact IH].
  intros Hin. apply Hk. apply in_map_iff in Hin as [[k' x'] [Hk' Hin]].
  cbn [fst] in Hk'. subst k'. apply in_flat_map in Hin as [k' [Hin Hx]].
  destruct (own_property values k'); [|destruct Hx].
  destruct Hx as [Hx|[]]. inversion Hx; subst. exact Hin.
Qed.

Lemma JSON_stringify_object (members : list (string * json)) :
  JSON_stringify (JObj members)
  = JObj (selected (List.map (fun member => (fst member, JSON_stringify (snd member))) members)
                   (own_keys (List.map fst members))).
Proof.
  assert (Hvalues : forall ms,
            (fix each (ms : list (string * json)) : list (string * json) :=
               match ms with
               | [] => []
               | (k, x) :: rest => (k, JSON_stringify x) :: each rest
               end) ms
            = List.map (fun member => (fst member, JSON_stringify (snd member))) ms).
  { induction ms as [|[k x] rest IH]; [reflexivity|].
    cbn [List.map fst snd]. rewrite <- IH. reflexivity. }
  cbn [JSON_stringify]. rewrite Hvalues. reflexivity.
Qed.

Lemma own_property_map (f : json -> json) (members : list (string * json)) (p : string) :
  own_property (List.map (fun member => (fst member, f (snd member))) members) p
  = option_map f (own_property members p).
Proof.
  induction members as [|[k x] rest IH]; [reflexivity|].
  cbn [List.map fst snd own_property]. rewrite IH.
  destruct (own_property rest p); [reflexivity|]. destruct (k =? p); reflexivity.
Qed.

Lemma map_fst_values (f : json -> json) (members : list (string * json)) :
  List.map fst (List.map (fun member => (fst member, f (snd member))) members)
  = List.map fst members.
Proof. rewrite List.map_map. reflexivity. Qed.

(** Every member of the parsed value is a member of the printed one, with
    its printed value. *)
Lemma JSON_stringify_field (v : json) (p : string) :
  field_of (JSON_stringify v) p = option_map JSON_stringify (field_of v p).
Proof.
  destruct v as [|b|n|s|l|members]; try reflexivity.
  - cbn [JSON_stringify]. destruct (number_stringify n); reflexivity.
  - rewrite JSON_stringify_object. cbn [field_of].
    destruct (in_dec string_dec p (List.map fst members)) as [Hin|Hout].
    + rewrite selected_property.
      * apply own_property_map.
      * apply own_keys_distinct.
      * apply own_keys_in. exact Hin.
    + rewrite selected_absent by (rewrite own_keys_in; exact Hout).
      rewrite (own_property_absent members p Hout). reflexivity.
Qed.

(** The printed object holds each key once. *)
Lemma JSON_stringify_keys (v : json) (members : list (string * json)) :
  JSON_stringify v = JObj members -> NoDup (List.map fst members).
Proof.
  destruct v as [|b|n|s|l|members0]; try discriminate.
  - cbn [JSON_stringify]. destruct (number_stringify n); discriminate.
  - rewrite JSON_stringify_object. intros H. inversion H; subst.
    apply selected_keys, own_keys_distinct.
Qed.

(** ** The chat handler: dispatch and relay *)

Lemma Map_get_In (m : Map) (k : json) (info : providerInfo) :
  Map_get m k = Some info -> exists k', In (k', info) m.
Proof.
  induction m as [|[k' v] rest IH]; cbn [Map_get]; [discriminate|].
  destruct (same_value_zero k' k).
  - intros H. inversion H; subst. exists k'. left. reflexivity.
  - intros H. destruct (IH H) as [k'' Hk]. exists k''. right. exact Hk.
Qed.

Lemma dispatched_resolve (m : Map) (request : Request) (v id : json) (info : providerInfo) :
  dispatched m request v id info ->
  chat_checks request = None
  /\ chat_resolve (Some m) request = Normal (inr (id, upstream_request info v)).
Proof.
  intros [Hm [Ha [Hv [Hmodel [Htruthy Hget]]]]]. split; [apply chat_checks_pass; assumption|].
  unfold chat_resolve. rewrite Hv. cbn [bind].
  assert (Hnull : is_null v = false) by (destruct v; [discriminate Hmodel|reflexivity..]).
  rewrite (get_property_field v "model" Hnull), Hmodel. cbn [bind].
  rewrite Htruthy, Hget. reflexivity.
Qed.

Lemma dispatched_handle (m : Map) (request : Request) (v id : json) (info : providerInfo)
    (upstream : upstream_outcome) :
  dispatched m request v id info ->
  handleChatCompletionRequest (Some m) request upstream
  = (chat_relay id upstream, [upstream_request info v]).
Proof.
  intros H. destruct (dispatched_resolve m request v id info H) as [Hc Hr].
  unfold handleChatCompletionRequest. rewrite Hc, Hr. reflexivity.
Qed.

(** C6 (amended). For every chat request that passes the four checks
    against the table an isolate holds, the one upstream call is a POST to
    exactly [https://{upstreamHost}{chatPath}] of the entry of its model,
    these two copied from the descriptor of the owning provider, with the
    five fixed headers as its headers and, as its body, the parsed body
    printed again by [JSON.stringify]: every member of the body is a
    member of what is sent, with its value printed again, each key once,
    and a [model] that is a string goes out as it came. No
    [Authorization] is among the headers, and any two authorized POSTs
    with the same body make the same upstream call, whatever else their
    headers, paths and upstream answers are. *)
Theorem upstream_request_fixed (registry : list (string * ProviderConfig))
    (trace : list event) (m : Map) (request : Request) (v id : json) (info : providerInfo)
    (upstream : upstream_outcome) :
  NoDup (List.map fst registry) ->
  MODEL_PROVIDER_MAP (run registry trace cold_start) = Some m ->
  dispatched m request v id info ->
  snd (handleChatCompletionRequest (Some m) request upstream)
  = [{| fetch_url := "https://" ++ info_upstreamHost info ++ info_chatPath info;
        fetch_method := "POST";
        fetch_headers := upstream_headers;
        fetch_body := Some (JSON_stringify v);
        fetch_redirect := "follow" |}]
  /\ (forall p, field_of (JSON_stringify v) p = option_map JSON_stringify (field_of v p))
  /\ (forall members, JSON_stringify v = JObj members -> NoDup (List.map fst members))
  /\ (forall s, id = JStr s -> field_of (JSON_stringify v) "model" = Some (JStr s))
  /\ (exists config,
        In (providerId info, config) registry
        /\ info_upstreamHost info = upstreamHost config
        /\ info_chatPath info = chatPath config)
  /\ List.map fst upstream_headers
     = ["Content-Type"; "Accept"; "Origin"; "Referer"; "User-Agent"]
  /\ headers_get upstream_headers "Authorization" = None
  /\ (forall request' upstream',
        method request' = "POST" -> authorized request' -> body request' = body request ->
        snd (handleChatCompletionRequest (Some m) request' upstream')
        = snd (handleChatCompletionRequest (Some m) request upstream)).
Proof.
  intros Hnd Hm Hd. rewrite (dispatched_handle m request v id info upstream Hd).
  split; [reflexivity|]. split; [exact (JSON_stringify_field v)|].
  split; [exact (JSON_stringify_keys v)|]. split.
  { intros s ->. rewrite JSON_stringify_field.
    destruct Hd as [_ [_ [_ [-> _]]]]. reflexivity. }
  split; [|split; [reflexivity|split; [reflexivity|]]].
  - destruct (Map_get_In m id info) as [k Hk]; [apply Hd|].
    destruct (installed_table_built registry trace m Hnd Hm) as [schedule [_ [_ Hb]]].
    destruct (built_copied registry schedule m Hb k info Hk) as [config [Hc Hinfo]].
    exists config. split; [exact Hc|]. rewrite Hinfo. split; reflexivity.
  - intros request' upstream' Hm' Ha' Hbody.
    assert (Hd' : dispatched m request' v id info).
    { destruct Hd as [_ [_ [Hv Hrest]]]. unfold dispatched. rewrite Hbody. tauto. }
    rewrite (dispatched_handle m request' v id info upstream' Hd'). reflexivity.
Qed.

Lemma new_Response_relayable (b : Body) (st : Z) (text : string) (h : Headers) :
  relayable st ->
  new_Response b st text h
  = Normal {| status := st; statusText := text; response_headers := h; response_body := b |}.
Proof.
  unfold relayable, new_Response. intros [H1 H2].
  apply Z.leb_le in H1, H2. rewrite H1, H2. reflexivity.
Qed.

Lemma new_Response_range (b : Body) (st : Z) (text : string) (h : Headers) :
  ~ relayable st -> new_Response b st text h = Throw (StatusRangeError st).
Proof.
  unfold relayable, new_Response. intros H.
  destruct (200 <=? st)%Z eqn:H1; destruct (st <=? 599)%Z eqn:H2; try reflexivity.
  apply Z.leb_le in H1, H2. exfalso. apply H. split; assumption.
Qed.

(** C7 (amended). For every dispatched chat request: if the upstream fetch
    answers with a status in 200..599, the reply carries the upstream body
    as it is, the upstream status and reason, the upstream [Content-Type]
    when it is there and not empty and [text/event-stream] otherwise,
    [Access-Control-Allow-Origin: *] and [Cache-Control: no-cache]. The
    caller gets the gateway's 502, naming the model and the error, if and
    only if the upstream fetch rejects or answers with a status outside
    200..599, which the constructor of the reply refuses. *)
Theorem relay_contract (m : Map) (request : Request) (v id : json) (info : providerInfo)
    (upstream : upstream_outcome) :
  dispatched m request v id info ->
  let reply := fst (handleChatCompletionRequest (Some m) request upstream) in
  (forall u, upstream = UpstreamResponse u -> relayable (status u) ->
     reply = Normal {| status := status u; statusText := statusText u;
                       response_headers :=
                         [("Content-Type", relayed_content_type u);
                          ("Access-Control-Allow-Origin", "*");
                          ("Cache-Control", "no-cache")];
                       response_body := response_body u |})
  /\ (forall u ct, headers_get (response_headers u) "Content-Type" = Some ct ->
                   ct <> EmptyString -> relayed_content_type u = ct)
  /\ (forall u, headers_get (response_headers u) "Content-Type" = None
                \/ headers_get (response_headers u) "Content-Type" = Some EmptyString ->
                relayed_content_type u = "text/event-stream")
  /\ (forall message, upstream = UpstreamRejected message ->
        reply = Normal (bad_gateway id (NetworkError message)))
  /\ (forall u, upstream = UpstreamResponse u -> ~ relayable (status u) ->
        reply = Normal (bad_gateway id (StatusRangeError (status u))))
  /\ ((exists e, reply = Normal (bad_gateway id e))
      <-> (exists message, upstream = UpstreamRejected message)
          \/ (exists u, upstream = UpstreamResponse u /\ ~ relayable (status u))).
Proof.
  intros Hd. cbv zeta. rewrite (dispatched_handle m request v id info upstream Hd). cbn [fst].
  assert (Hid : js_to_string id = Normal (printed id))
    by (apply (Map_get_converts m id info), Hd).
  assert (Hin : forall u, upstream = UpstreamResponse u -> relayable (status u) ->
    chat_relay id upstream
    = Normal {| status := status u; statusText := statusText u;
                response_headers :=
                  [("Content-Type", relayed_content_type u);
                   ("Access-Control-Allow-Origin", "*");
                   ("Cache-Control", "no-cache")];
                response_body := response_body u |}).
  { intros u -> Hu. unfold chat_relay. rewrite new_Response_relayable by exact Hu. reflexivity. }
  assert (Hrej : forall message, upstream = UpstreamRejected message ->
    chat_relay id upstream = Normal (bad_gateway id (NetworkError message))).
  { intros message ->. unfold chat_relay. rewrite Hid. reflexivity. }
  assert (Hout : forall u, upstream = UpstreamResponse u -> ~ relayable (status u) ->
    chat_relay id upstream = Normal (bad_gateway id (StatusRangeError (status u)))).
  { intros u -> Hu. unfold chat_relay. rewrite new_Response_range by exact Hu.
    rewrite Hid. reflexivity. }
  split; [exact Hin|]. split; [|split]; [| |split; [exact Hrej|split; [exact Hout|]]].
  - intros u ct Hct Hne. unfold relayed_content_type. rewrite Hct. cbn [truthy_string].
    apply String.eqb_neq in Hne. rewrite Hne. reflexivity.
  - intros u [Hct|Hct]; unfold relayed_content_type; rewrite Hct; reflexivity.
  - split.
    + intros [e He]. destruct upstream as [message|u]; [left; eauto|].
      right. exists u. split; [reflexivity|]. intros Hu.
      rewrite (Hin u eq_refl Hu) in He. discriminate He.
    + intros [[message ->]|[u [-> Hu]]]; eexists; [apply Hrej|apply Hout]; eauto.
Qed.


(** ** The isolate: the catalog is never unavailable *)

Lemma trace_ok_more (trace : list event) (e : event) (w : Worker) :
  trace_ok trace w -> trace_ok (trace ++ [e]) w.
Proof.
  intros [Hb [Hp [Hf Hr]]]. repeat split.
  - intros rid request b Hin. apply in_or_app. left. eauto.
  - apply in_or_app. left. apply (Hp rid request H).
  - apply (Hp rid request H).
  - intros rid id Hin. destruct (Hf rid id Hin) as [request [Ha Hpath]].
    exists request. split; [apply in_or_app; left|]; assumption.
  - apply (Hr rid r H).
  - destruct (Hr rid r H) as [_ [request [Ha Hm]]].
    exists request. split; [apply in_or_app; left|]; assumption.
Qed.

Lemma trace_ok_reply (trace : list event) (rid : nat) (request : Request)
    (r : completion Response) (w : Worker) :
  trace_ok trace w -> In (Arrives rid request) trace ->
  r <> handleModelsRequest None ->
  (pathname request = "/v1/models" -> exists m, r = handleModelsRequest (Some m)) ->
  trace_ok trace (reply rid r w).
Proof.
  intros [Hb [Hp [Hf Hr]]] Ha Hne Hm. unfold trace_ok, reply.
  cbn [building parsing forwarding replies]. repeat split; auto.
  - apply (Hp rid0 request0 H).
  - apply (Hp rid0 request0 H).
  - apply in_app_or in H as [H|[H|[]]]; [apply (Hr rid0 r0 H)|]. inversion H; subst. exact Hne.
  - apply in_app_or in H as [H|[H|[]]]; [apply (Hr rid0 r0 H)|].
    inversion H; subst. exists request. split; assumption.
Qed.

Lemma chat_checks_cases (request : Request) (r : completion Response) :
  chat_checks request = Some r ->
  exists st text, r = Normal (plain st text) /\ (st = 405 \/ st = 401)%Z.
Proof.
  unfold chat_checks. destruct (negb (method request =? "POST")).
  - intros H. inversion H; subst. eexists _, _. split; [reflexivity|]. left. reflexivity.
  - destruct (_ || _); [|discriminate].
    intros H. inversion H; subst. eexists _, _. split; [reflexivity|]. right. reflexivity.
Qed.

Lemma chat_resolve_cases (M : option Map) (request : Request) :
  chat_resolve M request <> Normal (inl (plain 503 "模型目录尚未准备就绪，请稍后再试。")).
Proof.
  unfold chat_resolve. destruct (body request) as [v|e]; cbn [bind]; [|discriminate].
  destruct (get_property v "model") as [[model|]|e]; cbn [bind]; try discriminate.
  destruct (negb (truthy (Some model))); [discriminate|].
  destruct M as [m|]; [|discriminate].
  destruct (Map_get m model); [discriminate|].
  destruct (js_to_string model); discriminate.
Qed.

Lemma chat_relay_cases (id : json) (o : upstream_outcome) :
  chat_relay id o <> Normal (plain 503 "模型目录尚未准备就绪，请稍后再试。").
Proof.
  unfold chat_relay. destruct o as [message|u].
  - destruct (js_to_string id); discriminate.
  - unfold new_Response at 1.
    destruct ((200 <=? status u)%Z && (status u <=? 599)%Z); [discriminate|].
    destruct (js_to_string id); discriminate.
Qed.

Lemma trace_ok_route (trace : list event) (rid : nat) (request : Request) (m : Map) (w : Worker) :
  trace_ok trace w -> In (Arrives rid request) trace ->
  MODEL_PROVIDER_MAP w = Some m ->
  trace_ok trace (route rid request w).
Proof.
  intros Hw Ha Hm. unfold route. rewrite Hm.
  destruct (String.eqb_spec (pathname request) "/v1/models") as [Hmodels|Hmodels].
  - apply (trace_ok_reply trace rid request); auto.
    + rewrite handleModelsRequest_ready. discriminate.
    + intros _. exists m. reflexivity.
  - destruct (String.eqb_spec (pathname request) "/v1/chat/completions") as [Hchat|Hchat].
    + destruct (chat_checks request) as [r|] eqn:Hc.
      * destruct (chat_checks_cases request r Hc) as [st [text [-> Hst]]].
        apply (trace_ok_reply trace rid request); auto; [|contradiction].
        destruct Hst as [-> | ->]; discriminate.
      * destruct Hw as [Hb [Hp [Hf Hr]]]. unfold trace_ok.
        cbn [building parsing forwarding replies]. repeat split; auto.
        -- destruct H as [H|H]; [inversion H; subst; exact Ha|apply (Hp rid0 request0 H)].
        -- destruct H as [H|H]; [inversion H; subst; exact Hchat|apply (Hp rid0 request0 H)].
        -- apply (Hr rid0 r H).
        -- apply (Hr rid0 r H).
    + destruct (pathname request =? "/");
        apply (trace_ok_reply trace rid request); auto; try contradiction; discriminate.
Qed.

Lemma trace_ok_step (registry : list (string * ProviderConfig)) (trace : list event)
    (w : Worker) (e : event) :
  trace_ok trace w -> trace_ok (trace ++ [e]) (step registry w e).
Proof.
  intros Hw. pose proof (trace_ok_more trace e w Hw) as Hw'.
  destruct e as [rid request|rid pid o|rid|rid o]; cbn [step].
  - assert (Ha : In (Arrives rid request) (trace ++ [Arrives rid request]))
      by (apply in_or_app; right; left; reflexivity).
    unfold arrive. destruct (MODEL_PROVIDER_MAP w) as [m|] eqn:Hmap;
      [eapply trace_ok_route; eauto|].
    destruct (start_tasks registry new_build) as [b calls].
    destruct Hw' as [Hb [Hp [Hf Hr]]].
    destruct (pending b) as [|p ps].
    + unfold build_done. eapply trace_ok_route; [|exact Ha|reflexivity].
      unfold trace_ok. cbn [building parsing forwarding replies]. auto.
    + unfold trace_ok. cbn [building parsing forwarding replies]. repeat split; auto.
      * intros rid' request' b' [Heq|Hin]; [inversion Heq; subst; exact Ha|eauto].
      * apply (Hp rid0 request0 H).
      * apply (Hp rid0 request0 H).
      * apply (Hr rid0 r H).
      * apply (Hr rid0 r H).
  - destruct (take_entry Nat.eqb rid (building w)) as [[[request b] others]|] eqn:Ht;
      [|exact Hw'].
    destruct (take_entry_split _ _ _ _ _ Ht) as [l1 [k [l2 [Hbuilding [Hothers [Hk _]]]]]].
    apply Nat.eqb_eq in Hk. subst k.
    destruct Hw' as [Hb [Hp [Hf Hr]]].
    assert (Ha : In (Arrives rid request) (trace ++ [DiscoverySettles rid pid o])).
    { apply (Hb rid request b). rewrite Hbuilding. apply in_or_app. right. left. reflexivity. }
    assert (Hrest : forall rid' request' b', In (rid', (request', b')) others ->
                      In (Arrives rid' request') (trace ++ [DiscoverySettles rid pid o])).
    { intros rid' request' b' Hin. apply (Hb rid' request' b'). rewrite Hbuilding.
      subst others. apply in_app_or in Hin as [Hin|Hin]; apply in_or_app;
        [left|right; right]; exact Hin. }
    destruct (build_settle pid o b) as [b' lines].
    destruct (pending b') as [|p ps].
    + unfold build_done. eapply trace_ok_route; [|exact Ha|reflexivity].
      unfold trace_ok. cbn [building parsing forwarding replies]. auto.
    + unfold trace_ok. cbn [building parsing forwarding replies]. repeat split; auto.
      * intros rid' request' b0 [Heq|Hin]; [inversion Heq; subst; exact Ha|eauto].
      * apply (Hp rid0 request0 H).
      * apply (Hp rid0 request0 H).
      * apply (Hr rid0 r H).
      * apply (Hr rid0 r H).
  - destruct (take_entry Nat.eqb rid (parsing w)) as [[request others]|] eqn:Ht; [|exact Hw'].
    destruct (take_entry_split _ _ _ _ _ Ht) as [l1 [k [l2 [Hparsing [Hothers [Hk _]]]]]].
    apply Nat.eqb_eq in Hk. subst k.
    destruct Hw' as [Hb [Hp [Hf Hr]]].
    destruct (Hp rid request) as [Ha Hchat];
      [rewrite Hparsing; apply in_or_app; right; left; reflexivity|].
    assert (Hrest : forall rid' request', In (rid', request') others ->
                      In (Arrives rid' request') (trace ++ [BodyParsed rid])
                      /\ pathname request' = "/v1/chat/completions").
    { intros rid' request' Hin. apply (Hp rid' request'). rewrite Hparsing. subst others.
      apply in_app_or in Hin as [Hin|Hin]; apply in_or_app; [left|right; right]; exact Hin. }
    assert (Hbase : trace_ok (trace ++ [BodyParsed rid])
              {| MODEL_PROVIDER_MAP := MODEL_PROVIDER_MAP w; building := building w;
                 parsing := others; forwarding := forwarding w; network := network w;
                 console := console w; replies := replies w |}).
    { unfold trace_ok. cbn [building parsing forwarding replies]. repeat split; auto.
      - apply (Hrest rid0 request0 H).
      - apply (Hrest rid0 request0 H).
      - apply (Hr rid0 r H).
      - apply (Hr rid0 r H). }
    assert (Hnot : pathname request = "/v1/models" -> False)
      by (rewrite Hchat; discriminate).
    destruct (chat_resolve (MODEL_PROVIDER_MAP w) request) as [[r|[modelId call]]|err] eqn:Hres.
    + apply (trace_ok_reply _ rid request); auto; [|intros H; destruct (Hnot H)].
      intros Heq. inversion Heq; subst r.
      exact (chat_resolve_cases (MODEL_PROVIDER_MAP w) request Hres).
    + destruct Hbase as [Hb' [Hp' [Hf' Hr']]].
      unfold trace_ok. cbn [building parsing forwarding replies]. repeat split; auto.
      * apply (Hp' rid0 request0 H).
      * apply (Hp' rid0 request0 H).
      * intros rid' id [Heq|Hin]; [inversion Heq; subst; eauto|eauto].
      * apply (Hr' rid0 r H).
      * apply (Hr' rid0 r H).
    + apply (trace_ok_reply _ rid request); auto; [discriminate|intros H; destruct (Hnot H)].
  - destruct (take_entry Nat.eqb rid (forwarding w)) as [[modelId others]|] eqn:Ht; [|exact Hw'].
    destruct (take_entry_split _ _ _ _ _ Ht) as [l1 [k [l2 [Hforwarding [Hothers [Hk _]]]]]].
    apply Nat.eqb_eq in Hk. subst k.
    destruct Hw' as [Hb [Hp [Hf Hr]]].
    destruct (Hf rid modelId) as [request [Ha Hchat]];
      [rewrite Hforwarding; apply in_or_app; right; left; reflexivity|].
    apply (trace_ok_reply _ rid request); auto.
    + unfold trace_ok. cbn [building parsing forwarding replies]. repeat split; auto.
      * apply (Hp rid0 request0 H).
      * apply (Hp rid0 request0 H).
      * intros rid' id Hin. apply (Hf rid' id). rewrite Hforwarding. subst others.
        apply in_app_or in Hin as [Hin|Hin]; apply in_or_app; [left|right; right]; exact Hin.
      * apply (Hr rid0 r H).
      * apply (Hr rid0 r H).
    + apply chat_relay_cases.
    + rewrite Hchat. discriminate.
Qed.

Lemma run_trace_ok (registry : list (string * ProviderConfig)) (trace : list event) :
  trace_ok trace (run registry trace cold_start).
Proof.
  induction trace as [|e trace IH] using rev_ind.
  - unfold trace_ok. cbn. repeat split; intros; contradiction.
  - rewrite run_snoc. apply trace_ok_step. exact IH.
Qed.


(** C10. Through [fetch] the 503 of the catalog handler is out of reach: no
    reply of the isolate, to any request in any interleaving, is that
    response, and a request for [/v1/models] that is answered is answered
    200 with the catalog of a table, whose [data] may be empty. The
    builder, for its part, returns a table as soon as its calls have
    settled, even if each of them failed. *)
Theorem catalog_never_unavailable (registry : list (string * ProviderConfig))
    (trace : list event) (rid : nat) (r : completion Response) :
  In (rid, r) (replies (run registry trace cold_start)) ->
  r <> handleModelsRequest None
  /\ ((forall request, In (Arrives rid request) trace -> pathname request = "/v1/models") ->
      exists m data,
        r = Normal {| status := 200; statusText := EmptyString;
                      response_headers := [("Content-Type", "application/json")];
                      response_body :=
                        JsonBody (JObj [("object", JStr "list"); ("data", JArr data)]) |}
        /\ List.length data = Map_size m)
  /\ (NoDup (List.map fst registry) ->
      forall schedule,
        (forall pid config, In (pid, config) registry -> is_dynamic config = true ->
           In pid (List.map fst schedule)) ->
        exists m, buildModelProviderMap registry schedule = Some m).
Proof.
  intros Hin.
  destruct (run_trace_ok registry trace) as [_ [_ [_ Hr]]].
  destruct (Hr rid r Hin) as [Hne [request [Ha Hm]]].
  split; [exact Hne|]. split.
  - intros Hall. destruct (Hm (Hall request Ha)) as [m ->].
    exists m. eexists. split; [apply handleModelsRequest_ready|].
    unfold Map_size. apply length_map.
  - intros Hnd schedule Hall. apply build_returns; assumption.
Qed.


(** * Further properties *)

(** ** The normaliser keeps truthy ids only *)

Lemma filter_Boolean_truthy (l : list (option json)) :
  Forall (fun id => truthy (Some id) = true) (filter_Boolean l).
Proof.
  induction l as [|[v|] l IH]; cbn [filter_Boolean]; auto.
  destruct (truthy (Some v)) eqn:Hv; auto.
Qed.

Lemma filter_Boolean_length (l : list (option json)) :
  (List.length (filter_Boolean l) <= List.length l)%nat.
Proof.
  induction l as [|[v|] l IH]; cbn [filter_Boolean List.length]; auto.
  destruct (truthy (Some v)); cbn [List.length]; lia.
Qed.

Lemma first_present_truthy (fields : list string) (entry v : json) :
  first_present fields entry = Some v -> truthy (Some v) = true.
Proof.
  induction fields as [|p rest IH]; cbn [first_present]; [discriminate|].
  destruct (truthy (field_of entry p)) eqn:Hp; [|exact IH].
  intros H. rewrite H in Hp. exact Hp.
Qed.

Lemma extract_truthy (fields : list string) (entries : list json) :
  Forall (fun id => truthy (Some id) = true) (extract fields entries).
Proof.
  unfold extract. induction entries as [|entry rest IH]; cbn [flat_map]; [constructor|].
  apply Forall_app. split; [|exact IH].
  destruct (first_present fields entry) as [v|] eqn:Hv; [|constructor].
  constructor; [|constructor]. eapply first_present_truthy; eauto.
Qed.

Lemma extract_length (fields : list string) (entries : list json) :
  (List.length (extract fields entries) <= List.length entries)%nat.
Proof.
  unfold extract. induction entries as [|entry rest IH]; cbn [flat_map List.length]; [lia|].
  rewrite length_app. destruct (first_present fields entry); cbn [List.length]; lia.
Qed.

Lemma spec_models_extract (data : json) :
  exists fields, spec_models data = extract fields (selected_entries data).
Proof.
  destruct data as [| b | n | s | entries | members]; try (exists []; reflexivity).
  - exists ["id"; "name"]. reflexivity.
  - cbn [spec_models selected_entries].
    destruct (own_property members "data") as [[| | | | l |]|];
      try (exists ["id"]; reflexivity);
      destruct (own_property members "models") as [[| | | | l' |]|];
      try (exists ["name"]; reflexivity); exists []; reflexivity.
Qed.

(** X1. Whatever the payload, a list the normaliser returns holds truthy
    ids only (no [null], [false], [0] or empty string becomes a model id)
    and at most one id for each entry of the array it read. *)
Theorem normalizer_ids_truthy (data : json) (ids : list json) :
  normalizeModelList data = Normal ids ->
  Forall (fun id => truthy (Some id) = true) ids
  /\ (List.length ids <= List.length (selected_entries data))%nat.
Proof.
  intros H. destruct (reads_null data) eqn:Hnull.
  - destruct (normalize_throws data Hnull) as [p Hp]. congruence.
  - rewrite (normalize_refines data Hnull) in H. inversion H; subst ids.
    destruct (spec_models_extract data) as [fields ->].
    split; [apply extract_truthy|apply extract_length].
Qed.

(** ** The keys of a table are distinct *)

Lemma Map_set_keys (k : json) (v : providerInfo) (m : Map) (k' : json) (v' : providerInfo) :
  In (k', v') (Map_set k v m) -> (exists v0, In (k', v0) m) \/ k' = k.
Proof.
  induction m as [|[k0 v0] rest IH]; cbn [Map_set].
  - intros [H|[]]. right. congruence.
  - destruct (same_value_zero k0 k).
    + intros [H|H]; left; [inversion H; subst; exists v0; left; reflexivity|].
      exists v'. right. exact H.
    + intros [H|H]; [left; exists v'; left; exact H|].
      destruct (IH H) as [[v1 H1]|H1]; [left; exists v1; right; exact H1|right; exact H1].
Qed.

Lemma Map_set_distinct (k : json) (v : providerInfo) (m : Map) :
  keys_distinct m -> keys_distinct (Map_set k v m).
Proof.
  induction m as [|[k0 v0] rest IH]; cbn [Map_set keys_distinct].
  - intros _. split; [intros ? ? []|exact I].
  - intros [Hk Hrest]. destruct (same_value_zero k0 k) eqn:Hsame; cbn [keys_distinct].
    + split; assumption.
    + split; [|apply IH, Hrest].
      intros k' v' Hin. destruct (Map_set_keys _ _ _ _ _ Hin) as [[v1 H1]| ->]; eauto.
Qed.

Lemma register_distinct (pid : string) (config : ProviderConfig) (ids : list json) (m : Map) :
  keys_distinct m -> keys_distinct (register pid config ids m).
Proof.
  unfold register. revert m. induction ids as [|k ids IH]; intros m H; [exact H|].
  cbn [fold_left]. apply IH, Map_set_distinct, H.
Qed.

Lemma register_static_distinct (entries : list (string * ProviderConfig)) (m : Map) :
  keys_distinct m -> keys_distinct (register_static entries m).
Proof.
  unfold register_static. revert m.
  induction entries as [|[pid config] rest IH]; intros m H; [exact H|].
  cbn [fold_left fst snd]. apply IH, register_distinct, H.
Qed.

Lemma settle_distinct (schedule : list (string * fetch_outcome)) (b : Build) :
  keys_distinct (map b) -> keys_distinct (map (fst (settle_in_order schedule b))).
Proof.
  revert b. induction schedule as [|[q o] rest IH]; intros b H; [exact H|].
  cbn [settle_in_order].
  destruct (build_settle q o b) as [b1 lines1] eqn:Hb1.
  assert (H1 : keys_distinct (map b1)).
  { unfold build_settle in Hb1.
    destruct (take_pending q (pending b)) as [[config p]|]; [|inversion Hb1; subst; exact H].
    unfold task_settle, task_body in Hb1.
    destruct (discover o) as [found|e]; cbn [bind] in Hb1; inversion Hb1; subst b1; cbn [map].
    - apply register_distinct, H.
    - exact H. }
  specialize (IH b1 H1). destruct (settle_in_order rest b1) as [b2 lines2]. exact IH.
Qed.

Lemma keys_distinct_nth (m : Map) (i j : nat) (ki kj : json) (vi vj : providerInfo) :
  keys_distinct m -> (i < j)%nat ->
  nth_error m i = Some (ki, vi) -> nth_error m j = Some (kj, vj) ->
  same_value_zero ki kj = false.
Proof.
  revert i j. induction m as [|[k v] rest IH]; intros i j Hd Hlt Hi Hj.
  - destruct i; discriminate Hi.
  - destruct Hd as [Hk Hrest]. destruct j as [|j]; [lia|]. cbn [nth_error] in Hj.
    destruct i as [|i]; cbn [nth_error] in Hi.
    + inversion Hi; subst. apply (Hk kj vj). eapply nth_error_In; eauto.
    + apply (IH i j Hrest); [lia|assumption..].
Qed.

(** X2. The table the builder returns holds every key once: no key is
    SameValueZero-equal to the key of a later entry, and a string id
    stands at one position only, so the catalog lists it once. *)
Theorem built_keys_distinct (registry : list (string * ProviderConfig))
    (schedule : list (string * fetch_outcome)) (m : Map) :
  buildModelProviderMap registry schedule = Some m ->
  (forall i j ki kj vi vj, (i < j)%nat ->
     nth_error m i = Some (ki, vi) -> nth_error m j = Some (kj, vj) ->
     same_value_zero ki kj = false)
  /\ (forall i j s vi vj,
        nth_error m i = Some (JStr s, vi) -> nth_error m j = Some (JStr s, vj) -> i = j).
Proof.
  unfold buildModelProviderMap. intros H.
  destruct (pending _); [|discriminate]. inversion H; subst m. clear H.
  assert (Hd : keys_distinct
                 (map (fst (settle_in_order schedule (fst (start_tasks registry new_build)))))).
  { apply settle_distinct. rewrite start_tasks_spec. cbn [fst map new_build].
    apply register_static_distinct. exact I. }
  split.
  - intros i j ki kj vi vj Hlt Hi Hj. eapply keys_distinct_nth; eauto.
  - intros i j s vi vj Hi Hj.
    destruct (Nat.lt_trichotomy i j) as [Hlt|[Heq|Hgt]]; [|exact Heq|].
    + pose proof (keys_distinct_nth _ i j _ _ _ _ Hd Hlt Hi Hj) as Hne.
      cbn [same_value_zero] in Hne. rewrite String.eqb_refl in Hne. discriminate Hne.
    + pose proof (keys_distinct_nth _ j i _ _ _ _ Hd Hgt Hj Hi) as Hne.
      cbn [same_value_zero] in Hne. rewrite String.eqb_refl in Hne. discriminate Hne.
Qed.


(** ** Who owns a model id *)

Lemma settle_in_order_app (s1 s2 : list (string * fetch_outcome)) (b : Build) :
  fst (settle_in_order (s1 ++ s2) b)
  = fst (settle_in_order s2 (fst (settle_in_order s1 b))).
Proof.
  revert b. induction s1 as [|[q o] rest IH]; intros b; [reflexivity|].
  cbn [app settle_in_order]. destruct (build_settle q o b) as [b1 lines1].
  specialize (IH b1).
  destruct (settle_in_order (rest ++ s2) b1) as [b2 lines2].
  destruct (settle_in_order rest b1) as [b3 lines3]. exact IH.
Qed.

Lemma settle_in_order_cons (q : string) (o : fetch_outcome)
    (rest : list (string * fetch_outcome)) (b : Build) :
  fst (settle_in_order ((q, o) :: rest) b)
  = fst (settle_in_order rest (fst (build_settle q o b))).
Proof.
  cbn [settle_in_order]. destruct (build_settle q o b) as [b1 lines1]. cbn [fst].
  destruct (settle_in_order rest b1) as [b2 lines2]. reflexivity.
Qed.

Lemma register_static_owner_lists (entries : list (string * ProviderConfig)) (m : Map)
    (s : string) (info : providerInfo) :
  Map_get (register_static entries m) (JStr s) = Some info ->
  Map_get m (JStr s) = Some info
  \/ exists pid config, In (pid, config) entries /\ In (JStr s) (static_ids config)
                        /\ info = info_of pid config.
Proof.
  unfold register_static. revert m.
  induction entries as [|[q c] rest IH]; cbn [fold_left fst snd]; intros m H; [left; exact H|].
  destruct (IH _ H) as [H'|[pid [config [Hin [Hid Hinfo]]]]].
  - rewrite register_get in H'.
    destruct (existsb (fun k => same_value_zero k (JStr s)) (static_ids c)) eqn:He.
    + right. exists q, c. apply existsb_string in He. inversion H'; subst.
      repeat split; auto. left. reflexivity.
    + left. exact H'.
  - right. exists pid, config. repeat split; auto. right. exact Hin.
Qed.

Lemma settle_owner_lists (schedule : list (string * fetch_outcome)) (b : Build)
    (s : string) (info : providerInfo) :
  Map_get (map (fst (settle_in_order schedule b))) (JStr s) = Some info ->
  Map_get (map b) (JStr s) = Some info
  \/ exists pid config o found,
       In (pid, config) (pending b) /\ In (pid, o) schedule
       /\ discover o = Normal found /\ In (JStr s) found /\ info = info_of pid config.
Proof.
  revert b. induction schedule as [|[q o] rest IH]; intros b; [left; assumption|].
  rewrite settle_in_order_cons. intros H.
  unfold build_settle in H.
  destruct (take_pending q (pending b)) as [[config p]|] eqn:Ht.
  - destruct (take_pending_in _ _ _ _ Ht) as [Hq Hp].
    unfold task_settle, task_body in H.
    destruct (discover o) as [found|e] eqn:Ho; cbn [bind fst] in H;
      destruct (IH _ H) as [H'|[pid [c [o' [f' [Hin [Hs [Hd [Hf Hi]]]]]]]]];
      cbn [map pending] in *.
    + rewrite register_get in H'.
      destruct (existsb (fun k => same_value_zero k (JStr s)) found) eqn:He.
      * right. exists q, config, o, found. apply existsb_string in He.
        inversion H'; subst. repeat split; auto. left. reflexivity.
      * left. exact H'.
    + right. exists pid, c, o', f'. repeat split; auto. right. exact Hs.
    + left. exact H'.
    + right. exists pid, c, o', f'. repeat split; auto. right. exact Hs.
  - cbn [fst] in H.
    destruct (IH _ H) as [H'|[pid [c [o' [f' [Hin [Hs [Hd [Hf Hi]]]]]]]]]; [left; exact H'|].
    right. exists pid, c, o', f'. repeat split; auto. right. exact Hs.
Qed.

(** The owner of a string id in a built table emitted it. *)
Lemma built_owner_emitted (registry : list (string * ProviderConfig))
    (schedule : list (string * fetch_outcome)) (m : Map) (s : string) (info : providerInfo) :
  buildModelProviderMap registry schedule = Some m ->
  Map_get m (JStr s) = Some info ->
  exists config,
    In (providerId info, config) registry
    /\ info = info_of (providerId info) config
    /\ (In (JStr s) (static_ids config)
        \/ (is_dynamic config = true
            /\ exists o found, In (providerId info, o) schedule
                               /\ discover o = Normal found /\ In (JStr s) found)).
Proof.
  unfold buildModelProviderMap. intros Hb Hget.
  destruct (pending _); [|discriminate]. inversion Hb; subst m. clear Hb.
  apply settle_owner_lists in Hget. rewrite start_tasks_spec in Hget.
  cbn [fst map pending new_build app] in Hget.
  destruct Hget as [Hget|[pid [config [o [found [Hp [Hs [Hd [Hf Hi]]]]]]]]].
  - apply register_static_owner_lists in Hget
      as [Hget|[pid [config [Hin [Hid Hinfo]]]]]; [discriminate Hget|].
    subst info. exists config. cbn [info_of providerId]. auto.
  - subst info. unfold dynamic_entries in Hp. apply filter_In in Hp as [Hp Hdyn].
    cbn [snd] in Hdyn. exists config. cbn [info_of providerId].
    repeat split; auto. right. split; [exact Hdyn|]. eauto.
Qed.

Lemma pending_taken (registry : list (string * ProviderConfig)) (b : Build)
    (q : string) (c : ProviderConfig) :
  NoDup (List.map fst registry) -> build_ok registry b -> In (q, c) (pending b) ->
  exists rest, take_pending q (pending b) = Some (c, rest).
Proof.
  intros Hnd [_ Hincl] Hin.
  destruct (take_pending q (pending b)) as [[c' rest]|] eqn:Ht.
  - destruct (take_pending_in _ _ _ _ Ht) as [Hc' _].
    assert (c' = c) by (eapply NoDup_keys_unique; eauto). subst c'. eauto.
  - pose proof (proj1 (take_entry_none _ _ _) Ht q c Hin) as Hq.
    rewrite String.eqb_refl in Hq. discriminate Hq.
Qed.

(** The table right after the call of [q] settled with [found], the calls
    of [before] having settled first. *)
Lemma settled_discovery_registers (registry : list (string * ProviderConfig))
    (before : list (string * fetch_outcome)) (q : string) (c : ProviderConfig)
    (o : fetch_outcome) (found : list json) :
  NoDup (List.map fst registry) ->
  In (q, c) registry -> is_dynamic c = true ->
  ~ In q (List.map fst before) -> discover o = Normal found ->
  map (fst (build_settle q o
              (fst (settle_in_order before (fst (start_tasks registry new_build))))))
  = register q c found
      (map (fst (settle_in_order before (fst (start_tasks registry new_build))))).
Proof.
  intros Hnd Hin Hdyn Hnot Ho.
  set (b1 := fst (settle_in_order before (fst (start_tasks registry new_build)))).
  assert (Hok : build_ok registry b1)
    by (apply settle_in_order_ok, start_tasks_ok).
  assert (Hpend : In (q, c) (pending b1)).
  { apply settle_keeps_unsettled; [|exact Hnot].
    rewrite start_tasks_spec. cbn [fst pending new_build app].
    apply filter_In. split; assumption. }
  destruct (pending_taken registry b1 q c Hnd Hok Hpend) as [rest Ht].
  unfold build_settle. rewrite Ht. unfold task_settle, task_body. rewrite Ho. reflexivity.
Qed.

Lemma schedule_split (schedule : list (string * fetch_outcome)) (q : string) (o : fetch_outcome) :
  NoDup (List.map fst schedule) -> In (q, o) schedule ->
  exists before after,
    schedule = (before ++ (q, o) :: after)%list /\ ~ In q (List.map fst before).
Proof.
  intros Hnd Hin. destruct (in_split _ _ Hin) as [before [after ->]].
  exists before, after. split; [reflexivity|].
  rewrite map_app in Hnd. cbn [List.map fst] in Hnd.
  apply NoDup_remove_2 in Hnd. intros H. apply Hnd, in_or_app. left. exact H.
Qed.

Lemma emitted_is_key (registry : list (string * ProviderConfig))
    (schedule : list (string * fetch_outcome)) (m : Map) (s : string) (pid : string) :
  NoDup (List.map fst registry) -> NoDup (List.map fst schedule) ->
  buildModelProviderMap registry schedule = Some m ->
  lists registry schedule pid (JStr s) -> Map_get m (JStr s) <> None.
Proof.
  intros Hr Hs Hb [config [Hin [Hstatic|[Hdyn [o [found [Ho [Hd Hf]]]]]]]];
    unfold buildModelProviderMap in Hb;
    destruct (pending _); try discriminate; inversion Hb; subst m; clear Hb.
  - apply settle_keeps_key. rewrite start_tasks_spec. cbn [fst map new_build].
    eapply register_static_key; eauto.
  - destruct (schedule_split schedule pid o Hs Ho) as [before [after [-> Hnot]]].
    rewrite settle_in_order_app, settle_in_order_cons. apply settle_keeps_key.
    rewrite (settled_discovery_registers registry before pid config o found) by assumption.
    rewrite register_get_in by exact Hf. discriminate.
Qed.

(** C3. Whatever the providers (their ids distinct, as the keys of an
    object are) and whatever the outcome of each discovery call, once every
    call has settled the builder returns a table: it never fails. While a
    call is unsettled it does not return. Every string id that a provider
    emits, from its static list or from a discovery that succeeded, is a
    key of the table, whichever other providers failed, and the owner of a
    string key is a provider that emitted it. A provider whose call
    rejects or answers a non-success status, or whose body or payload
    cannot be read, contributes nothing: no entry names it, and the table
    is the one built from the registry without it, so the registrations of
    all the others are there. *)
Theorem build_tolerates_failures (registry : list (string * ProviderConfig))
    (schedule : list (string * fetch_outcome)) :
  NoDup (List.map fst registry) -> NoDup (List.map fst schedule) ->
  (forall pid config, In (pid, config) registry -> is_dynamic config = true ->
     In pid (List.map fst schedule)) ->
  exists m,
    buildModelProviderMap registry schedule = Some m
    /\ (forall prefix, (exists pid config, In (pid, config) registry /\ is_dynamic config = true
                                           /\ ~ In pid (List.map fst prefix)) ->
          buildModelProviderMap registry prefix = None)
    /\ (forall o, fetch_fails o = true -> exists e, discover o = Throw e)
    /\ (forall pid config o e,
          In (pid, config) registry -> is_dynamic config = true ->
          In (pid, o) schedule -> discover o = Throw e ->
          (forall id info, In (id, info) m -> providerId info <> pid)
          /\ buildModelProviderMap (without pid registry) schedule = Some m)
    /\ (forall pid s, lists registry schedule pid (JStr s) -> Map_get m (JStr s) <> None)
    /\ (forall s info, Map_get m (JStr s) = Some info ->
          lists registry schedule (providerId info) (JStr s)).
Proof.
  intros Hr Hs Hall.
  destruct (build_returns registry schedule Hr Hall) as [m Hm].
  exists m. split; [exact Hm|]. split; [|split; [|split; [|split]]].
  - intros prefix [pid [config [Hin [Hdyn Hnot]]]]. eapply build_waits; eauto.
  - exact fetch_fails_discover.
  - intros pid config o e Hin Hdyn Ho He. split.
    + eapply failed_provider_absent; eauto.
    + apply failed_provider_is_absent; [| |exact Hm].
      * intros c Hc. assert (c = config) by (eapply NoDup_keys_unique; eauto).
        subst c. exact Hdyn.
      * intros o' Ho'. assert (o' = o) by (eapply NoDup_keys_unique; eauto).
        subst o'. eauto.
  - intros pid s Hlists. exact (emitted_is_key registry schedule m s pid Hr Hs Hm Hlists).
  - intros s info Hget.
    destruct (built_owner_emitted registry schedule m s info Hm Hget)
      as [config [Hin [_ Hkind]]].
    exists config. split; assumption.
Qed.


(** X3. Whatever the requests and the interleaving, a string model id is
    only ever routed to a provider that emitted it: the entry of the id in
    the table an isolate holds is copied from a descriptor of the registry
    whose static list holds the id, or whose discovery call settled, in the
    build that made the table, with a list holding it. *)
Theorem owner_emitted_model (registry : list (string * ProviderConfig))
    (trace : list event) (m : Map) (s : string) (info : providerInfo) :
  NoDup (List.map fst registry) ->
  MODEL_PROVIDER_MAP (run registry trace cold_start) = Some m ->
  Map_get m (JStr s) = Some info ->
  exists schedule config,
    settled_by trace schedule
    /\ buildModelProviderMap registry schedule = Some m
    /\ In (providerId info, config) registry
    /\ info = info_of (providerId info) config
    /\ (In (JStr s) (static_ids config)
        \/ (is_dynamic config = true
            /\ exists o found, In (providerId info, o) schedule
                               /\ discover o = Normal found /\ In (JStr s) found)).
Proof.
  intros Hnd Hm Hget.
  destruct (installed_table_built registry trace m Hnd Hm) as [schedule [_ [Hs Hb]]].
  destruct (built_owner_emitted registry schedule m s info Hb Hget)
    as [config [Hin [Hcopy Hkind]]].
  exists schedule, config. auto.
Qed.

(** X4. The keys of a built table are the union of what the providers
    emitted: a string id is a key if and only if the static list of some
    provider holds it or the discovery call of some provider settled with a
    list holding it. Which ids are keys does not depend on the order in
    which the calls settle. *)
Theorem key_iff_emitted (registry : list (string * ProviderConfig))
    (schedule : list (string * fetch_outcome)) (m : Map) (s : string) :
  NoDup (List.map fst registry) -> NoDup (List.map fst schedule) ->
  buildModelProviderMap registry schedule = Some m ->
  Map_get m (JStr s) <> None <-> exists pid, lists registry schedule pid (JStr s).
Proof.
  intros Hr Hs Hb. split.
  - intros Hget. destruct (Map_get m (JStr s)) as [info|] eqn:Hinfo; [|congruence].
    destruct (built_owner_emitted registry schedule m s info Hb Hinfo)
      as [config [Hin [_ Hkind]]].
    exists (providerId info), config. split; assumption.
  - intros [pid Hlists]. eapply emitted_is_key; eauto.
Qed.

(** X5. Last writer wins among discoveries: when the call of a provider
    settles with a list holding a string id, and no call that settles
    later gives a list holding it, the id is routed to that provider,
    whatever static list or earlier discovery held it too. *)
Theorem last_discovery_owns (registry : list (string * ProviderConfig))
    (before after : list (string * fetch_outcome)) (m : Map)
    (q : string) (c : ProviderConfig) (o : fetch_outcome) (found : list json) (s : string) :
  NoDup (List.map fst registry) ->
  In (q, c) registry -> is_dynamic c = true ->
  ~ In q (List.map fst before) ->
  discover o = Normal found -> In (JStr s) found ->
  (forall q' o' found', In (q', o') after -> discover o' = Normal found' ->
     ~ In (JStr s) found') ->
  buildModelProviderMap registry (before ++ (q, o) :: after) = Some m ->
  Map_get m (JStr s) = Some (info_of q c).
Proof.
  intros Hr Hin Hdyn Hnot Ho Hf Hafter Hb.
  unfold buildModelProviderMap in Hb.
  destruct (pending _); [|discriminate]. inversion Hb; subst m. clear Hb.
  rewrite settle_in_order_app, settle_in_order_cons.
  apply settle_keeps_owner; [exact Hafter|].
  rewrite (settled_discovery_registers registry before q c o found) by assumption.
  apply register_get_in, Hf.
Qed.

Lemma register_static_keeps_owner (entries : list (string * ProviderConfig)) (m : Map)
    (s : string) (v : providerInfo) :
  (forall q c, In (q, c) entries -> ~ In (JStr s) (static_ids c)) ->
  Map_get m (JStr s) = Some v ->
  Map_get (register_static entries m) (JStr s) = Some v.
Proof.
  unfold register_static. revert m.
  induction entries as [|[q c] rest IH]; intros m Hnone H; [exact H|].
  cbn [fold_left fst snd]. apply IH.
  - intros q' c' Hin. apply (Hnone q' c'). right. exact Hin.
  - rewrite register_get_notin; [exact H|]. apply (Hnone q c). left. reflexivity.
Qed.

(** X6. Last writer wins among static lists: when several static lists
    hold a string id and no discovery gives it, the id is routed to the
    last of these providers in the order of the registry. *)
Theorem last_static_owns (earlier later : list (string * ProviderConfig))
    (schedule : list (string * fetch_outcome)) (m : Map)
    (pid : string) (config : ProviderConfig) (s : string) :
  In (JStr s) (static_ids config) ->
  (forall q c, In (q, c) later -> ~ In (JStr s) (static_ids c)) ->
  (forall q o found, In (q, o) schedule -> discover o = Normal found ->
     ~ In (JStr s) found) ->
  buildModelProviderMap (earlier ++ (pid, config) :: later) schedule = Some m ->
  Map_get m (JStr s) = Some (info_of pid config).
Proof.
  intros Hid Hlater Hnone Hb. unfold buildModelProviderMap in Hb.
  destruct (pending _); [|discriminate]. inversion Hb; subst m. clear Hb.
  apply settle_keeps_owner; [exact Hnone|].
  rewrite start_tasks_spec. cbn [fst map new_build].
  unfold register_static. rewrite fold_left_app. cbn [fold_left fst snd].
  apply (register_static_keeps_owner later); [exact Hlater|].
  apply register_get_in, Hid.
Qed.


(** ** The console of the builder *)

Lemma task_settle_line (pid : string) (config : ProviderConfig) (o : fetch_outcome) (m : Map) :
  snd (task_settle pid config o m) = error_line (pid, o).
Proof.
  unfold task_settle, task_body, error_line. cbn [fst snd].
  destruct (discover o); reflexivity.
Qed.

Lemma settle_console (schedule : list (string * fetch_outcome)) (b : Build) :
  NoDup (List.map fst schedule) ->
  (forall pid, In pid (List.map fst schedule) -> In pid (List.map fst (pending b))) ->
  snd (settle_in_order schedule b) = flat_map error_line schedule.
Proof.
  revert b. induction schedule as [|[q o] rest IH]; intros b Hnd Hall; [reflexivity|].
  inversion Hnd as [|? ? Hq Hrest]; subst.
  cbn [settle_in_order flat_map].
  assert (Hin : In q (List.map fst (pending b))) by (apply Hall; left; reflexivity).
  apply in_map_iff in Hin as [[q' c] [Heq Hin]]. cbn [fst] in Heq. subst q'.
  destruct (take_pending q (pending b)) as [[config p]|] eqn:Ht.
  - unfold build_settle. rewrite Ht.
    pose proof (task_settle_line q config o (map b)) as Hline.
    destruct (task_settle q config o (map b)) as [m lines]. cbn [snd] in Hline.
    specialize (IH {| map := m; pending := p |} Hrest).
    destruct (settle_in_order rest {| map := m; pending := p |}) as [b2 lines2].
    cbn [snd] in *. rewrite Hline, IH; [reflexivity|].
    intros pid Hpid. cbn [pending].
    destruct (take_entry_split _ _ _ _ _ Ht) as [l1 [k [l2 [Hb [-> [Hk _]]]]]].
    apply String.eqb_eq in Hk. subst k.
    assert (Hp : In pid (List.map fst (pending b))) by (apply Hall; right; exact Hpid).
    rewrite Hb, map_app in Hp. rewrite map_app.
    apply in_app_or in Hp as [Hp|[Hp|Hp]]; apply in_or_app; [left; exact Hp| |right; exact Hp].
    cbn [fst] in Hp. subst pid. contradiction.
  - pose proof (proj1 (take_entry_none _ _ _) Ht q c Hin) as Hq'.
    rewrite String.eqb_refl in Hq'. discriminate Hq'.
Qed.

(** X7. The console of a build tells exactly which discoveries failed: in
    the order in which the calls settle, each call whose discovery threw
    adds one line, naming the provider and the message of the error, and a
    call that gave a list adds none. *)
Theorem console_lists_failures (registry : list (string * ProviderConfig))
    (schedule : list (string * fetch_outcome)) :
  NoDup (List.map fst schedule) ->
  (forall pid, In pid (List.map fst schedule) ->
     exists config, In (pid, config) registry /\ is_dynamic config = true) ->
  build_console registry schedule = flat_map error_line schedule.
Proof.
  intros Hnd Hall. unfold build_console. apply settle_console; [exact Hnd|].
  intros pid Hpid. destruct (Hall pid Hpid) as [config [Hin Hdyn]].
  rewrite start_tasks_spec. cbn [fst pending new_build app].
  apply in_map_iff. exists (pid, config). split; [reflexivity|].
  apply filter_In. split; assumption.
Qed.

(** ** The chat handler: when it calls upstream *)

Lemma chat_resolve_call (m : Map) (request : Request) (id : json) (call : Fetch) :
  chat_resolve (Some m) request = Normal (inr (id, call)) ->
  exists v info,
    body request = Normal v /\ field_of v "model" = Some id /\ truthy (Some id) = true
    /\ Map_get m id = Some info /\ call = upstream_request info v.
Proof.
  unfold chat_resolve. destruct (body request) as [v|e]; cbn [bind]; [|discriminate].
  destruct (is_null v) eqn:Hnull; [destruct v; try discriminate Hnull; discriminate|].
  rewrite (get_property_field v "model" Hnull). cbn [bind].
  destruct (field_of v "model") as [model|] eqn:Hmodel; [|discriminate].
  destruct (truthy (Some model)) eqn:Ht; cbn [negb]; [|discriminate].
  destruct (Map_get m model) as [info|] eqn:Hget;
    [|destruct (js_to_string model); cbn [bind]; [|discriminate];
      destruct (new_Response _ _ _ _); discriminate].
  intros H. inversion H; subst. exists v, info. auto.
Qed.

(** X8. The chat handler calls upstream at most once, and it does so if
    and only if the request passes the four checks: any other request,
    whatever its body, headers or model, reaches no upstream. *)
Theorem upstream_call_iff_dispatched (m : Map) (request : Request) (upstream : upstream_outcome) :
  (List.length (snd (handleChatCompletionRequest (Some m) request upstream)) <= 1)%nat
  /\ (snd (handleChatCompletionRequest (Some m) request upstream) <> []
      <-> exists v id info, dispatched m request v id info).
Proof.
  split.
  - unfold handleChatCompletionRequest. destruct (chat_checks request); [cbn; lia|].
    destruct (chat_resolve (Some m) request) as [[r|[id call]]|e]; cbn; lia.
  - split.
    + unfold handleChatCompletionRequest.
      destruct (chat_checks request) as [r|] eqn:Hc; [intros H; exfalso; apply H; reflexivity|].
      destruct (chat_checks_none request Hc) as [Hm Ha].
      destruct (chat_resolve (Some m) request) as [[r|[id call]]|e] eqn:Hr;
        try (intros H; exfalso; apply H; reflexivity).
      intros _. destruct (chat_resolve_call m request id call Hr)
        as [v [info [Hv [Hmodel [Ht [Hget _]]]]]].
      exists v, id, info. unfold dispatched. auto 10.
    + intros [v [id [info Hd]]]. rewrite (dispatched_handle m request v id info upstream Hd).
      discriminate.
Qed.


(** ** The chat handler through the entry point *)

(** X9. On an isolate whose table is set, a chat request that enters
    [fetch], has its body read and its upstream call settled gets exactly
    the completion of the chat handler, and the network sees exactly the
    handler's calls; the table is left as it was. *)
Theorem chat_through_fetch (registry : list (string * ProviderConfig)) (w : Worker) (m : Map)
    (rid : nat) (request : Request) (upstream : upstream_outcome) :
  MODEL_PROVIDER_MAP w = Some m ->
  pathname request = "/v1/chat/completions" ->
  take_entry Nat.eqb rid (parsing w) = None ->
  take_entry Nat.eqb rid (forwarding w) = None ->
  let w' := run registry [Arrives rid request; BodyParsed rid; UpstreamSettles rid upstream] w in
  replies w'
  = (replies w ++ [(rid, fst (handleChatCompletionRequest (Some m) request upstream))])%list
  /\ network w'
     = (network w ++ snd (handleChatCompletionRequest (Some m) request upstream))%list
  /\ MODEL_PROVIDER_MAP w' = Some m.
Proof.
  intros Hm Hpath Hparsing Hforwarding. cbv zeta.
  unfold run. cbn [fold_left]. cbn [step]. unfold arrive. rewrite Hm.
  unfold route. rewrite Hpath. cbn [String.eqb Ascii.eqb Bool.eqb].
  unfold handleChatCompletionRequest.
  destruct (chat_checks request) as [r|].
  - cbn [step reply parsing forwarding]. rewrite Hparsing. cbn [step forwarding reply].
    rewrite Hforwarding. cbn [replies network MODEL_PROVIDER_MAP fst snd].
    rewrite app_nil_r. auto.
  - cbn [step parsing take_entry]. rewrite Nat.eqb_refl. cbn [MODEL_PROVIDER_MAP]. rewrite Hm.
    destruct (chat_resolve (Some m) request) as [[r|[id call]]|e].
    + cbn [reply step forwarding]. rewrite Hforwarding.
      cbn [replies network MODEL_PROVIDER_MAP fst snd]. rewrite app_nil_r. auto.
    + cbn [step forwarding take_entry]. rewrite Nat.eqb_refl.
      cbn [reply replies network MODEL_PROVIDER_MAP fst snd]. auto.
    + cbn [reply step forwarding]. rewrite Hforwarding.
      cbn [replies network MODEL_PROVIDER_MAP fst snd]. rewrite app_nil_r. auto.
Qed.


(** ** The warm isolate *)

Lemma warm_step (registry : list (string * ProviderConfig)) (w : Worker) (m : Map) (e : event) :
  MODEL_PROVIDER_MAP w = Some m -> building w = [] ->
  MODEL_PROVIDER_MAP (step registry w e) = Some m
  /\ building (step registry w e) = []
  /\ (network (step registry w e) = network w
      \/ exists call, upstream_call_of m call
                      /\ network (step registry w e) = (network w ++ [call])%list).
Proof.
  intros Hm Hb. destruct e as [rid request|rid pid o|rid|rid o]; cbn [step].
  - unfold arrive. rewrite Hm.
    destruct (route_global rid request w) as [-> [-> ->]]. auto.
  - rewrite Hb. cbn [take_entry]. auto.
  - destruct (take_entry Nat.eqb rid (parsing w)) as [[request others]|]; [|auto].
    rewrite Hm.
    destruct (chat_resolve (Some m) request) as [[r|[id call]]|err] eqn:Hr;
      cbn [reply MODEL_PROVIDER_MAP building network]; auto.
    repeat split; auto. right. exists call. split; [|reflexivity].
    destruct (chat_resolve_call m request id call Hr) as [v [info [_ [_ [_ [Hget ->]]]]]].
    exists id, info, v. split; [exact Hget|reflexivity].
  - destruct (take_entry Nat.eqb rid (forwarding w)) as [[modelId others]|]; auto.
Qed.

Lemma warm_run (registry : list (string * ProviderConfig))
    (trace : list event) (w : Worker) (m : Map) :
  MODEL_PROVIDER_MAP w = Some m -> building w = [] ->
  MODEL_PROVIDER_MAP (run registry trace w) = Some m
  /\ building (run registry trace w) = []
  /\ exists calls,
       network (run registry trace w) = (network w ++ calls)%list
       /\ Forall (upstream_call_of m) calls.
Proof.
  revert w. induction trace as [|e trace IH]; intros w Hm Hb.
  - repeat split; auto. exists []. rewrite app_nil_r. auto.
  - unfold run. cbn [fold_left]. fold (run registry trace (step registry w e)).
    destruct (warm_step registry w m e Hm Hb) as [Hm' [Hb' Hn]].
    destruct (IH _ Hm' Hb') as [Hm'' [Hb'' [calls [Hcalls Hall]]]].
    repeat split; auto.
    destruct Hn as [Hn|[call [Hcall Hn]]]; rewrite Hn in Hcalls.
    + exists calls. auto.
    + exists (call :: calls). rewrite <- app_assoc in Hcalls. auto.
Qed.

Lemma run_app (registry : list (string * ProviderConfig)) (t1 t2 : list event) (w : Worker) :
  run registry (t1 ++ t2) w = run registry t2 (run registry t1 w).
Proof. unfold run. apply fold_left_app. Qed.

(** X10. Once an isolate holds a table and no build is in flight, it is
    warm for good: whatever arrives and settles afterwards, the table stays
    the same table, no build starts, and every further network call is the
    upstream request of a chat for an entry of that table. No discovery
    endpoint is queried again. *)
Theorem warm_isolate_stays_warm (registry : list (string * ProviderConfig))
    (trace later : list event) (m : Map) :
  MODEL_PROVIDER_MAP (run registry trace cold_start) = Some m ->
  building (run registry trace cold_start) = [] ->
  MODEL_PROVIDER_MAP (run registry (trace ++ later) cold_start) = Some m
  /\ building (run registry (trace ++ later) cold_start) = []
  /\ exists calls,
       network (run registry (trace ++ later) cold_start)
       = (network (run registry trace cold_start) ++ calls)%list
       /\ Forall (upstream_call_of m) calls.
Proof.
  intros Hm Hb. rewrite run_app. apply warm_run; assumption.
Qed.

(** ** A cold start, end to end *)

Lemma run_cons (registry : list (string * ProviderConfig)) (e : event) (trace : list event)
    (w : Worker) :
  run registry (e :: trace) w = run registry trace (step registry w e).
Proof. reflexivity. Qed.

Lemma settles_cons (rid : nat) (q : string) (o : fetch_outcome)
    (rest : list (string * fetch_outcome)) :
  settles rid ((q, o) :: rest) = DiscoverySettles rid q o :: settles rid rest.
Proof. reflexivity. Qed.

Lemma settle_idle (schedule : list (string * fetch_outcome)) (b : Build) :
  pending b = [] -> settle_in_order schedule b = (b, []).
Proof.
  intros Hp. induction schedule as [|[q o] rest IH]; [reflexivity|].
  cbn [settle_in_order]. unfold build_settle, take_pending. rewrite Hp. cbn [take_entry].
  rewrite IH. reflexivity.
Qed.

Lemma run_settles_idle (registry : list (string * ProviderConfig)) (rid : nat)
    (schedule : list (string * fetch_outcome)) (w : Worker) :
  building w = [] -> run registry (settles rid schedule) w = w.
Proof.
  intros Hb. induction schedule as [|[q o] rest IH]; [reflexivity|].
  rewrite settles_cons, run_cons. cbn [step]. rewrite Hb. cbn [take_entry]. exact IH.
Qed.

Lemma route_console (rid : nat) (request : Request) (w : Worker) :
  console (route rid request w) = console w.
Proof.
  unfold route.
  destruct (pathname request =? "/v1/models"); [reflexivity|].
  destruct (pathname request =? "/v1/chat/completions").
  - destruct (chat_checks request); reflexivity.
  - destruct (pathname request =? "/"); reflexivity.
Qed.

Lemma route_building (rid : nat) (request : Request) (w : Worker) :
  building (route rid request w) = building w.
Proof. apply route_global. Qed.

Lemma route_table (rid : nat) (request : Request) (w : Worker) :
  MODEL_PROVIDER_MAP (route rid request w) = MODEL_PROVIDER_MAP w.
Proof. apply route_global. Qed.

Lemma route_network (rid : nat) (request : Request) (w : Worker) :
  network (route rid request w) = network w.
Proof. apply route_global. Qed.

Lemma route_models (rid : nat) (request : Request) (w : Worker) :
  pathname request = "/v1/models" ->
  replies (route rid request w)
  = (replies w ++ [(rid, handleModelsRequest (MODEL_PROVIDER_MAP w))])%list.
Proof. intros H. unfold route. rewrite H. reflexivity. Qed.

Lemma run_settles_building (registry : list (string * ProviderConfig)) (rid : nat)
    (request : Request) (schedule : list (string * fetch_outcome)) (b : Build) (w : Worker) :
  MODEL_PROVIDER_MAP w = None -> building w = [(rid, (request, b))] -> pending b <> [] ->
  match pending (fst (settle_in_order schedule b)) with
  | [] =>
      exists w0,
        run registry (settles rid schedule) w = route rid request w0
        /\ MODEL_PROVIDER_MAP w0 = Some (map (fst (settle_in_order schedule b)))
        /\ building w0 = []
        /\ network w0 = network w
        /\ console w0 = (console w ++ snd (settle_in_order schedule b))%list
        /\ replies w0 = replies w
  | _ :: _ =>
      MODEL_PROVIDER_MAP (run registry (settles rid schedule) w) = None
      /\ network (run registry (settles rid schedule) w) = network w
      /\ console (run registry (settles rid schedule) w)
         = (console w ++ snd (settle_in_order schedule b))%list
      /\ replies (run registry (settles rid schedule) w) = replies w
  end.
Proof.
  revert b w. induction schedule as [|[q o] rest IH]; intros b w Hm Hb Hp.
  - cbn [settle_in_order fst snd settles List.map]. destruct (pending b); [congruence|].
    rewrite app_nil_r. auto.
  - rewrite settles_cons, run_cons. cbn [step]. rewrite Hb. cbn [take_entry]. rewrite Nat.eqb_refl.
    cbn [settle_in_order].
    destruct (build_settle q o b) as [b' lines].
    destruct (pending b') as [|p ps] eqn:Hp'.
    + rewrite (settle_idle rest b' Hp'). cbn [fst snd]. rewrite Hp'.
      unfold build_done. rewrite run_settles_idle by (rewrite route_building; reflexivity).
      eexists. split; [reflexivity|].
      cbn [MODEL_PROVIDER_MAP building network console replies].
      rewrite app_nil_r. auto.
    + specialize (IH b'
        {| MODEL_PROVIDER_MAP := MODEL_PROVIDER_MAP w; building := [(rid, (request, b'))];
           parsing := parsing w; forwarding := forwarding w; network := network w;
           console := (console w ++ lines)%list; replies := replies w |}
        Hm eq_refl).
      cbn [MODEL_PROVIDER_MAP network console replies] in IH.
      destruct (settle_in_order rest b') as [b2 lines2]. cbn [fst snd] in *.
      assert (Hne : pending b' <> []) by (rewrite Hp'; discriminate).
      specialize (IH Hne). rewrite app_assoc. exact IH.
Qed.

(** X11. A cold start, end to end: when one request reaches a fresh
    isolate and the discovery calls then settle in some order, the table
    the isolate holds is what the builder returns for these answers (none
    while a call is unsettled), the console is the builder's console, the
    network has seen the discovery calls and nothing else, and a request
    for the catalog is answered exactly when the builder has returned,
    with the catalog of its table. *)
Theorem cold_start_runs_the_builder (registry : list (string * ProviderConfig))
    (rid : nat) (request : Request) (schedule : list (string * fetch_outcome)) :
  let w := run registry (Arrives rid request :: settles rid schedule) cold_start in
  MODEL_PROVIDER_MAP w = buildModelProviderMap registry schedule
  /\ console w = build_console registry schedule
  /\ network w = discovery_calls registry
  /\ (pathname request = "/v1/models" ->
      replies w
      = match buildModelProviderMap registry schedule with
        | Some m => [(rid, handleModelsRequest (Some m))]
        | None => []
        end).
Proof.
  cbv zeta. rewrite run_cons. cbn [step].
  unfold arrive, buildModelProviderMap, build_console, discovery_calls, cold_start.
  cbn [MODEL_PROVIDER_MAP].
  destruct (start_tasks registry new_build) as [b calls]. cbn [fst snd].
  destruct (pending b) as [|p ps] eqn:Hp.
  - rewrite (settle_idle schedule b Hp). cbn [fst snd]. rewrite Hp.
    unfold build_done. cbn [building parsing forwarding network console replies app].
    rewrite run_settles_idle by (rewrite route_building; reflexivity).
    rewrite route_console, route_table, route_network.
    repeat split. intros Hpath. rewrite route_models by exact Hpath. reflexivity.
  - cbn [building parsing forwarding network console replies app].
    assert (Hne : pending b <> []) by (rewrite Hp; discriminate).
    pose proof (run_settles_building registry rid request schedule b
                  {| MODEL_PROVIDER_MAP := None; building := [(rid, (request, b))];
                     parsing := []; forwarding := []; network := calls; console := [];
                     replies := [] |} eq_refl eq_refl Hne) as H.
    cbn [MODEL_PROVIDER_MAP network console replies app] in H.
    destruct (pending (fst (settle_in_order schedule b))) as [|p' ps'].
    + destruct H as [w0 [-> [Hm [_ [Hn [Hc Hr]]]]]].
      rewrite route_console, route_table, route_network.
      repeat split; auto. intros Hpath. rewrite route_models by exact Hpath.
      rewrite Hr, Hm. reflexivity.
    + destruct H as [Hm [Hn [Hc Hr]]]. repeat split; auto.
Qed.


(** ** The exceptions that escape the entry point *)

Lemma chat_resolve_throw (m : Map) (request : Request) (e : js_error) :
  chat_resolve (Some m) request = Throw e -> escape_of request e.
Proof.
  unfold chat_resolve, escape_of. destruct (body request) as [v|err]; cbn [bind];
    [|intros H; left; inversion H; reflexivity].
  destruct (is_null v) eqn:Hnull.
  - destruct v; try discriminate Hnull. cbn [get_property bind].
    intros H. inversion H; subst. right. left. auto.
  - rewrite (get_property_field v "model" Hnull). cbn [bind].
    destruct (field_of v "model") as [model|] eqn:Hmodel; [|discriminate].
    destruct (negb (truthy (Some model))); [discriminate|].
    destruct (Map_get m model); [discriminate|].
    destruct (js_to_string model) as [named|err] eqn:Hnamed; cbn [bind].
    + rewrite new_Response_relayable by (unfold relayable; lia). discriminate.
    + intros H. inversion H; subst err.
      destruct (js_to_string_throws model e Hnamed) as [-> Hshape].
      right. right. exists v, model. auto.
Qed.

Lemma chat_relay_normal (id : json) (o : upstream_outcome) :
  js_to_string id = Normal (printed id) -> exists r, chat_relay id o = Normal r.
Proof.
  intros Hid. unfold chat_relay. rewrite Hid.
  destruct o as [message|u]; [eexists; reflexivity|].
  unfold new_Response at 1.
  destruct ((200 <=? status u)%Z && (status u <=? 599)%Z); eexists; reflexivity.
Qed.

Lemma escapes_ok_more (trace : list event) (e : event) (w : Worker) :
  escapes_ok trace w -> escapes_ok (trace ++ [e]) w.
Proof.
  intros [H1 [H2 [Hf H3]]]. unfold escapes_ok. repeat (split; [assumption|]).
  intros rid err Hin. destruct (H3 rid err Hin) as [request [Ha Hrest]].
  exists request. split; [apply in_or_app; left; exact Ha|exact Hrest].
Qed.

Lemma escapes_ok_reply (trace : list event) (rid : nat) (r : Response) (w : Worker) :
  escapes_ok trace w -> escapes_ok trace (reply rid (Normal r) w).
Proof.
  intros [H1 [H2 [Hf H3]]]. unfold escapes_ok, reply.
  cbn [MODEL_PROVIDER_MAP parsing forwarding replies]. repeat (split; [assumption|]).
  intros rid' err Hin. apply in_app_or in Hin as [Hin|[Hin|[]]]; [eauto|discriminate Hin].
Qed.

Lemma escapes_ok_route (trace : list event) (rid : nat) (request : Request) (m : Map)
    (w : Worker) :
  escapes_ok trace w -> MODEL_PROVIDER_MAP w = Some m ->
  escapes_ok trace (route rid request w).
Proof.
  intros Hw Hm. unfold route. rewrite Hm.
  destruct (pathname request =? "/v1/models").
  - rewrite handleModelsRequest_ready. apply escapes_ok_reply, Hw.
  - destruct (pathname request =? "/v1/chat/completions").
    + destruct (chat_checks request) as [r|] eqn:Hc.
      * destruct (chat_checks_cases request r Hc) as [st [text [-> _]]].
        apply escapes_ok_reply, Hw.
      * destruct Hw as [H1 [H2 [Hf H3]]]. unfold escapes_ok.
        cbn [MODEL_PROVIDER_MAP parsing forwarding replies].
        split; [discriminate|]. split; [|split; assumption].
        intros rid' request' [Heq|Hin]; [inversion Heq; subst; exact Hc|eauto].
    + destruct (pathname request =? "/"); apply escapes_ok_reply, Hw.
Qed.

Lemma escapes_ok_step (registry : list (string * ProviderConfig)) (trace : list event)
    (w : Worker) (e : event) :
  trace_ok trace w -> escapes_ok trace w ->
  escapes_ok (trace ++ [e]) (step registry w e).
Proof.
  intros Ht Hw. pose proof (escapes_ok_more trace e w Hw) as Hw'.
  assert (Hset : forall m b f n c, converts f ->
            escapes_ok (trace ++ [e])
              {| MODEL_PROVIDER_MAP := Some m; building := b; parsing := parsing w;
                 forwarding := f; network := n; console := c; replies := replies w |}).
  { intros m b f n c Hf. destruct Hw' as [H1 [H2 [_ H3]]]. unfold escapes_ok.
    cbn [MODEL_PROVIDER_MAP parsing forwarding replies].
    split; [discriminate|]. repeat (split; [assumption|]). exact H3. }
  assert (Hkeep : forall b f n c, converts f ->
            escapes_ok (trace ++ [e])
              {| MODEL_PROVIDER_MAP := MODEL_PROVIDER_MAP w; building := b;
                 parsing := parsing w; forwarding := f; network := n; console := c;
                 replies := replies w |}).
  { intros b f n c Hf. destruct Hw' as [H1 [H2 [_ H3]]]. unfold escapes_ok.
    cbn [MODEL_PROVIDER_MAP parsing forwarding replies].
    repeat (split; [assumption|]). exact H3. }
  assert (Hwaiting : converts (forwarding w)) by apply Hw.
  destruct e as [rid request|rid pid o|rid|rid o]; cbn [step].
  - unfold arrive. destruct (MODEL_PROVIDER_MAP w) as [m|] eqn:Hmap.
    + eapply escapes_ok_route; [exact Hw'|exact Hmap].
    + destruct (start_tasks registry new_build) as [b calls].
      destruct (pending b) as [|p ps].
      * unfold build_done. eapply escapes_ok_route; [|reflexivity].
        cbn [building parsing forwarding network console replies]. apply Hset, Hwaiting.
      * cbn [building parsing forwarding network console replies]. apply Hkeep, Hwaiting.
  - destruct (take_entry Nat.eqb rid (building w)) as [[[request b] others]|]; [|exact Hw'].
    destruct (build_settle pid o b) as [b' lines].
    destruct (pending b') as [|p ps].
    + unfold build_done. eapply escapes_ok_route; [|reflexivity].
      cbn [building parsing forwarding network console replies]. apply Hset, Hwaiting.
    + cbn [MODEL_PROVIDER_MAP building parsing forwarding network console replies].
      apply Hkeep, Hwaiting.
  - destruct (take_entry Nat.eqb rid (parsing w)) as [[request others]|] eqn:Htake;
      [|exact Hw'].
    destruct Hw' as [H1 [H2 [_ H3]]].
    destruct (take_entry_split _ _ _ _ _ Htake) as [l1 [k [l2 [Hparsing [Hothers [Hk _]]]]]].
    apply Nat.eqb_eq in Hk. subst k.
    assert (Hin : In (rid, request) (parsing w))
      by (rewrite Hparsing; apply in_or_app; right; left; reflexivity).
    assert (Hrest : forall rid' request', In (rid', request') others ->
                      In (rid', request') (parsing w)).
    { intros rid' request' Hin'. rewrite Hparsing. subst others.
      apply in_app_or in Hin' as [Hin'|Hin']; apply in_or_app; [left|right; right]; exact Hin'. }
    destruct (MODEL_PROVIDER_MAP w) as [m|] eqn:Hmap;
      [|rewrite (H1 eq_refl) in Hin; destruct Hin].
    destruct Ht as [_ [Hp _]]. destruct (Hp rid request Hin) as [Harrived Hpath].
    destruct (chat_checks_none request (H2 rid request Hin)) as [Hpost Hauth].
    assert (Hbase : forall f n, converts f ->
              escapes_ok (trace ++ [BodyParsed rid])
                {| MODEL_PROVIDER_MAP := Some m; building := building w;
                   parsing := others; forwarding := f; network := n;
                   console := console w; replies := replies w |}).
    { intros f n Hf. unfold escapes_ok. cbn [MODEL_PROVIDER_MAP parsing forwarding replies].
      split; [discriminate|]. split; [|split; [exact Hf|exact H3]].
      intros rid' request' Hin'. apply (H2 rid' request'), Hrest, Hin'. }
    destruct (chat_resolve (Some m) request) as [[r|[modelId call]]|err] eqn:Hres.
    + apply escapes_ok_reply, Hbase, Hwaiting.
    + cbn [MODEL_PROVIDER_MAP building parsing forwarding network console replies].
      apply Hbase. intros rid' id' [Heq|Hin'].
      * inversion Heq; subst.
        destruct (chat_resolve_call m request id' call Hres) as [v [info [_ [_ [_ [Hget _]]]]]].
        apply (Map_get_converts m id' info Hget).
      * apply (Hwaiting rid' id' Hin').
    + destruct (Hbase (forwarding w) (network w) Hwaiting) as [B1 [B2 [Bf B3]]].
      unfold escapes_ok, reply.
      cbn [MODEL_PROVIDER_MAP parsing forwarding replies].
      split; [exact B1|]. split; [exact B2|]. split; [exact Bf|].
      intros rid' e' Hr. apply in_app_or in Hr as [Hr|[Hr|[]]]; [exact (B3 rid' e' Hr)|].
      inversion Hr; subst. exists request.
      split; [apply in_or_app; left; exact Harrived|].
      split; [exact Hpath|]. split; [exact Hpost|]. split; [exact Hauth|].
      apply (chat_resolve_throw m request e' Hres).
  - destruct (take_entry Nat.eqb rid (forwarding w)) as [[modelId others]|] eqn:Htake;
      [|exact Hw'].
    destruct (take_entry_split _ _ _ _ _ Htake) as [l1 [k [l2 [Hforwarding [Hothers [Hk _]]]]]].
    apply Nat.eqb_eq in Hk. subst k.
    assert (Hid : js_to_string modelId = Normal (printed modelId)).
    { apply (Hwaiting rid). rewrite Hforwarding. apply in_or_app. right. left. reflexivity. }
    destruct (chat_relay_normal modelId o Hid) as [r ->].
    apply escapes_ok_reply. apply Hkeep.
    intros rid' id' Hin'. apply (Hwaiting rid'). rewrite Hforwarding. subst others.
    apply in_app_or in Hin' as [Hin'|Hin']; apply in_or_app; [left|right; right]; exact Hin'.
Qed.

Lemma run_escapes_ok (registry : list (string * ProviderConfig)) (trace : list event) :
  escapes_ok trace (run registry trace cold_start).
Proof.
  induction trace as [|e trace IH] using rev_ind.
  - unfold escapes_ok, converts. cbn. repeat split; intros; contradiction.
  - rewrite run_snoc. apply escapes_ok_step; [apply run_trace_ok|exact IH].
Qed.

(** X12. Whatever arrives and however the calls interleave, the only
    exceptions that escape the entry point come from an authorized POST to
    the chat route, before any upstream call for it: the rejection of the
    read of a body that is no JSON, the TypeError of reading [model] of a
    [null] body, or the TypeError of converting to text, for the 404, a
    [model] that is an array or an object (one that holds a [toString]
    member of its own). The table is never read while it is [null], and
    the builder, the catalog, the page and the relay let nothing escape:
    the model of a request that was sent upstream converts to text. *)
Theorem escapes_come_from_the_body (registry : list (string * ProviderConfig))
    (trace : list event) (rid : nat) (e : js_error) :
  In (rid, Throw e) (replies (run registry trace cold_start)) ->
  exists request,
    In (Arrives rid request) trace
    /\ pathname request = "/v1/chat/completions"
    /\ method request = "POST" /\ authorized request
    /\ (body request = Throw e
        \/ (body request = Normal JNull /\ e = NullReadError "model")
        \/ (exists v id,
              body request = Normal v /\ field_of v "model" = Some id
              /\ (isArray (Some id) = true \/ exists members, id = JObj members)
              /\ js_to_string id = Throw e /\ e = ConversionError)).
Proof.
  intros Hin. destruct (run_escapes_ok registry trace) as [_ [_ [_ H3]]].
  exact (H3 rid e Hin).
Qed.


(** ** Routing without collisions *)

(** X13. A string model id that exactly one provider emits is routed to
    that provider, with the host and chat path of its descriptor, in
    whatever order the discovery calls settle. *)
Theorem sole_emitter_owns (registry : list (string * ProviderConfig))
    (schedule : list (string * fetch_outcome)) (m : Map)
    (pid : string) (config : ProviderConfig) (s : string) :
  NoDup (List.map fst registry) -> NoDup (List.map fst schedule) ->
  buildModelProviderMap registry schedule = Some m ->
  In (pid, config) registry ->
  lists registry schedule pid (JStr s) ->
  (forall pid', lists registry schedule pid' (JStr s) -> pid' = pid) ->
  Map_get m (JStr s) = Some (info_of pid config).
Proof.
  intros Hr Hs Hb Hin Hlists Hsole.
  assert (Hkey : Map_get m (JStr s) <> None).
  { eapply emitted_is_key; eauto. }
  destruct (Map_get m (JStr s)) as [info|] eqn:Hinfo; [|congruence].
  destruct (built_owner_emitted registry schedule m s info Hb Hinfo)
    as [c [Hc [Hcopy Hkind]]].
  assert (Hpid : providerId info = pid).
  { apply Hsole. exists c. split; assumption. }
  rewrite Hpid in *. assert (c = config) by (eapply NoDup_keys_unique; eauto).
  subst c. rewrite Hcopy. reflexivity.
Qed.

(** ** The discovery calls *)

Lemma calls_of_dynamic (entries : list (string * ProviderConfig)) :
  calls_of (dynamic_entries entries)
  = List.map (fun entry : string * ProviderConfig =>
                discovery_request (snd entry)
                  (match modelsPath (snd entry) with Some path => path | None => EmptyString end))
             (dynamic_entries entries).
Proof.
  unfold dynamic_entries, calls_of.
  induction entries as [|[pid config] rest IH]; [reflexivity|].
  cbn [List.filter snd]. destruct (is_dynamic config) eqn:Hd; [|exact IH].
  destruct (is_dynamic_path config Hd) as [path Hp].
  cbn [flat_map List.map snd app]. rewrite Hp, IH. reflexivity.
Qed.

(** X14. A run of the builder issues exactly one call for each provider
    with a truthy [modelsPath], in the order of the registry, and none for
    any other provider; each is a GET of [https://{upstreamHost}{modelsPath}]
    with the three fixed headers and no body. *)
Theorem one_get_per_dynamic_provider (registry : list (string * ProviderConfig)) :
  discovery_calls registry
  = List.map (fun entry : string * ProviderConfig =>
                {| fetch_url :=
                     "https://" ++ upstreamHost (snd entry)
                     ++ match modelsPath (snd entry) with
                        | Some path => path
                        | None => EmptyString
                        end;
                   fetch_method := "GET";
                   fetch_headers := [("Accept", "application/json");
                                     ("Origin", "https://g4f.dev");
                                     ("Referer", "https://g4f.dev/")];
                   fetch_body := None;
                   fetch_redirect := "follow" |})
             (List.filter (fun entry => truthy_string (modelsPath (snd entry))) registry).
Proof. rewrite discovery_calls_spec. apply calls_of_dynamic. Qed.

(** ** One build when the requests come one after the other *)

Lemma cold_start_completed (registry : list (string * ProviderConfig))
    (rid : nat) (request : Request) (schedule : list (string * fetch_outcome)) (m : Map) :
  buildModelProviderMap registry schedule = Some m ->
  MODEL_PROVIDER_MAP (run registry (Arrives rid request :: settles rid schedule) cold_start)
  = Some m
  /\ building (run registry (Arrives rid request :: settles rid schedule) cold_start) = []
  /\ network (run registry (Arrives rid request :: settles rid schedule) cold_start)
     = discovery_calls registry.
Proof.
  rewrite run_cons. cbn [step].
  unfold arrive, buildModelProviderMap, discovery_calls, cold_start.
  cbn [MODEL_PROVIDER_MAP].
  destruct (start_tasks registry new_build) as [b calls]. cbn [fst snd].
  destruct (pending b) as [|p ps] eqn:Hp.
  - rewrite (settle_idle schedule b Hp). cbn [fst]. rewrite Hp. intros Hm.
    unfold build_done. cbn [building parsing forwarding network console replies app].
    rewrite run_settles_idle by (rewrite route_building; reflexivity).
    rewrite route_building, route_table, route_network. auto.
  - cbn [building parsing forwarding network console replies app].
    assert (Hne : pending b <> []) by (rewrite Hp; discriminate).
    pose proof (run_settles_building registry rid request schedule b
                  {| MODEL_PROVIDER_MAP := None; building := [(rid, (request, b))];
                     parsing := []; forwarding := []; network := calls; console := [];
                     replies := [] |} eq_refl eq_refl Hne) as H.
    cbn [MODEL_PROVIDER_MAP network console replies app] in H.
    destruct (pending (fst (settle_in_order schedule b))); [|discriminate].
    intros Hm. destruct H as [w0 [-> [Hm0 [Hb [Hn _]]]]].
    rewrite route_building, route_table, route_network. rewrite Hm0. auto.
Qed.

(** X15. When the build of the first request has returned before anything
    else arrives, it is the only build of the isolate: whatever follows,
    the table stays the one it returned and the network sees the discovery
    calls once, followed by upstream chat requests only. *)
Theorem sequential_start_builds_once (registry : list (string * ProviderConfig))
    (rid : nat) (request : Request) (schedule : list (string * fetch_outcome))
    (later : list event) (m : Map) :
  buildModelProviderMap registry schedule = Some m ->
  let w := run registry ((Arrives rid request :: settles rid schedule) ++ later) cold_start in
  MODEL_PROVIDER_MAP w = Some m
  /\ building w = []
  /\ exists calls,
       network w = (discovery_calls registry ++ calls)%list
       /\ Forall (upstream_call_of m) calls.
Proof.
  intros Hb. cbv zeta. rewrite run_app.
  destruct (cold_start_completed registry rid request schedule m Hb) as [Hm [Hnone Hn]].
  destruct (warm_run registry later _ m Hm Hnone) as [Hm' [Hb' [calls [Hcalls Hall]]]].
  split; [exact Hm'|]. split; [exact Hb'|].
  exists calls. rewrite Hcalls, Hn. auto.
Qed.

End Properties.

(** * Concrete runs

    Closed instances of the statements above, on the engine without
    numbers and on the registry of the script. *)

#[local] Existing Instance text_engine.

(** The keys of a literal list are distinct. *)
Ltac distinct_keys := repeat (constructor; [cbn; intuition discriminate|]); constructor.

(** An array whose one entry has only a falsy [id] and a [name]: the
    hypothesis of the refinement holds and the [name] is taken. *)
Lemma normalizer_contract_witness :
  reads_null (JArr [JObj [("id", JStr EmptyString); ("name", JStr "b")]; JStr "x"]) = false
  /\ normalizeModelList (JArr [JObj [("id", JStr EmptyString); ("name", JStr "b")]; JStr "x"])
     = Normal [JStr "b"].
Proof.
  split; [reflexivity|].
  exact (proj1 normalizer_contract
           (JArr [JObj [("id", JStr EmptyString); ("name", JStr "b")]; JStr "x"]) eq_refl).
Defined.

(** C4 as stated fails on the payload [null]: reading [data.data] throws,
    no list is returned. *)
Lemma normalizer_null_throws :
  normalizeModelList JNull = Throw (NullReadError "data")
  /\ normalizeModelList JNull <> Normal [].
Proof. split; [reflexivity|discriminate]. Qed.

Example sample_build : buildModelProviderMap PROVIDER_CONFIG sample_schedule = Some sample_table.
Proof. reflexivity. Qed.

(** The script's registry and the sample answers meet the hypotheses of
    C3: the builder returns, nothing in its table names [grok], whose
    body was no JSON, and [llama3], which [ollama] listed, is a key. *)
Lemma build_tolerates_failures_witness :
  exists m,
    buildModelProviderMap PROVIDER_CONFIG sample_schedule = Some m
    /\ Map_get m (JStr "llama3") <> None
    /\ (forall id info, In (id, info) m -> providerId info <> "grok")
    /\ buildModelProviderMap (without "grok" PROVIDER_CONFIG) sample_schedule = Some m.
Proof.
  destruct (build_tolerates_failures PROVIDER_CONFIG sample_schedule)
    as [m [Hm [_ [_ [H [Hkey _]]]]]].
  - distinct_keys.
  - distinct_keys.
  - intros pid config Hin Hdyn. cbn in Hin.
    repeat (destruct Hin as [Hin|Hin];
            [inversion Hin; subst; try discriminate Hdyn; cbn; tauto|]).
    destruct Hin.
  - exists m. split; [exact Hm|]. split.
    { apply (Hkey "ollama" "llama3"). exists ollama_config. split; [cbn; tauto|].
      right. split; [reflexivity|].
      exists (FetchResponse 200
                (Normal (JObj [("models", JArr [JObj [("name", JStr "llama3")]])]))),
             [JStr "llama3"].
      split; [cbn; tauto|]. split; [reflexivity|]. left. reflexivity. }
    apply (H "grok" {| name := "Grok (via g4f)"; upstreamHost := "g4f.dev";
                       models := None; modelsPath := Some "/api/grok/models";
                       chatPath := "/api/grok/chat/completions" |}
             (FetchResponse 200 (Throw (BodyError "Unexpected token < in JSON")))
             (BodyError "Unexpected token < in JSON")).
    + cbn. tauto.
    + reflexivity.
    + cbn. tauto.
    + reflexivity.
Defined.

(** The script's one static provider under the sample answers: both of its
    ids are its own, none of the discovered lists naming them. *)
Lemma static_models_registered_witness :
  Map_get sample_table (JStr "gpt-4o-mini")
  = Some {| providerId := "api.airforce"; info_upstreamHost := "api.airforce";
            info_chatPath := "/v1/chat/completions" |}
  /\ discovery_calls (without "api.airforce" PROVIDER_CONFIG) = discovery_calls PROVIDER_CONFIG.
Proof.
  destruct (static_models_registered PROVIDER_CONFIG sample_schedule sample_table
              "api.airforce"
              {| name := "Airforce API"; upstreamHost := "api.airforce";
                 models := Some ["gpt-5-mini"; "gpt-4o-mini"]; modelsPath := None;
                 chatPath := "/v1/chat/completions" |}
              ["gpt-5-mini"; "gpt-4o-mini"] "gpt-4o-mini")
    as [_ [Howner [_ Hcalls]]].
  - distinct_keys.
  - cbn. tauto.
  - reflexivity.
  - reflexivity.
  - cbn. tauto.
  - reflexivity.
  - split; [|exact Hcalls]. apply Howner.
    + intros q c Hq Hc. cbn in Hq.
      repeat (destruct Hq as [Hq|Hq]; [inversion Hq; subst; try reflexivity; destruct Hc|]).
      destruct Hq.
    + intros q o found Hq Hd. cbn in Hq.
      repeat (destruct Hq as [Hq|Hq];
              [inversion Hq; subst; try discriminate Hd; inversion Hd; subst;
               cbn; intuition discriminate|]).
      destruct Hq.
Defined.

(** C8 as stated fails when a discovered list repeats a static id: every
    call has settled, the builder returns, and [gpt-4o-mini], an id of the
    static list of [api.airforce], is mapped to [anondrop.net]. *)
Lemma static_model_taken_over :
  exists m info,
    buildModelProviderMap PROVIDER_CONFIG collision_schedule = Some m
    /\ Map_get m (JStr "gpt-4o-mini") = Some info
    /\ providerId info = "anondrop.net"
    /\ providerId info <> "api.airforce".
Proof.
  eexists. eexists. split; [reflexivity|]. split; [reflexivity|].
  split; [reflexivity|discriminate].
Qed.

Example sample_run :
  MODEL_PROVIDER_MAP (run PROVIDER_CONFIG sample_trace cold_start) = Some sample_table.
Proof. reflexivity. Qed.

(** C2 fails on the code. Two requests reach a cold isolate before any
    discovery call has settled: the second finds [MODEL_PROVIDER_MAP] still
    [null] and starts the builder again, so two builds are in flight and
    each of the seven discovery endpoints has been queried twice. *)
Example cold_start_builds_twice :
  let w := run PROVIDER_CONFIG [Arrives 1 models_request; Arrives 2 models_request] cold_start in
  MODEL_PROVIDER_MAP w = None
  /\ builds_in_flight w = 2%nat
  /\ network w = (discovery_calls PROVIDER_CONFIG ++ discovery_calls PROVIDER_CONFIG)%list
  /\ List.length (discovery_calls PROVIDER_CONFIG) = 7%nat.
Proof. repeat split. Qed.

(** A missing model on the sample table: the fourth check answers 404. A
    model that is an object with a [toString] member: the conversion
    throws and no response is made. *)
Lemma chat_preconditions_witness :
  handleChatCompletionRequest (Some sample_table)
    (chat_request (Normal (JObj [("model", JStr "gpt-9")]))) (UpstreamRejected "unused")
  = (Normal (plain 404 "找不到模型: 'gpt-9'。请在 /v1/models 检查可用模型列表。"), [])
  /\ handleChatCompletionRequest (Some sample_table)
       (chat_request (Normal unprintable_body)) (UpstreamRejected "unused")
     = (Throw ConversionError, []).
Proof.
  split.
  - exact (proj1 (proj2 (proj2 (proj2
             (chat_preconditions sample_table
                (chat_request (Normal (JObj [("model", JStr "gpt-9")])))
                (UpstreamRejected "unused")))))
             eq_refl eq_refl (JObj [("model", JStr "gpt-9")]) (JStr "gpt-9")
             eq_refl eq_refl eq_refl eq_refl "gpt-9" eq_refl).
  - exact (proj1 (proj2 (proj2 (proj2 (proj2 (proj2 (proj2
             (chat_preconditions sample_table
                (chat_request (Normal unprintable_body))
                (UpstreamRejected "unused")))))))
             eq_refl eq_refl unprintable_body (JObj [("toString", JStr "x")])
             eq_refl eq_refl eq_refl eq_refl ConversionError eq_refl)).
Defined.

(** C1 as stated fails on a body that is no JSON, and on the body [null]:
    the request is an authorized POST, the handler answers no 400, the
    exception of the read escapes it. It fails too on a [model] that is
    an object with a [toString] member: the handler answers no 404, the
    exception of the conversion escapes it. *)
Lemma unreadable_body_escapes :
  handleChatCompletionRequest (Some sample_table)
    (chat_request (Throw (BodyError "Unexpected token h in JSON"))) (UpstreamRejected "unused")
  = (Throw (BodyError "Unexpected token h in JSON"), [])
  /\ handleChatCompletionRequest (Some sample_table)
       (chat_request (Normal JNull)) (UpstreamRejected "unused")
     = (Throw (NullReadError "model"), [])
  /\ fst (handleChatCompletionRequest (Some sample_table)
            (chat_request (Throw (BodyError "Unexpected token h in JSON")))
            (UpstreamRejected "unused"))
     <> Normal (plain 400 ("请求体中缺少 " ++ double_quote ++ "model" ++ double_quote ++ " 字段。"))
  /\ Map_get sample_table (JObj [("toString", JStr "x")]) = None
  /\ handleChatCompletionRequest (Some sample_table)
       (chat_request (Normal unprintable_body)) (UpstreamRejected "unused")
     = (Throw ConversionError, []).
Proof.
  split; [reflexivity|]. split; [reflexivity|]. split; [discriminate|].
  split; reflexivity.
Qed.


(** A chat request for [llama3] on the sample table goes to the chat path
    of [ollama], whatever the upstream then answers; its body, which has no
    member twice and no key that is an array index, is printed as it was. *)
Lemma upstream_request_fixed_witness :
  snd (handleChatCompletionRequest (Some sample_table) (chat_request (Normal llama_body))
         (UpstreamRejected "connection reset"))
  = [{| fetch_url := "https://g4f.dev/api/ollama/chat/completions";
        fetch_method := "POST";
        fetch_headers := upstream_headers;
        fetch_body := Some llama_body;
        fetch_redirect := "follow" |}].
Proof.
  assert (Hnd : NoDup (List.map fst PROVIDER_CONFIG)) by distinct_keys.
  exact (proj1 (upstream_request_fixed PROVIDER_CONFIG sample_trace sample_table
                  (chat_request (Normal llama_body)) llama_body (JStr "llama3")
                  {| providerId := "ollama"; info_upstreamHost := "g4f.dev";
                     info_chatPath := "/api/ollama/chat/completions" |}
                  (UpstreamRejected "connection reset") Hnd eq_refl
                  (conj eq_refl (conj eq_refl (conj eq_refl
                     (conj eq_refl (conj eq_refl eq_refl))))))).
Defined.

(** C6 as stated fails on a body that has a member twice, and on one with
    a key that is an array index: the request passes the four checks, and
    the body sent upstream is not the body that came, the first holding
    the member once and the second its index key first. *)
Lemma printed_body_differs :
  snd (handleChatCompletionRequest (Some sample_table) (chat_request (Normal repeated_body))
         (UpstreamRejected "connection reset"))
  = [{| fetch_url := "https://g4f.dev/api/ollama/chat/completions";
        fetch_method := "POST";
        fetch_headers := upstream_headers;
        fetch_body := Some (JObj [("model", JStr "llama3"); ("stream", JBool true)]);
        fetch_redirect := "follow" |}]
  /\ Some (JObj [("model", JStr "llama3"); ("stream", JBool true)]) <> Some repeated_body
  /\ snd (handleChatCompletionRequest (Some sample_table) (chat_request (Normal indexed_body))
            (UpstreamRejected "connection reset"))
     = [{| fetch_url := "https://g4f.dev/api/ollama/chat/completions";
           fetch_method := "POST";
           fetch_headers := upstream_headers;
           fetch_body := Some (JObj [("7", JBool true); ("model", JStr "llama3")]);
           fetch_redirect := "follow" |}]
  /\ Some (JObj [("7", JBool true); ("model", JStr "llama3")]) <> Some indexed_body.
Proof.
  split; [reflexivity|]. split; [discriminate|]. split; [reflexivity|discriminate].
Qed.

(** The relay of an upstream event stream answered 200. *)
Lemma relay_contract_witness :
  fst (handleChatCompletionRequest (Some sample_table) (chat_request (Normal llama_body))
         (UpstreamResponse (upstream_stream 200)))
  = Normal {| status := 200; statusText := "OK";
              response_headers :=
                [("Content-Type", "text/event-stream; charset=utf-8");
                 ("Access-Control-Allow-Origin", "*");
                 ("Cache-Control", "no-cache")];
              response_body := StreamBody (Some ["data: {}"; "data: [DONE]"]) |}.
Proof.
  refine (proj1 (relay_contract sample_table (chat_request (Normal llama_body)) llama_body
                   (JStr "llama3")
                   {| providerId := "ollama"; info_upstreamHost := "g4f.dev";
                      info_chatPath := "/api/ollama/chat/completions" |}
                   (UpstreamResponse (upstream_stream 200))
                   (conj eq_refl (conj eq_refl (conj eq_refl
                      (conj eq_refl (conj eq_refl eq_refl))))))
                (upstream_stream 200) eq_refl _).
  unfold relayable. cbn. lia.
Defined.

(** C7 as stated fails when the upstream answers with a status that
    [new Response] refuses: the fetch succeeded, with status 999, yet the
    caller gets the gateway's 502 naming the RangeError, not the relay. *)
Lemma out_of_range_status_is_bad_gateway :
  fst (handleChatCompletionRequest (Some sample_table) (chat_request (Normal llama_body))
         (UpstreamResponse (upstream_stream 999)))
  = Normal (plain 502
      "上游 API 请求失败 (模型 'llama3'): Responses may only be constructed with status codes in the range 200 to 599, inclusive.")
  /\ fst (handleChatCompletionRequest (Some sample_table) (chat_request (Normal llama_body))
            (UpstreamResponse (upstream_stream 999)))
     <> Normal {| status := 999; statusText := "OK";
                  response_headers :=
                    [("Content-Type", "text/event-stream; charset=utf-8");
                     ("Access-Control-Allow-Origin", "*");
                     ("Cache-Control", "no-cache")];
                  response_body := StreamBody (Some ["data: {}"; "data: [DONE]"]) |}.
Proof. split; [reflexivity|discriminate]. Qed.

(** The sample cold start: the entry of [llama3] is copied from [ollama],
    and [grok], whose body was no JSON, is named by no entry. *)
Lemma entries_copied_from_registry_witness :
  exists schedule,
    buildModelProviderMap PROVIDER_CONFIG schedule = Some sample_table
    /\ forall id info, In (id, info) sample_table ->
         exists config,
           In (providerId info, config) PROVIDER_CONFIG
           /\ info_upstreamHost info = upstreamHost config
           /\ info_chatPath info = chatPath config.
Proof.
  assert (Hnd : NoDup (List.map fst PROVIDER_CONFIG)) by distinct_keys.
  destruct (entries_copied_from_registry PROVIDER_CONFIG sample_trace sample_table Hnd eq_refl)
    as [schedule [_ [Hb Hentries]]].
  exists schedule. split; [exact Hb|].
  intros id info Hin. destruct (proj1 (Hentries id info Hin)) as [config [Hc [_ Hcopy]]].
  exists config. split; [exact Hc|exact Hcopy].
Defined.

(** A registry whose one provider fails discovery: the catalog is answered
    200 with no entry. *)
Lemma catalog_never_unavailable_witness :
  Normal {| status := 200; statusText := EmptyString;
            response_headers := [("Content-Type", "application/json")];
            response_body := JsonBody (JObj [("object", JStr "list"); ("data", JArr [])]) |}
  <> handleModelsRequest None.
Proof.
  exact (proj1 (catalog_never_unavailable lonely_registry
                  [Arrives 1 models_request;
                   DiscoverySettles 1 "anondrop.net" (FetchRejected "connection refused")]
                  1%nat
                  (Normal {| status := 200; statusText := EmptyString;
                             response_headers := [("Content-Type", "application/json")];
                             response_body :=
                               JsonBody (JObj [("object", JStr "list"); ("data", JArr [])]) |})
                  (or_introl eq_refl))).
Defined.

(** ** Instances of the further properties *)

Lemma normalizer_ids_truthy_witness :
  Forall (fun id => truthy (Some id) = true) [JStr "a"; JStr "b"]
  /\ (2 <= 3)%nat.
Proof.
  exact (normalizer_ids_truthy
           (JArr [JObj [("id", JStr "a")]; JObj [("id", JStr EmptyString)];
                  JObj [("name", JStr "b")]])
           [JStr "a"; JStr "b"] eq_refl).
Defined.

Lemma built_keys_distinct_witness :
  same_value_zero (JStr "gpt-5-mini") (JStr "llama3") = false.
Proof.
  refine (proj1 (built_keys_distinct PROVIDER_CONFIG sample_schedule sample_table eq_refl)
            0%nat 5%nat (JStr "gpt-5-mini") (JStr "llama3")
            {| providerId := "api.airforce"; info_upstreamHost := "api.airforce";
               info_chatPath := "/v1/chat/completions" |}
            {| providerId := "ollama"; info_upstreamHost := "g4f.dev";
               info_chatPath := "/api/ollama/chat/completions" |}
            _ eq_refl eq_refl).
  lia.
Defined.

Lemma owner_emitted_model_witness :
  exists schedule config,
    buildModelProviderMap PROVIDER_CONFIG schedule = Some sample_table
    /\ In ("ollama", config) PROVIDER_CONFIG.
Proof.
  assert (Hnd : NoDup (List.map fst PROVIDER_CONFIG)) by distinct_keys.
  destruct (owner_emitted_model PROVIDER_CONFIG sample_trace sample_table "llama3"
              {| providerId := "ollama"; info_upstreamHost := "g4f.dev";
                 info_chatPath := "/api/ollama/chat/completions" |}
              Hnd eq_refl eq_refl) as [schedule [config [_ [Hb [Hin _]]]]].
  exists schedule, config. split; [exact Hb|exact Hin].
Defined.

Lemma key_iff_emitted_witness :
  Map_get sample_table (JStr "openai") <> None
  <-> exists pid, lists PROVIDER_CONFIG sample_schedule pid (JStr "openai").
Proof.
  apply (key_iff_emitted PROVIDER_CONFIG sample_schedule sample_table "openai").
  - distinct_keys.
  - distinct_keys.
  - reflexivity.
Defined.

Lemma last_discovery_owns_witness :
  Map_get collision_table (JStr "gpt-4o-mini") = Some (info_of "anondrop.net" anondrop_config).
Proof.
  apply (last_discovery_owns PROVIDER_CONFIG []
           [("gpt4free.pro", FetchRejected "connection refused");
            ("gemini", FetchRejected "connection refused");
            ("grok", FetchRejected "connection refused");
            ("pollinations.ai", FetchRejected "connection refused");
            ("ollama", FetchRejected "connection refused");
            ("huggingface", FetchRejected "connection refused")]
           collision_table "anondrop.net" anondrop_config
           (FetchResponse 200
              (Normal (JObj [("data", JArr [JObj [("id", JStr "gpt-4o-mini")]])])))
           [JStr "gpt-4o-mini"] "gpt-4o-mini").
  - distinct_keys.
  - cbn. tauto.
  - reflexivity.
  - intros [].
  - reflexivity.
  - left. reflexivity.
  - intros q' o' found' Hin Hd. cbn in Hin.
    repeat (destruct Hin as [Hin|Hin]; [inversion Hin; subst; discriminate Hd|]).
    destruct Hin.
  - reflexivity.
Defined.

Lemma last_static_owns_witness :
  Map_get [(JStr "shared", info_of "second" second_static);
           (JStr "own", info_of "second" second_static)] (JStr "shared")
  = Some (info_of "second" second_static).
Proof.
  apply (last_static_owns [("first", first_static)] [] []
           [(JStr "shared", info_of "second" second_static);
            (JStr "own", info_of "second" second_static)]
           "second" second_static "shared").
  - left. reflexivity.
  - intros q c [].
  - intros q o found [].
  - reflexivity.
Defined.

Lemma console_lists_failures_witness :
  build_console PROVIDER_CONFIG sample_schedule
  = ["获取提供商 'anondrop.net' 的模型列表失败: 上游服务返回状态 503";
     "获取提供商 'gpt4free.pro' 的模型列表失败: connection refused";
     "获取提供商 'grok' 的模型列表失败: Unexpected token < in JSON";
     "获取提供商 'huggingface' 的模型列表失败: Cannot read properties of null (reading 'data')"].
Proof.
  apply (console_lists_failures PROVIDER_CONFIG sample_schedule).
  - distinct_keys.
  - intros pid Hpid. cbn in Hpid.
    repeat (destruct Hpid as [<-|Hpid];
            [eexists; split; [cbn; repeat (first [left; reflexivity|right])|reflexivity]|]).
    destruct Hpid.
Defined.

Lemma chat_through_fetch_witness :
  network (run PROVIDER_CONFIG chat_events (run PROVIDER_CONFIG sample_trace cold_start))
  = (network (run PROVIDER_CONFIG sample_trace cold_start)
     ++ snd (handleChatCompletionRequest (Some sample_table) (chat_request (Normal llama_body))
               (UpstreamResponse (upstream_stream 200))))%list.
Proof.
  exact (proj1 (proj2 (chat_through_fetch PROVIDER_CONFIG
                         (run PROVIDER_CONFIG sample_trace cold_start) sample_table 2%nat
                         (chat_request (Normal llama_body))
                         (UpstreamResponse (upstream_stream 200))
                         eq_refl eq_refl eq_refl eq_refl))).
Defined.

Lemma warm_isolate_stays_warm_witness :
  MODEL_PROVIDER_MAP (run PROVIDER_CONFIG (sample_trace ++ chat_events) cold_start)
  = Some sample_table.
Proof.
  exact (proj1 (warm_isolate_stays_warm PROVIDER_CONFIG sample_trace chat_events sample_table
                  eq_refl eq_refl)).
Defined.

Lemma escapes_come_from_the_body_witness :
  exists request,
    In (Arrives 2 request) broken_chat_trace
    /\ pathname request = "/v1/chat/completions"
    /\ method request = "POST" /\ authorized request
    /\ (body request = Throw (BodyError "Unexpected token h in JSON")
        \/ (body request = Normal JNull
            /\ BodyError "Unexpected token h in JSON" = NullReadError "model")
        \/ (exists v id,
              body request = Normal v /\ field_of v "model" = Some id
              /\ (isArray (Some id) = true \/ exists members, id = JObj members)
              /\ js_to_string id = Throw (BodyError "Unexpected token h in JSON")
              /\ BodyError "Unexpected token h in JSON" = ConversionError)).
Proof.
  refine (escapes_come_from_the_body PROVIDER_CONFIG broken_chat_trace 2%nat
            (BodyError "Unexpected token h in JSON") _).
  vm_compute. right. left. reflexivity.
Defined.

(** The third escape happens: after the sample cold start, an authorized
    chat whose [model] is an object with a [toString] member ends with the
    TypeError of the conversion. *)
Example unprintable_model_escapes :
  In (2%nat, Throw ConversionError)
     (replies (run PROVIDER_CONFIG
                 (sample_trace ++ [Arrives 2 (chat_request (Normal unprintable_body));
                                   BodyParsed 2])
                 cold_start)).
Proof. vm_compute. right. left. reflexivity. Qed.

Lemma sole_emitter_owns_witness :
  Map_get sample_table (JStr "llama3") = Some (info_of "ollama" ollama_config).
Proof.
  apply (sole_emitter_owns PROVIDER_CONFIG sample_schedule sample_table
           "ollama" ollama_config "llama3").
  - distinct_keys.
  - distinct_keys.
  - reflexivity.
  - cbn. tauto.
  - exists ollama_config. split; [cbn; tauto|]. right. split; [reflexivity|].
    exists (FetchResponse 200
              (Normal (JObj [("models", JArr [JObj [("name", JStr "llama3")]])]))),
           [JStr "llama3"].
    split; [cbn; tauto|]. split; [reflexivity|left; reflexivity].
  - intros pid' [config [Hin Hkind]]. cbn in Hin.
    repeat (destruct Hin as [Hin|Hin];
            [inversion Hin; subst; clear Hin;
             destruct Hkind as [Hst|[Hdyn [o [found [Ho [Hd Hf]]]]]];
             [cbn in Hst; intuition discriminate
             |try discriminate Hdyn; cbn in Ho;
              repeat (destruct Ho as [Ho|Ho];
                      [inversion Ho; subst; clear Ho; try reflexivity;
                       try discriminate Hd; inversion Hd; subst;
                       cbn in Hf; intuition discriminate|]);
              destruct Ho]|]).
    destruct Hin.
Defined.

Lemma sequential_start_builds_once_witness :
  MODEL_PROVIDER_MAP
    (run PROVIDER_CONFIG ((Arrives 1 models_request :: settles 1 sample_schedule) ++ chat_events)
       cold_start)
  = Some sample_table.
Proof.
  exact (proj1 (sequential_start_builds_once PROVIDER_CONFIG 1%nat models_request
                  sample_schedule chat_events sample_table eq_refl)).
Defined.
